(** * my-json-database: a shallow embedding of [src/index.js]

    The program is a Node.js class, [MyJsonDatabase], holding one JSON
    document in memory ([this.data]) and rewriting a backing file after every
    mutation.  The embedding keeps what the properties below depend on:

    - JavaScript values are primitives or _references_ into a heap of
      mutable objects and arrays, so that aliasing and [===] on references
      are those of the language;
    - an object is an association list in insertion order, and the order of
      [Object.keys] and of [JSON.stringify] (array indices first, ascending)
      is computed from it;
    - every method is a computation in a state-and-exception monad over the
      heap, the file system and the fields of [this]; a thrown exception
      keeps the state reached when it was thrown.

    What the language provides but the repository does not define is modelled
    after ECMAScript and Node: IEEE doubles are an interface ([JSNumber]), a
    file holds the syntax tree of its JSON text, and every object has the
    prototype it is born with.  Property lookup consults own properties:
    the names that objects inherit from the built-in prototypes
    ([constructor], [toString], [__proto__], ...) are not keys of the
    model, and the properties that read or create a key say so in their
    hypotheses ([inherited_name], [builtin_name]).  The file system is a
    flat map from paths to contents.  Behaviour the model does not cover
    (sparse arrays, named properties on arrays, dangling references, an
    assignment to [__proto__]) is reported by the outcome [Unsupported],
    never mistaken for a normal return or a throw. *)

From Stdlib Require Import Ascii String.
From stdpp Require Import gmap strings list sorting pretty.

Open Scope string_scope.
Open Scope list_scope.
Set Warnings "-register-all".

(** ** Numbers *)

(** IEEE-754 doubles, as far as the program uses them: the type of the
    numbers, and the operations on them. *)
Class NumberType := { number : Type }.

Class JSNumber `{NumberType} := {
  num_of_N : N → number;
  NaN : number;
  num_plus : number → number → number;
  num_minus : number → number → number;
  num_strict_eq : number → number → bool;
  num_ToBoolean : number → bool;
  num_is_finite : number → bool;
  num_ToString : number → string;
  StringToNumber : string → number;
  num_ToBoolean_zero : num_ToBoolean (num_of_N 0) = false;
  num_ToBoolean_NaN : num_ToBoolean NaN = false;
  num_is_finite_zero : num_is_finite (num_of_N 0) = true;
}.

(** ** Strings: [split], array indices *)

(** [key.split(sep)] for a one-character separator. *)
Fixpoint split (sep : ascii) (key : string) : list string :=
  match key with
  | EmptyString => [EmptyString]
  | String c rest =>
      if Ascii.eqb c sep then EmptyString :: split sep rest
      else match split sep rest with
           | [] => [String c EmptyString]
           | w :: ws => String c w :: ws
           end
  end.

Definition digit (c : ascii) : option N :=
  let n := N_of_ascii c in
  if ((48 <=? n) && (n <=? 57))%N then Some (n - 48)%N else None.

Fixpoint parse_digits (acc : N) (s : string) : option N :=
  match s with
  | EmptyString => Some acc
  | String c rest =>
      match digit c with
      | Some d => parse_digits (10 * acc + d)%N rest
      | None => None
      end
  end.

(** A property key is an _array index_ when it is the canonical decimal
    form of an integer below [2^32 - 1]. *)
Definition array_index (p : string) : option N :=
  match p with
  | EmptyString => None
  | String c rest =>
      if Ascii.eqb c "0"%char && negb (String.eqb rest EmptyString) then None
      else match parse_digits 0 p with
           | Some n => if (n <? 4294967295)%N then Some n else None
           | None => None
           end
  end.

Definition index_key (n : N) : string := pretty n.

(** The order of two array-index keys: that of the integers they denote. *)
Definition index_le (a b : string) : Prop :=
  (default 0 (array_index a) ≤ default 0 (array_index b))%N.

Global Instance index_le_dec : RelDecision index_le.
Proof. intros a b. unfold index_le. apply _. Defined.

(** ** Outcomes *)

Inductive exn :=
  | TypeError
  | SyntaxError
  | SystemError
  | Error (message : string).

Inductive result (A : Type) :=
  | Ok (a : A)
  | Throw (e : exn)
  | Unsupported.
Global Arguments Ok {A} a.
Global Arguments Throw {A} e.
Global Arguments Unsupported {A}.

Definition result_bind {A B} (r : result A) (k : A → result B) : result B :=
  match r with
  | Ok a => k a
  | Throw e => Throw e
  | Unsupported => Unsupported
  end.

(** ** Values and the heap *)

Abbreviation loc := nat.

Section Language.
Context {NT : NumberType} {JS : JSNumber}.

Inductive value :=
  | VUndefined
  | VNull
  | VBool (b : bool)
  | VNumber (n : number)
  | VString (s : string)
  | VRef (l : loc).

Inductive cell :=
  | Obj (props : list (string * value))
  | Arr (elems : list value).

(** The heap: cell [l] is the object or array that [VRef l] refers to. *)
Abbreviation heap := (list cell).

(** *** Own properties of a plain object *)

Fixpoint lookup_prop (props : list (string * value)) (p : string) : option value :=
  match props with
  | [] => None
  | (k, v) :: rest => if String.eqb k p then Some v else lookup_prop rest p
  end.

Definition get_prop (props : list (string * value)) (p : string) : value :=
  default VUndefined (lookup_prop props p).

(** [o[p] = v]: an existing key keeps its place, a new one goes last. *)
Fixpoint set_prop (props : list (string * value)) (p : string) (v : value)
  : list (string * value) :=
  match props with
  | [] => [(p, v)]
  | (k, w) :: rest =>
      if String.eqb k p then (k, v) :: rest else (k, w) :: set_prop rest p v
  end.

Definition delete_prop (props : list (string * value)) (p : string)
  : list (string * value) :=
  filter (λ kv, negb (String.eqb kv.1 p)) props.

(** [Object.keys]: the keys that are array indices in ascending numeric
    order, then the other keys in insertion order. *)
Definition own_keys (props : list (string * value)) : list string :=
  merge_sort index_le (filter (λ k, is_Some (array_index k)) props.*1)
  ++ filter (λ k, array_index k = None) props.*1.

(** *** Conversions and operators *)

Definition ToBoolean (v : value) : bool :=
  match v with
  | VUndefined | VNull => false
  | VBool b => b
  | VNumber n => num_ToBoolean n
  | VString s => negb (String.eqb s EmptyString)
  | VRef _ => true
  end.

Definition typeof (v : value) : string :=
  match v with
  | VUndefined => "undefined"
  | VNull | VRef _ => "object"
  | VBool _ => "boolean"
  | VNumber _ => "number"
  | VString _ => "string"
  end.

(** [a === b] *)
Definition strict_equals (a b : value) : bool :=
  match a, b with
  | VUndefined, VUndefined | VNull, VNull => true
  | VBool x, VBool y => Bool.eqb x y
  | VNumber x, VNumber y => num_strict_eq x y
  | VString x, VString y => String.eqb x y
  | VRef x, VRef y => Nat.eqb x y
  | _, _ => false
  end.

(** [v != undefined] *)
Definition not_nullish (v : value) : bool :=
  match v with
  | VUndefined | VNull => false
  | _ => true
  end.

(** [OrdinaryToPrimitive] of a plain object.  No value of the model is a
    function, so an own property [toString] hides
    [Object.prototype.toString] without being callable, the inherited
    [valueOf] returns the object itself, and the conversion throws a
    [TypeError]; without it the answer is ["[object Object]"] (an own
    [valueOf], not callable either, is skipped). *)
Definition object_to_string (props : list (string * value)) : result string :=
  match lookup_prop props "toString" with
  | Some _ => Throw TypeError
  | None => Ok "[object Object]"
  end.

(** [Array.prototype.toString], that is [join(",")], with the engine's
    guard against arrays that contain themselves.  The elements are
    converted from left to right, and the first conversion that throws
    ends the call. *)
Fixpoint array_join (fuel : nat) (h : heap) (stack : list loc) (l : loc)
  : result string :=
  match fuel with
  | O => Ok EmptyString
  | S fuel' =>
      if bool_decide (l ∈ stack) then Ok EmptyString
      else match h !! l with
           | Some (Arr elems) =>
               result_bind
                 ((fix items (xs : list value) : result (list string) :=
                     match xs with
                     | [] => Ok []
                     | x :: rest =>
                         result_bind
                           (match x with
                            | VUndefined | VNull => Ok EmptyString
                            | VBool true => Ok "true"
                            | VBool false => Ok "false"
                            | VNumber n => Ok (num_ToString n)
                            | VString s => Ok s
                            | VRef l' =>
                                match h !! l' with
                                | Some (Arr _) => array_join fuel' h (l :: stack) l'
                                | Some (Obj props) => object_to_string props
                                | None => Unsupported
                                end
                            end)
                           (λ str, result_bind (items rest)
                                     (λ strs, Ok (str :: strs)))
                     end) elems)
                 (λ strs, Ok (String.concat "," strs))
           | _ => Unsupported
           end
  end.

(** [ToPrimitive]: a plain object answers ["[object Object]"] or throws,
    an array answers its [join]. *)
Definition ToPrimitive (h : heap) (v : value) : result value :=
  match v with
  | VRef l =>
      match h !! l with
      | Some (Arr _) =>
          result_bind (array_join (S (length h)) h [] l) (λ str, Ok (VString str))
      | Some (Obj props) =>
          result_bind (object_to_string props) (λ str, Ok (VString str))
      | None => Unsupported
      end
  | _ => Ok v
  end.

(** [ToString] and [ToNumber] of a primitive. *)
Definition ToString (v : value) : string :=
  match v with
  | VUndefined => "undefined"
  | VNull => "null"
  | VBool true => "true"
  | VBool false => "false"
  | VNumber n => num_ToString n
  | VString s => s
  | VRef _ => "[object Object]"
  end.

Definition ToNumber (v : value) : number :=
  match v with
  | VUndefined => NaN
  | VNull => num_of_N 0
  | VBool true => num_of_N 1
  | VBool false => num_of_N 0
  | VNumber n => n
  | VString s => StringToNumber s
  | VRef _ => NaN
  end.

Definition is_string (v : value) : bool :=
  match v with VString _ => true | _ => false end.

(** [a + b] *)
Definition js_plus (h : heap) (a b : value) : result value :=
  result_bind (ToPrimitive h a) (λ pa,
  result_bind (ToPrimitive h b) (λ pb,
  Ok (if is_string pa || is_string pb
      then VString (ToString pa +:+ ToString pb)
      else VNumber (num_plus (ToNumber pa) (ToNumber pb))))).

(** [a - b] *)
Definition js_minus (h : heap) (a b : value) : result value :=
  result_bind (ToPrimitive h a) (λ pa,
  result_bind (ToPrimitive h b) (λ pb,
  Ok (VNumber (num_minus (ToNumber pa) (ToNumber pb))))).

End Language.

Abbreviation heap := (list cell).

(** ** The heap, the file system and [this] *)

Section Store.
Context {NT : NumberType} {JS : JSNumber}.

(** The syntax tree of a JSON text. *)
Inductive json :=
  | JNull
  | JBool (b : bool)
  | JNumber (n : number)
  | JString (s : string)
  | JArray (items : list json)
  | JObject (members : list (string * json)).

(** What a file holds: a JSON text, or bytes that are not one. *)
Inductive contents :=
  | JSONText (j : json)
  | Malformed.

Record BackupsOptions := {
  enabled : bool;
  interval : option number;
  path : option string;
}.

Record DatabaseOptions := {
  backups : option BackupsOptions;
}.

(** What exists outside the instance: the heap of the process, the files
    and directories of the file system, the intervals given to
    [setInterval]. *)
Record world := {
  heap_of : heap;
  files : gmap string contents;
  dirs : gset string;
  timers : list number;
}.

(** The world together with the fields of [this]. *)
Record state := {
  env : world;
  jsonFilePath : string;
  options : DatabaseOptions;
  data : value;
}.

Definition M (A : Type) : Type := state → result A * state.

Definition ret {A} (a : A) : M A := λ s, (Ok a, s).
Definition bind {A B} (m : M A) (k : A → M B) : M B :=
  λ s, match m s with
       | (Ok a, s') => k a s'
       | (Throw e, s') => (Throw e, s')
       | (Unsupported, s') => (Unsupported, s')
       end.
Definition throw {A} (e : exn) : M A := λ s, (Throw e, s).
Definition lift {A} (r : result A) : M A := λ s, (r, s).

Definition get_heap : M heap := λ s, (Ok (heap_of (env s)), s).
Definition put_heap (h : heap) : M unit := λ s,
  (Ok (),
   {| env := {| heap_of := h; files := files (env s);
                dirs := dirs (env s); timers := timers (env s) |};
      jsonFilePath := jsonFilePath s; options := options s; data := data s |}).
Definition this_data : M value := λ s, (Ok (data s), s).
Definition set_this_data (v : value) : M unit := λ s,
  (Ok (),
   {| env := env s; jsonFilePath := jsonFilePath s; options := options s;
      data := v |}).

Definition with_files (w : world) (fs : gmap string contents) : world :=
  {| heap_of := heap_of w; files := fs; dirs := dirs w; timers := timers w |}.
Definition with_dirs (w : world) (ds : gset string) : world :=
  {| heap_of := heap_of w; files := files w; dirs := ds; timers := timers w |}.
Definition with_heap (w : world) (h : heap) : world :=
  {| heap_of := h; files := files w; dirs := dirs w; timers := timers w |}.
Definition with_timers (w : world) (ts : list number) : world :=
  {| heap_of := heap_of w; files := files w; dirs := dirs w; timers := ts |}.
Definition with_env (s : state) (w : world) : state :=
  {| env := w; jsonFilePath := jsonFilePath s; options := options s;
     data := data s |}.

End Store.

Notation "'let*' x := c 'in' k" := (bind c (λ x, k))
  (at level 10, x name, c at level 100, k at level 200,
   format "'[' 'let*'  x  :=  c  'in' ']' '/' k").
Notation "c ;;; k" := (bind c (λ _, k))
  (at level 100, k at level 200, right associativity).

Section Operations.
Context {NT : NumberType} {JS : JSNumber}.

(** *** Property access *)

Definition char_at (s : string) (i : nat) : value :=
  match String.get i s with
  | Some c => VString (String c EmptyString)
  | None => VUndefined
  end.

(** [object[p]] as an expression, for a property that [object] owns or
    that no prototype defines: besides the elements and [length] of
    arrays and strings, a name that is not an own property reads as
    [undefined]. *)
Definition GetV (h : heap) (object : value) (p : string) : result value :=
  match object with
  | VUndefined | VNull => Throw TypeError
  | VBool _ | VNumber _ => Ok VUndefined
  | VString s =>
      if String.eqb p "length" then Ok (VNumber (num_of_N (N.of_nat (String.length s))))
      else match array_index p with
           | Some i => Ok (char_at s (N.to_nat i))
           | None => Ok VUndefined
           end
  | VRef l =>
      match h !! l with
      | Some (Obj props) => Ok (get_prop props p)
      | Some (Arr elems) =>
          if String.eqb p "length" then Ok (VNumber (num_of_N (N.of_nat (length elems))))
          else match array_index p with
               | Some i => Ok (default VUndefined (elems !! N.to_nat i))
               | None => Ok VUndefined
               end
      | None => Unsupported
      end
  end.

(** [object[p] = v].  On a primitive the assignment is dropped in sloppy
    code and throws in strict code (the class body is strict, the two
    helpers at the top of the file are not).  On a plain object that does
    not own it, [__proto__] is the accessor of [Object.prototype]: the
    assignment makes no own property and may replace the prototype, which
    the model does not follow. *)
Definition SetV (strict : bool) (h : heap) (object : value) (p : string) (v : value)
  : result heap :=
  match object with
  | VUndefined | VNull => Throw TypeError
  | VBool _ | VNumber _ | VString _ => if strict then Throw TypeError else Ok h
  | VRef l =>
      match h !! l with
      | Some (Obj props) =>
          if String.eqb p "__proto__" && bool_decide (lookup_prop props p = None)
          then Unsupported
          else Ok (<[l := Obj (set_prop props p v)]> h)
      | Some (Arr elems) =>
          match array_index p with
          | Some i =>
              if (N.to_nat i <? length elems)%nat
              then Ok (<[l := Arr (<[N.to_nat i := v]> elems)]> h)
              else if (N.to_nat i =? length elems)%nat
              then Ok (<[l := Arr (elems ++ [v])]> h)
              else Unsupported
          | None => Unsupported
          end
      | None => Unsupported
      end
  end.

(** No value of the model is a function: calling one throws. *)
Definition Call {A} (f : value) : M A := throw TypeError.

(** *** The two helpers *)

(** The loop and the final assignment of [setNestedProperty], on the
    segments still to visit. *)
Fixpoint set_loop (h : heap) (object : value) (properties : list string) (v : value)
  : result heap :=
  match properties with
  | [] => SetV false h object "undefined" v
  | [p] => SetV false h object p v
  | p :: rest =>
      match GetV h object p with
      | Ok object' => set_loop h object' rest v
      | Throw e => Throw e
      | Unsupported => Unsupported
      end
  end.

Definition setNestedProperty (object : value) (key : string) (v : value) : M unit :=
  let properties := split "." key in
  let* h := get_heap in
  let* h' := lift (set_loop h object properties v) in
  put_heap h'.

Fixpoint get_loop (h : heap) (object : value) (properties : list string)
  : result value :=
  match properties with
  | [] => Ok object
  | p :: rest =>
      if ToBoolean object then
        match GetV h object p with
        | Ok object' => get_loop h object' rest
        | Throw e => Throw e
        | Unsupported => Unsupported
        end
      else get_loop h object rest
  end.

Definition getNestedProperty (object : value) (key : string) : M value :=
  let properties := split "." key in
  let* h := get_heap in
  lift (get_loop h object properties).

(** *** Vocabulary for statements about paths *)

(** The value reached from [object] by reading the segments in turn. *)
Fixpoint walk (h : heap) (object : value) (properties : list string)
  : result value :=
  match properties with
  | [] => Ok object
  | p :: rest =>
      match GetV h object p with
      | Ok object' => walk h object' rest
      | Throw e => Throw e
      | Unsupported => Unsupported
      end
  end.

(** The mappings a path goes through: [object] for its first segment, then
    the value of every segment but the last.  [None] when one of them is
    not an existing mapping. *)
Fixpoint mappings_along (h : heap) (object : value) (properties : list string)
  : option (list loc) :=
  match properties with
  | [] => Some []
  | p :: rest =>
      match object with
      | VRef l =>
          match h !! l with
          | Some (Obj props) =>
              match mappings_along h (get_prop props p) rest with
              | Some ls => Some (l :: ls)
              | None => None
              end
          | _ => None
          end
      | _ => None
      end
  end.

End Operations.

(** ** [JSON.stringify] and [JSON.parse] *)

Section JSON.
Context {NT : NumberType} {JS : JSNumber}.

Fixpoint serialize_members (f : value → option (option json))
    (props : list (string * value)) (keys : list string)
  : option (list (string * json)) :=
  match keys with
  | [] => Some []
  | k :: rest =>
      match f (get_prop props k) with
      | None => None
      | Some None => serialize_members f props rest
      | Some (Some j) =>
          match serialize_members f props rest with
          | Some ms => Some ((k, j) :: ms)
          | None => None
          end
      end
  end.

Fixpoint serialize_items (f : value → option (option json)) (elems : list value)
  : option (list json) :=
  match elems with
  | [] => Some []
  | x :: rest =>
      match f x, serialize_items f rest with
      | Some o, Some js => Some (default JNull o :: js)
      | _, _ => None
      end
  end.

(** [SerializeJSONProperty]: [None] when it throws (an object met again
    below itself), [Some None] for [undefined].  A property whose value is
    [undefined] is left out of an object and printed [null] in an array; a
    number that is not finite is printed [null], and both zeros are printed
    [0] (the finite numbers that are falsy are [+0] and [-0]). *)
Fixpoint SerializeJSONProperty (fuel : nat) (h : heap) (stack : list loc) (v : value)
  : option (option json) :=
  match v with
  | VUndefined => Some None
  | VNull => Some (Some JNull)
  | VBool b => Some (Some (JBool b))
  | VNumber n =>
      Some (Some (if num_is_finite n
                  then JNumber (if num_ToBoolean n then n else num_of_N 0)
                  else JNull))
  | VString s => Some (Some (JString s))
  | VRef l =>
      match fuel with
      | O => None
      | S fuel' =>
          if bool_decide (l ∈ stack) then None
          else match h !! l with
               | Some (Obj props) =>
                   match serialize_members
                           (SerializeJSONProperty fuel' h (l :: stack))
                           props (own_keys props) with
                   | Some ms => Some (Some (JObject ms))
                   | None => None
                   end
               | Some (Arr elems) =>
                   match serialize_items
                           (SerializeJSONProperty fuel' h (l :: stack)) elems with
                   | Some js => Some (Some (JArray js))
                   | None => None
                   end
               | None => None
               end
      end
  end.

(** The nesting of a value that is not circular is at most the number of
    cells, so this fuel is never what stops the walk. *)
Definition JSON_stringify (h : heap) (v : value) : option (option json) :=
  SerializeJSONProperty (S (length h)) h [] v.

(** [JSON.parse] of a well-formed text: every object and array of the text
    is a new cell. *)
Fixpoint revive (j : json) (h : heap) : value * heap :=
  match j with
  | JNull => (VNull, h)
  | JBool b => (VBool b, h)
  | JNumber n => (VNumber n, h)
  | JString s => (VString s, h)
  | JArray items =>
      let '(elems, h1) :=
        (fix go (items : list json) (h : heap) : list value * heap :=
           match items with
           | [] => ([], h)
           | x :: rest =>
               let '(v, h1) := revive x h in
               let '(vs, h2) := go rest h1 in
               (v :: vs, h2)
           end) items h in
      (VRef (length h1), h1 ++ [Arr elems])
  | JObject members =>
      let '(props, h1) :=
        (fix go (members : list (string * json)) (props : list (string * value))
             (h : heap) : list (string * value) * heap :=
           match members with
           | [] => (props, h)
           | (k, x) :: rest =>
               let '(v, h1) := revive x h in
               go rest (set_prop props k v) h1
           end) members [] h in
      (VRef (length h1), h1 ++ [Obj props])
  end.

Definition JSON_parse (c : contents) : M value :=
  match c with
  | Malformed => throw SyntaxError
  | JSONText j =>
      let* h := get_heap in
      let '(v, h') := revive j h in
      put_heap h' ;;; ret v
  end.

End JSON.

(** ** The [fs] module *)

Section FS.
Context {NT : NumberType} {JS : JSNumber}.

(** The file system is a flat map: a path is looked up as it is spelled,
    and the directory that is to hold a new file or directory is taken
    to exist, as it does for a path the store was constructed on. *)

Definition existsSync (p : string) : M bool := λ s,
  (Ok (bool_decide (is_Some (files (env s) !! p))
       || bool_decide (p ∈ dirs (env s))), s).

Definition mkdirSync (p : string) : M unit := λ s,
  (Ok (), with_env s (with_dirs (env s) ({[p]} ∪ dirs (env s)))).

Definition readFileSync (p : string) : M contents := λ s,
  match files (env s) !! p with
  | Some c => (Ok c, s)
  | None => (Throw SystemError, s)
  end.

(** [fs.writeFileSync(p, text)]; [text] is [None] when the argument is
    [undefined], which Node rejects. *)
Definition writeFileSync (p : string) (text : option json) : M unit := λ s,
  match text with
  | None => (Throw TypeError, s)
  | Some j =>
      if bool_decide (p ∈ dirs (env s)) then (Throw SystemError, s)
      else (Ok (), with_env s (with_files (env s) (<[p := JSONText j]> (files (env s)))))
  end.

Definition setInterval (ms : number) : M unit := λ s,
  (Ok (), with_env s (with_timers (env s) (timers (env s) ++ [ms]))).

End FS.

(** ** Array and string methods the class calls *)

Section Builtins.
Context {NT : NumberType} {JS : JSNumber}.

Definition alloc (c : cell) : M value :=
  let* h := get_heap in
  put_heap (h ++ [c]) ;;; ret (VRef (length h)).

(** First position holding an element [=== element]; [None] is [-1]. *)
Fixpoint index_of (element : value) (elems : list value) : option nat :=
  match elems with
  | [] => None
  | x :: rest =>
      if strict_equals x element then Some O
      else S <$> index_of element rest
  end.

(** [recv.push(element)] *)
Definition method_push (recv : value) (element : value) : M unit :=
  let* h := get_heap in
  match recv with
  | VRef l =>
      match h !! l with
      | Some (Arr elems) => put_heap (<[l := Arr (elems ++ [element])]> h)
      | _ => let* f := lift (GetV h recv "push") in Call f
      end
  | _ => let* f := lift (GetV h recv "push") in Call f
  end.

(** [recv.indexOf(element)]: arrays compare with [===], strings search
    for the text of the argument. *)
Definition method_indexOf (recv : value) (element : value) : M (option nat) :=
  let* h := get_heap in
  match recv with
  | VRef l =>
      match h !! l with
      | Some (Arr elems) => ret (index_of element elems)
      | _ => let* f := lift (GetV h recv "indexOf") in Call f
      end
  | VString s =>
      let* p := lift (ToPrimitive h element) in
      ret (String.index 0 (ToString p) s)
  | _ => let* f := lift (GetV h recv "indexOf") in Call f
  end.

(** [recv.splice(i, 1)] *)
Definition method_splice (recv : value) (i : nat) : M unit :=
  let* h := get_heap in
  match recv with
  | VRef l =>
      match h !! l with
      | Some (Arr elems) => put_heap (<[l := Arr (delete i elems)]> h)
      | _ => let* f := lift (GetV h recv "splice") in Call f
      end
  | _ => let* f := lift (GetV h recv "splice") in Call f
  end.

(** [Object.keys(v)] *)
Definition Object_keys (h : heap) (v : value) : result (list string) :=
  match v with
  | VUndefined | VNull => Throw TypeError
  | VBool _ | VNumber _ => Ok []
  | VString s => Ok ((λ i, index_key (N.of_nat i)) <$> seq 0 (String.length s))
  | VRef l =>
      match h !! l with
      | Some (Obj props) => Ok (own_keys props)
      | Some (Arr elems) => Ok ((λ i, index_key (N.of_nat i)) <$> seq 0 (length elems))
      | None => Unsupported
      end
  end.

Fixpoint map_M {A B} (f : A → M B) (xs : list A) : M (list B) :=
  match xs with
  | [] => ret []
  | x :: rest =>
      let* y := f x in
      let* ys := map_M f rest in
      ret (y :: ys)
  end.

Definition dquote : string := String (ascii_of_nat 34) EmptyString.

End Builtins.

(** The records returned by [all()]. *)
Module Entry.
Section Entry.
Context {NT : NumberType} {JS : JSNumber}.
Record t := { key : string; data : value }.
End Entry.
End Entry.

(** ** The class *)

Module MyJsonDatabase.
Section Methods.
Context {NT : NumberType} {JS : JSNumber}.

(** [this.data[key]] read and assigned inside the (strict) class body. *)
Definition read_data (key : string) : M value :=
  let* d := this_data in
  let* h := get_heap in
  lift (GetV h d key).

Definition assign_data (key : string) (v : value) : M unit :=
  let* d := this_data in
  let* h := get_heap in
  let* h' := lift (SetV true h d key v) in
  put_heap h'.

Definition save : M unit :=
  let* d := this_data in
  let* h := get_heap in
  match JSON_stringify h d with
  | Some text => λ s, writeFileSync (jsonFilePath s) text s
  | None => throw TypeError
  end.

(** [q || './backups/'] *)
Definition or_backups (q : option string) : string :=
  match q with
  | Some q => if String.eqb q EmptyString then "./backups/" else q
  | None => "./backups/"
  end.

(** [this.options.backups.path || './backups/'] *)
Definition configured_path : M string := λ s,
  match backups (options s) with
  | None => (Throw TypeError, s)
  | Some b => (Ok (or_backups (path b)), s)
  end.

Definition fetchDataFromFile : M unit :=
  let* c := (λ s, readFileSync (jsonFilePath s) s) in
  let* savedData := JSON_parse c in
  if String.eqb (typeof savedData) "object" then set_this_data savedData
  else ret ().

Definition makeSnapshot (now : number) (path : option string) : M unit :=
  let* path :=
    (match path with
     | Some p => if negb (String.eqb p EmptyString) then ret p
                 else configured_path
     | None => configured_path
     end) in
  let* ex := existsSync path in
  (if negb ex then mkdirSync path else ret ()) ;;;
  let fileName := "backup-" +:+ num_ToString now +:+ ".json" in
  let* h := get_heap in
  let* join := lift (GetV h (VString path) "join") in
  let* target := Call (A := string) join in
  writeFileSync target None.

(** The callback given to [setInterval]: [() => { this.makeSnapshot(); }] *)
Definition interval_callback (now : number) : M unit :=
  makeSnapshot now None.

Definition constructor (filePath : option string) (opts : option DatabaseOptions)
    (w : world) : result unit * state :=
  let jsonFilePath_ :=
    match filePath with
    | Some p => if String.eqb p EmptyString then "./my-database.json" else p
    | None => "./my-database.json"
    end in
  let options_ := default {| backups := None |} opts in
  ((match backups options_ with
    | Some b =>
        if enabled b then
          let path := or_backups (path b) in
          let* ex := existsSync path in
          (if negb ex then mkdirSync path else ret ()) ;;;
          setInterval (match interval b with
                       | Some ms => if num_ToBoolean ms then ms
                                    else num_of_N 86400000
                       | None => num_of_N 86400000
                       end)
        else ret ()
    | None => ret ()
    end) ;;;
   let* o := alloc (Obj []) in
   set_this_data o ;;;
   let* ex := existsSync jsonFilePath_ in
   if negb ex then writeFileSync jsonFilePath_ (Some (JObject []))
   else fetchDataFromFile)
  {| env := w; jsonFilePath := jsonFilePath_; options := options_;
     data := VUndefined |}.

Definition get (key : string) : M value :=
  let* d := this_data in
  getNestedProperty d key.

Definition has (key : string) : M bool :=
  let* d := this_data in
  let* v := getNestedProperty d key in
  ret (not_nullish v).

Definition set (key : string) (v : value) : M unit :=
  let* d := this_data in
  setNestedProperty d key v ;;;
  save.

(** [delete this.data[key]] in strict code. *)
Definition delete_property (key : string) : M unit :=
  let* d := this_data in
  let* h := get_heap in
  match d with
  | VUndefined | VNull => throw TypeError
  | VBool _ | VNumber _ => ret ()
  | VString s =>
      if String.eqb key "length" then throw TypeError
      else match array_index key with
           | Some i => if (N.to_nat i <? String.length s)%nat
                       then throw TypeError else ret ()
           | None => ret ()
           end
  | VRef l =>
      match h !! l with
      | Some (Obj props) => put_heap (<[l := Obj (delete_prop props key)]> h)
      | Some (Arr elems) =>
          if String.eqb key "length" then throw TypeError
          else match array_index key with
               | Some i => if (N.to_nat i <? length elems)%nat
                           then lift Unsupported else ret ()
               | None => ret ()
               end
      | None => lift Unsupported
      end
  end.

Definition delete (key : string) : M unit :=
  delete_property key ;;;
  save.

Definition add (key : string) (count : value) : M unit :=
  let* cur := read_data key in
  (if negb (ToBoolean cur) then assign_data key (VNumber (num_of_N 0))
   else ret ()) ;;;
  let* old := read_data key in
  let* h := get_heap in
  let* sum := lift (js_plus h old count) in
  assign_data key sum ;;;
  save.

Definition subtract (key : string) (count : value) : M unit :=
  let* cur := read_data key in
  (if negb (ToBoolean cur) then assign_data key (VNumber (num_of_N 0))
   else ret ()) ;;;
  let* old := read_data key in
  let* h := get_heap in
  let* difference := lift (js_minus h old count) in
  assign_data key difference ;;;
  save.

Definition push (key : string) (element : value) : M unit :=
  let* cur := read_data key in
  (if negb (ToBoolean cur)
   then let* a := alloc (Arr []) in assign_data key a
   else ret ()) ;;;
  let* recv := read_data key in
  method_push recv element ;;;
  save.

Definition pullOne (key : string) (element : value) : M unit :=
  let* cur := read_data key in
  (if negb (ToBoolean cur)
   then let* a := alloc (Arr []) in assign_data key a
   else ret ()) ;;;
  let* recv := read_data key in
  let* index := method_indexOf recv element in
  (match index with
   | Some i => let* recv' := read_data key in method_splice recv' i
   | None => ret ()
   end) ;;;
  save.

(** The [while] loop of [pullMany] on an array at [l]; each [splice] is a
    write to the cell.  An iteration either removes an element or advances
    [i], so [length value] iterations are enough. *)
Fixpoint pullMany_loop (fuel : nat) (h : heap) (l : loc) (element : value) (i : nat)
  : result heap :=
  match h !! l with
  | Some (Arr value) =>
      if (i <? length value)%nat then
        match fuel with
        | O => Unsupported
        | S fuel' =>
            if strict_equals (default VUndefined (value !! i)) element
            then pullMany_loop fuel' (<[l := Arr (base.delete i value)]> h) l element i
            else pullMany_loop fuel' h l element (S i)
        end
      else Ok h
  | _ => Unsupported
  end.

(** The loop for every kind of [value]: on a string [value.splice] is not
    a function, on numbers and booleans [value.length] is [undefined] and
    the loop does not run. *)
Definition pullMany_while (element : value) (value : value) : M unit :=
  let* h := get_heap in
  match value with
  | VUndefined | VNull => throw TypeError
  | VBool _ | VNumber _ => ret ()
  | VString s =>
      if existsb (λ c, strict_equals (VString (String c EmptyString)) element)
           (list_ascii_of_string s)
      then Call VUndefined else ret ()
  | VRef l =>
      match h !! l with
      | Some (Arr elems) =>
          let* h' := lift (pullMany_loop (length elems) h l element 0) in
          put_heap h'
      | Some (Obj props) =>
          match get_prop props "length" with
          | VUndefined => ret ()
          | _ => lift Unsupported
          end
      | None => lift Unsupported
      end
  end.

Definition pullMany (key : string) (element : value) : M unit :=
  let* cur := read_data key in
  (if negb (ToBoolean cur)
   then let* a := alloc (Arr []) in assign_data key a
   else ret ()) ;;;
  let* value := read_data key in
  pullMany_while element value ;;;
  save.

Definition clear (key : string) : M unit :=
  let* cur := read_data key in
  (if negb (ToBoolean cur)
   then throw (Error ("there is no key " +:+ dquote +:+ key +:+ dquote
                      +:+ ", in your database"))
   else ret ()) ;;;
  let* o := alloc (Obj []) in
  assign_data key o ;;;
  save.

Definition clearAll : M unit :=
  let* o := alloc (Obj []) in
  set_this_data o ;;;
  save.

Definition all : M (list Entry.t) :=
  let* d := this_data in
  let* h := get_heap in
  let* keys := lift (Object_keys h d) in
  map_M (λ key, let* v := read_data key in
                ret {| Entry.key := key; Entry.data := v |}) keys.

End Methods.
End MyJsonDatabase.

(** ** Vocabulary for the statements *)

Section Vocabulary.
Context {NT : NumberType} {JS : JSNumber}.

(** The mutating operations of the public surface. *)
Inductive mutation :=
  | Set_ (key : string) (v : value)
  | Delete (key : string)
  | Add (key : string) (count : value)
  | Subtract (key : string) (count : value)
  | Push (key : string) (element : value)
  | PullOne (key : string) (element : value)
  | PullMany (key : string) (element : value)
  | Clear (key : string)
  | ClearAll.

Definition perform (m : mutation) : M unit :=
  match m with
  | Set_ key v => MyJsonDatabase.set key v
  | Delete key => MyJsonDatabase.delete key
  | Add key count => MyJsonDatabase.add key count
  | Subtract key count => MyJsonDatabase.subtract key count
  | Push key element => MyJsonDatabase.push key element
  | PullOne key element => MyJsonDatabase.pullOne key element
  | PullMany key element => MyJsonDatabase.pullMany key element
  | Clear key => MyJsonDatabase.clear key
  | ClearAll => MyJsonDatabase.clearAll
  end.

(** The state reached from [s] by running [m], whatever it returns. *)
Definition after {A} (m : M A) (s : state) : state := (m s).2.

(** [v] is a mapping of the heap [h]. *)
Definition is_mapping (h : heap) (v : value) : Prop :=
  ∃ l props, v = VRef l ∧ h !! l = Some (Obj props).

(** The state [s] with the heap replaced. *)
Definition with_heap_of (s : state) (h : heap) : state :=
  with_env s (with_heap (env s) h).

(** A sequence without the first element [=== element]. *)
Fixpoint remove_first (element : value) (elems : list value) : list value :=
  match elems with
  | [] => []
  | x :: rest =>
      if strict_equals x element then rest
      else x :: remove_first element rest
  end.

(** A sequence without any element [=== element]. *)
Fixpoint remove_all (element : value) (elems : list value) : list value :=
  match elems with
  | [] => []
  | x :: rest =>
      if strict_equals x element then remove_all element rest
      else x :: remove_all element rest
  end.

Definition is_primitive (v : value) : bool :=
  match v with VRef _ => false | _ => true end.

(** Structural equality of two values, as the specification uses the
    word: equal primitives, or two mappings with the same keys, or two
    sequences of the same length, whose components are structurally
    equal.  [fuel] bounds the depth of the comparison. *)
Fixpoint structurally_equal (fuel : nat) (h : heap) (a b : value) : bool :=
  match a, b with
  | VRef la, VRef lb =>
      match fuel with
      | O => false
      | S fuel' =>
          match h !! la, h !! lb with
          | Some (Obj pa), Some (Obj pb) =>
              forallb (λ kv, match lookup_prop pb kv.1 with
                             | Some w => structurally_equal fuel' h kv.2 w
                             | None => false
                             end) pa
              && forallb (λ kv, bool_decide (is_Some (lookup_prop pa kv.1))) pb
          | Some (Arr xa), Some (Arr xb) =>
              (length xa =? length xb)%nat
              && forallb (λ xy, structurally_equal fuel' h xy.1 xy.2) (zip xa xb)
          | _, _ => false
          end
      end
  | VRef _, _ | _, VRef _ => false
  | VUndefined, VUndefined | VNull, VNull => true
  | VBool x, VBool y => Bool.eqb x y
  | VNumber x, VNumber y => num_strict_eq x y
  | VString x, VString y => String.eqb x y
  | _, _ => false
  end.

(** The values a cell holds. *)
Definition values_of (c : cell) : list value :=
  match c with
  | Obj props => props.*2
  | Arr elems => elems
  end.

(** A value that does not point outside the heap, and a heap whose cells
    hold only such values. *)
Definition closed_value (h : heap) (v : value) : Prop :=
  match v with
  | VRef l => is_Some (h !! l)
  | _ => True
  end.

Definition closed_heap (h : heap) : Prop :=
  ∀ l c, h !! l = Some c → Forall (closed_value h) (values_of c).

(** What no data operation is meant to touch: the directories, the timers
    and the configuration of the instance. *)
Definition same_outside (s s' : state) : Prop :=
  dirs (env s') = dirs (env s)
  ∧ timers (env s') = timers (env s)
  ∧ jsonFilePath s' = jsonFilePath s
  ∧ options s' = options s.

(** A computation that leaves the files and everything else outside the
    heap and the Document as they are, whatever it returns. *)
Definition keeps_files {A} (m : M A) : Prop :=
  ∀ s, files (env (after m s)) = files (env s) ∧ same_outside s (after m s).

(** A computation that writes no file but the backing file, and not even
    that one unless it returns normally. *)
Definition writes_only_backing_file {A} (m : M A) : Prop :=
  ∀ s, same_outside s (after m s)
       ∧ (∀ p, p ≠ jsonFilePath s →
               files (env (after m s)) !! p = files (env s) !! p)
       ∧ ((∀ a, (m s).1 ≠ Ok a) → files (env (after m s)) = files (env s)).

(** [filePath || "./my-database.json"] *)
Definition path_or_default (filePath : option string) : string :=
  match filePath with
  | Some p => if String.eqb p EmptyString then "./my-database.json" else p
  | None => "./my-database.json"
  end.

(** [this.options.backups && this.options.backups.enabled] for the
    options given to the constructor. *)
Definition backups_enabled (opts : option DatabaseOptions) : option BackupsOptions :=
  match opts with
  | Some o => match backups o with
              | Some b => if enabled b then Some b else None
              | None => None
              end
  | None => None
  end.

(** [interval || 86400000] *)
Definition interval_or_default (ms : option number) : number :=
  match ms with
  | Some ms => if num_ToBoolean ms then ms else num_of_N 86400000
  | None => num_of_N 86400000
  end.

(** A computation that leaves the directories, the timers and the
    configuration as they are, whatever it returns. *)
Definition keeps_outside {A} (m : M A) : Prop :=
  ∀ s, same_outside s (after m s).

(** [c'] holds nothing but primitives and values that [c] holds, under
    the same key for a mapping. *)
Definition refines_cell (c' c : cell) : Prop :=
  match c', c with
  | Obj props', Obj props =>
      ∀ k v, lookup_prop props' k = Some v →
             is_primitive v = true ∨ lookup_prop props k = Some v
  | Arr elems', Arr elems =>
      ∀ v, v ∈ elems' → is_primitive v = true ∨ v ∈ elems
  | _, _ => False
  end.

(** The order [Object.keys] gives to a list of distinct keys. *)
Definition order_keys (keys : list string) : list string :=
  merge_sort index_le (filter (λ k, is_Some (array_index k)) keys)
  ++ filter (λ k, array_index k = None) keys.

(** A JSON text as [JSON.stringify] writes them: every number finite and
    not [-0] (a finite number is truthy or one of the two zeros), and in
    every object the keys distinct and in the order of [Object.keys]. *)
Inductive canonical : json → Prop :=
  | canonical_null : canonical JNull
  | canonical_bool b : canonical (JBool b)
  | canonical_number n :
      num_is_finite n = true →
      num_ToBoolean n = true ∨ n = num_of_N 0 →
      canonical (JNumber n)
  | canonical_string s : canonical (JString s)
  | canonical_array items :
      Forall canonical items → canonical (JArray items)
  | canonical_object members :
      order_keys members.*1 = members.*1 →
      NoDup members.*1 →
      Forall (λ m, canonical m.2) members →
      canonical (JObject members).

(** A heap whose mappings have no key twice, as every heap made by the
    operations has. *)
Definition distinct_keys (h : heap) : Prop :=
  ∀ l props, h !! l = Some (Obj props) → NoDup props.*1.

(** The two loops of [revive], on the elements of an array and on the
    members of an object. *)
Fixpoint revive_items (items : list json) (h : heap) : list value * heap :=
  match items with
  | [] => ([], h)
  | x :: rest =>
      let '(v, h1) := revive x h in
      let '(vs, h2) := revive_items rest h1 in
      (v :: vs, h2)
  end.

Fixpoint revive_members (members : list (string * json))
    (props : list (string * value)) (h : heap) : list (string * value) * heap :=
  match members with
  | [] => (props, h)
  | (k, x) :: rest =>
      let '(v, h1) := revive x h in
      revive_members rest (set_prop props k v) h1
  end.

(** [JSON.parse] of [j] adds cells at the end of the heap, and the value
    it returns serializes back to [j]: in the new heap and in any longer
    one, with enough fuel for the new cells, below any stack of objects
    that are not among them. *)
Definition revives_to (j : json) : Prop :=
  ∀ h, ∃ v ext,
    revive j h = (v, h ++ ext)
    ∧ ∀ more fuel stack,
        (length ext ≤ fuel)%nat →
        Forall (λ l, l < length h ∨ length h + length ext ≤ l)%nat stack →
        SerializeJSONProperty fuel (h ++ ext ++ more) stack v = Some (Some j).

(** *** The scope of the model

    The model reads and writes _own_ properties.  In the program a name
    that an object does not own is looked up on its prototype, so the
    properties below are stated for keys that do not meet the built-in
    prototypes. *)

(** The property names of [Object.prototype] (ECMAScript, with the legacy
    names of Annex B that Node defines): what a plain object inherits. *)
Definition Object_prototype_names : list string :=
  ["constructor"; "hasOwnProperty"; "isPrototypeOf"; "propertyIsEnumerable";
   "toLocaleString"; "toString"; "valueOf"; "__proto__";
   "__defineGetter__"; "__defineSetter__"; "__lookupGetter__";
   "__lookupSetter__"].

(** [p] names a property that every plain object inherits. *)
Definition inherited_name (p : string) : bool :=
  bool_decide (p ∈ Object_prototype_names).

(** The property names of [Array.prototype], [String.prototype] and
    [Number.prototype] ([Boolean.prototype] has only names of
    [Object.prototype]), apart from [length], which arrays and strings
    own. *)
Definition Array_prototype_names : list string :=
  ["at"; "concat"; "copyWithin"; "entries"; "every"; "fill"; "filter"; "find";
   "findIndex"; "findLast"; "findLastIndex"; "flat"; "flatMap"; "forEach";
   "includes"; "indexOf"; "join"; "keys"; "lastIndexOf"; "map"; "pop";
   "push"; "reduce"; "reduceRight"; "reverse"; "shift"; "slice"; "some";
   "sort"; "splice"; "toReversed"; "toSorted"; "toSpliced"; "unshift";
   "values"; "with"].

Definition String_prototype_names : list string :=
  ["anchor"; "at"; "big"; "blink"; "bold"; "charAt"; "charCodeAt";
   "codePointAt"; "concat"; "endsWith"; "fixed"; "fontcolor"; "fontsize";
   "includes"; "indexOf"; "isWellFormed"; "italics"; "lastIndexOf"; "link";
   "localeCompare"; "match"; "matchAll"; "normalize"; "padEnd"; "padStart";
   "repeat"; "replace"; "replaceAll"; "search"; "slice"; "small"; "split";
   "startsWith"; "strike"; "sub"; "substr"; "substring"; "sup";
   "toLocaleLowerCase"; "toLocaleUpperCase"; "toLowerCase"; "toUpperCase";
   "toWellFormed"; "trim"; "trimEnd"; "trimLeft"; "trimRight"; "trimStart"].

Definition Number_prototype_names : list string :=
  ["toExponential"; "toFixed"; "toPrecision"].

(** [p] names a property of one of the built-in prototypes that the values
    of a Document can reach. *)
Definition builtin_name (p : string) : bool :=
  bool_decide (p ∈ Object_prototype_names ++ Array_prototype_names
                   ++ String_prototype_names ++ Number_prototype_names).

(** The file system of the model is flat: a path is a name, and writing a
    file or making a directory needs nothing but the name to be free.  In
    the program the directory that is to hold the entry must exist; it
    does for the two default paths, which name entries of the working
    directory. *)
Definition default_file_path : string := "./my-database.json".
Definition default_backups_path : string := "./backups/".

(** The names a path goes through, without the empty segments and the
    segments [.] that change nothing; two paths with the same names reach
    the same entry. *)
Definition path_segments (p : string) : list string :=
  filter (λ x, x ≠ EmptyString ∧ x ≠ ".") (split "/" p).

(** No file and no directory of [w] is in the way of a new entry at [p],
    under any spelling of [p]. *)
Definition nothing_at (w : world) (p : string) : Prop :=
  ∀ q, path_segments q = path_segments p →
       files w !! q = None ∧ q ∉ dirs w.

(** No file of [w] is in the way of a directory at [p]. *)
Definition no_file_at (w : world) (p : string) : Prop :=
  ∀ q, path_segments q = path_segments p → files w !! q = None.

End Vocabulary.

(** ** A number model to run examples

    The doubles that are integers, and [NaN]: on them the operations below
    are those of IEEE arithmetic as long as the integers stay below [2^53],
    which is all the examples need. *)

Inductive int_double :=
  | Int (z : Z)
  | NotANumber.

Definition int_of_string (s : string) : int_double :=
  match s with
  | EmptyString => Int 0
  | String c rest =>
      if Ascii.eqb c "-"%char then
        match rest with
        | EmptyString => NotANumber
        | _ => match parse_digits 0 rest with
               | Some n => Int (- Z.of_N n)
               | None => NotANumber
               end
        end
      else match parse_digits 0 s with
           | Some n => Int (Z.of_N n)
           | None => NotANumber
           end
  end.

Definition int_plus (a b : int_double) : int_double :=
  match a, b with Int x, Int y => Int (x + y) | _, _ => NotANumber end.

Definition int_minus (a b : int_double) : int_double :=
  match a, b with Int x, Int y => Int (x - y) | _, _ => NotANumber end.

Definition int_strict_eq (a b : int_double) : bool :=
  match a, b with Int x, Int y => Z.eqb x y | _, _ => false end.

Definition int_ToBoolean (a : int_double) : bool :=
  match a with Int x => negb (Z.eqb x 0) | NotANumber => false end.

Definition int_is_finite (a : int_double) : bool :=
  match a with Int _ => true | NotANumber => false end.

Definition int_ToString (a : int_double) : string :=
  match a with Int x => pretty x | NotANumber => "NaN" end.

Definition int_double_type : NumberType := {| number := int_double |}.

Definition int_doubles : @JSNumber int_double_type :=
  @Build_JSNumber int_double_type
    (λ n, Int (Z.of_N n)) NotANumber int_plus int_minus int_strict_eq
    int_ToBoolean int_is_finite int_ToString int_of_string
    eq_refl eq_refl eq_refl.

Section Examples.
#[local] Existing Instances int_double_type int_doubles.

(** An empty process and file system, and the store constructed in it with
    the default arguments. *)
Definition empty_world : world :=
  {| heap_of := []; files := ∅; dirs := ∅; timers := [] |}.

Definition fresh_store : state :=
  (MyJsonDatabase.constructor None None empty_world).2.

(** The objects a caller builds with a literal before passing them. *)
Definition literal (c : cell) : M value := alloc c.

(** [db.set("a", {})] on the new store. *)
Definition store_with_mapping : state :=
  after (let* o := literal (Obj []) in MyJsonDatabase.set "a" o) fresh_store.

(** [db.set("a", 0)] on the new store. *)
Definition store_with_zero : state :=
  after (MyJsonDatabase.set "a" (VNumber (Int 0))) fresh_store.

(** [db.set("a", 1); db.set("b", 2)] *)
Definition store_a_b : state :=
  after (MyJsonDatabase.set "a" (VNumber (Int 1)) ;;;
         MyJsonDatabase.set "b" (VNumber (Int 2))) fresh_store.

(** [db.set("b", 1); db.set("1", 2)] *)
Definition store_b_1 : state :=
  after (MyJsonDatabase.set "b" (VNumber (Int 1)) ;;;
         MyJsonDatabase.set "1" (VNumber (Int 2))) fresh_store.

(** [db.push("list", 1); db.push("list", 1); db.push("list", 2)] *)
Definition store_with_list : state :=
  after (MyJsonDatabase.push "list" (VNumber (Int 1)) ;;;
         MyJsonDatabase.push "list" (VNumber (Int 1)) ;;;
         MyJsonDatabase.push "list" (VNumber (Int 2))) fresh_store.

(** [o1 = {b: 1}; o2 = {b: 1}; db.push("list", o1)]: [o1] is cell 1, [o2]
    cell 2, the sequence cell 3. *)
Definition store_with_one_object : state :=
  after (let* o1 := literal (Obj [("b", VNumber (Int 1))]) in
         let* o2 := literal (Obj [("b", VNumber (Int 1))]) in
         MyJsonDatabase.push "list" o1) fresh_store.

(** The same, followed by [db.push("list", o2)]. *)
Definition store_with_two_objects : state :=
  after (MyJsonDatabase.push "list" (VRef 2)) store_with_one_object.

(** A file system whose file [db.json] holds the text [null]. *)
Definition world_with_null : world :=
  {| heap_of := []; files := {["db.json" := JSONText JNull]}; dirs := ∅;
     timers := [] |}.

(** A file system whose file [db.json] holds the text [[1]]. *)
Definition world_with_array : world :=
  {| heap_of := [];
     files := {["db.json" := JSONText (JArray [JNumber (Int 1)])]};
     dirs := ∅; timers := [] |}.


(** The store constructed on [world_with_null]: its Document is [null]. *)
Definition store_with_null : state :=
  (MyJsonDatabase.constructor (Some "db.json") None world_with_null).2.

(** A file system whose file [db.json] holds the text [{"a": 1}]. *)
Definition world_with_object : world :=
  {| heap_of := [];
     files := {["db.json" := JSONText (JObject [("a", JNumber (Int 1))])]};
     dirs := ∅; timers := [] |}.

(** [{backups: {enabled: true}}] *)
Definition backups_on : DatabaseOptions :=
  {| backups := Some {| enabled := true; interval := None; path := None |} |}.

(** The process that starts after [store_a_b] was saved: an empty heap,
    the files as the store left them. *)
Definition world_after_a_b : world :=
  {| heap_of := [];
     files := files (env (after MyJsonDatabase.save store_a_b));
     dirs := ∅; timers := [] |}.


(** The caller's [object[p] = v], in strict code. *)
Definition assign (object : value) (p : string) (v : value) : M unit :=
  let* h := get_heap in
  let* h' := lift (SetV true h object p v) in
  put_heap h'.

(** [o = {}; o.a = o; db.set("x", o)]: the call throws, [JSON.stringify]
    refusing the cycle, after [o] was stored in the Document. *)
Definition store_with_cycle : state :=
  after (let* o := literal (Obj []) in
         assign o "a" o ;;;
         MyJsonDatabase.set "x" o) fresh_store.

End Examples.

(** * Properties *)

Create HintDb monad_ops.
Global Hint Unfold bind ret lift throw this_data get_heap put_heap
  set_this_data Call : monad_ops.

Ltac run := autounfold with monad_ops in *; simpl in *.

Section Theorems.
Context {NT : NumberType} {JS : JSNumber}.

(** ** The helpers *)

Lemma split_not_nil (sep : ascii) (key : string) : split sep key ≠ [].
Proof.
  destruct key as [|c rest]; simpl; [done|].
  destruct (Ascii.eqb c sep); [done|].
  by destruct (split sep rest).
Qed.


Lemma set_loop_app (h : heap) (object : value) (pre rest : list string) (v : value) :
  rest ≠ [] →
  set_loop h object (pre ++ rest) v =
  match walk h object pre with
  | Ok object' => set_loop h object' rest v
  | Throw e => Throw e
  | Unsupported => Unsupported
  end.
Proof.
  intros Hrest. revert object.
  induction pre as [|p pre IH]; intros object; [done|].
  simpl. destruct (pre ++ rest) as [|q qs] eqn:E.
  { by destruct pre, rest. }
  destruct (GetV h object p); auto.
Qed.

(** ** C8 *)


(** ** C6 *)

Lemma string_has_no_join (h : heap) (p : string) :
  GetV h (VString p) "join" = Ok VUndefined.
Proof. reflexivity. Qed.

(** C6. [makeSnapshot] never writes a snapshot: [path] names the string
    parameter, [path.join] is [undefined], and calling it throws a
    [TypeError] before [fs.writeFileSync] runs.  Whatever the clock, the
    argument and the state, the call throws and the files are unchanged;
    so it is when the timer makes the call. *)
Theorem makeSnapshot_writes_nothing (now : number) (path : option string) (s : state) :
  (∃ s', MyJsonDatabase.makeSnapshot now path s = (Throw TypeError, s')
         ∧ files (env s') = files (env s))
  ∧ (∃ s', MyJsonDatabase.interval_callback now s = (Throw TypeError, s')
           ∧ files (env s') = files (env s)).
Proof.
  assert (∀ path, ∃ s',
            MyJsonDatabase.makeSnapshot now path s = (Throw TypeError, s')
            ∧ files (env s') = files (env s)) as Hany;
    [|split; [apply Hany|apply (Hany None)]].
  clear path. intros path.
  unfold MyJsonDatabase.makeSnapshot.
  assert (∀ p, ∃ s',
    (let* ex := existsSync p in
     (if negb ex then mkdirSync p else ret ()) ;;;
     let* h := get_heap in
     let* join := lift (GetV h (VString p) "join") in
     let* target := Call (A := string) join in
     writeFileSync target None) s = (Throw TypeError, s')
    ∧ files (env s') = files (env s)) as Hbody.
  { intros p. unfold existsSync, mkdirSync. run.
    destruct (negb _); simpl; eauto. }
  assert (∀ k : string → M unit,
    (∀ p, ∃ s', k p s = (Throw TypeError, s') ∧ files (env s') = files (env s)) →
    ∃ s', (let* p := MyJsonDatabase.configured_path in k p) s = (Throw TypeError, s')
          ∧ files (env s') = files (env s)) as Hconf.
  { intros k Hk. unfold MyJsonDatabase.configured_path. run.
    destruct (backups (options s)); eauto. }
  destruct path as [p|]; [|by apply Hconf].
  destruct (negb (String.eqb p "")) eqn:E; [|by apply Hconf].
  apply Hbody.
Qed.

(** ** C4 *)

(** C4. [clear] tests the value of the key, not its presence: when the key
    is present with a falsy value ([0], [NaN], the empty string, [false],
    [null]) it throws the error that says there is no such key, and the
    value is not replaced. *)
Theorem clear_throws_on_falsy_value
    (s : state) (key : string) (l : loc) (props : list (string * value)) (v : value) :
  data s = VRef l →
  heap_of (env s) !! l = Some (Obj props) →
  lookup_prop props key = Some v →
  ToBoolean v = false →
  MyJsonDatabase.clear key s
  = (Throw (Error ("there is no key " +:+ dquote +:+ key +:+ dquote
                   +:+ ", in your database")), s).
Proof.
  intros Hd Hl Hp Hv.
  unfold MyJsonDatabase.clear, MyJsonDatabase.read_data. run.
  rewrite Hd. simpl. rewrite Hl. unfold get_prop. rewrite Hp. simpl.
  by rewrite Hv.
Qed.

(** In every model of the numbers, so it is for a key holding [0]. *)
Lemma clear_throws_on_zero
    (s : state) (key : string) (l : loc) (props : list (string * value)) :
  data s = VRef l →
  heap_of (env s) !! l = Some (Obj props) →
  lookup_prop props key = Some (VNumber (num_of_N 0)) →
  MyJsonDatabase.clear key s
  = (Throw (Error ("there is no key " +:+ dquote +:+ key +:+ dquote
                   +:+ ", in your database")), s).
Proof.
  intros Hd Hl Hp.
  unfold MyJsonDatabase.clear, MyJsonDatabase.read_data. run.
  rewrite Hd. simpl. rewrite Hl. unfold get_prop. rewrite Hp. simpl.
  by rewrite num_ToBoolean_zero.
Qed.

(** An absent key, unless it is a name of [Object.prototype], is refused
    with the same error. *)
Lemma clear_absent_key (s : state) (key : string) (l : loc)
    (props : list (string * value)) :
  data s = VRef l →
  heap_of (env s) !! l = Some (Obj props) →
  lookup_prop props key = None →
  inherited_name key = false →
  MyJsonDatabase.clear key s
  = (Throw (Error ("there is no key " +:+ dquote +:+ key +:+ dquote
                   +:+ ", in your database")), s).
Proof.
  intros Hd Hl Hp _.
  unfold MyJsonDatabase.clear, MyJsonDatabase.read_data. run.
  rewrite Hd. simpl. rewrite Hl. unfold get_prop. by rewrite Hp.
Qed.

(** ** C5 *)

(** C5. [typeof savedData === "object"] also holds of [null] and of
    arrays: when the backing file holds the text [null] or a JSON array,
    the constructor returns normally and the parsed value, which is not a
    mapping, is the Document. *)
Theorem constructor_accepts_null_and_arrays
    (w : world) (p : string) (j : json) :
  p ≠ EmptyString →
  files w !! p = Some (JSONText j) →
  (j = JNull ∨ ∃ items, j = JArray items) →
  ∃ s', MyJsonDatabase.constructor (Some p) None w = (Ok (), s')
        ∧ data s' = (revive j (heap_of w ++ [Obj []])).1
        ∧ ¬ is_mapping (heap_of (env s')) (data s').
Proof.
  intros Hp Hfile Hj.
  unfold MyJsonDatabase.constructor, MyJsonDatabase.fetchDataFromFile,
    alloc, existsSync, readFileSync, JSON_parse.
  apply String.eqb_neq in Hp. rewrite Hp. run.
  repeat (rewrite Hfile; simpl).
  destruct Hj as [->|[items ->]]; simpl.
  - eexists; split_and!; [done..|].
    intros (l & props & E & _). discriminate E.
  - destruct ((fix go (items0 : list json) (h : heap) {struct items0} :=
                 match items0 with
                 | [] => ([], h)
                 | x :: rest =>
                     let '(v, h1) := revive x h in
                     let '(vs, h2) := go rest h1 in (v :: vs, h2)
                 end) items (heap_of w ++ [Obj []])) as [elems h1] eqn:E.
    simpl. eexists; split_and!; [done..|]. simpl.
    intros (l & props & [= <-] & Hl). simpl in Hl.
    by rewrite lookup_app_r, Nat.sub_diag in Hl.
Qed.

(** A number, a string or a boolean in the file is discarded: the Document
    stays the empty mapping the constructor made. *)
Lemma constructor_discards_primitives (w : world) (p : string) (j : json) :
  p ≠ EmptyString →
  files w !! p = Some (JSONText j) →
  match j with JBool _ | JNumber _ | JString _ => True | _ => False end →
  ∃ s', MyJsonDatabase.constructor (Some p) None w = (Ok (), s')
        ∧ data s' = VRef (length (heap_of w))
        ∧ heap_of (env s') = heap_of w ++ [Obj []].
Proof.
  intros Hp Hfile Hj.
  unfold MyJsonDatabase.constructor, MyJsonDatabase.fetchDataFromFile,
    alloc, existsSync, readFileSync, JSON_parse.
  apply String.eqb_neq in Hp. rewrite Hp. run.
  repeat (rewrite Hfile; simpl).
  destruct j; try done; simpl; eauto.
Qed.

(** ** C2 *)

Lemma bind_Ok_inv {A B} (m : M A) (k : A → M B) (s s' : state) (b : B) :
  bind m k s = (Ok b, s') →
  ∃ a s1, m s = (Ok a, s1) ∧ k a s1 = (Ok b, s').
Proof.
  unfold bind. destruct (m s) as [[a| |] s1]; [eauto|done..].
Qed.

(** What a normal return of [save] leaves behind. *)
Lemma save_Ok (s s' : state) :
  MyJsonDatabase.save s = (Ok (), s') →
  ∃ j, JSON_stringify (heap_of (env s)) (data s) = Some (Some j)
       ∧ s' = with_env s (with_files (env s)
                            (<[jsonFilePath s := JSONText j]> (files (env s)))).
Proof.
  unfold MyJsonDatabase.save, writeFileSync. run.
  destruct (JSON_stringify _ _) as [[j|]|]; [|done..].
  destruct (bool_decide _); [done|].
  intros [= <-]. eauto.
Qed.

Ltac to_last_step Hrun :=
  repeat lazymatch type of Hrun with
         | bind _ _ _ = _ =>
             apply bind_Ok_inv in Hrun as (? & ? & _ & Hrun); cbv beta in Hrun
         end.

(** C2. When a mutating operation returns normally, the backing file holds
    the serialization of the Document as it then is in memory. *)
Theorem file_is_serialized_document_after_mutation
    (m : mutation) (s s' : state) :
  perform m s = (Ok (), s') →
  ∃ j, JSON_stringify (heap_of (env s')) (data s') = Some (Some j)
       ∧ files (env s') !! jsonFilePath s' = Some (JSONText j).
Proof.
  intros Hrun.
  assert (∃ s1, MyJsonDatabase.save s1 = (Ok (), s')) as [s1 Hsave].
  { destruct m; simpl in Hrun;
      unfold MyJsonDatabase.set, MyJsonDatabase.delete, MyJsonDatabase.add,
        MyJsonDatabase.subtract, MyJsonDatabase.push, MyJsonDatabase.pullOne,
        MyJsonDatabase.pullMany, MyJsonDatabase.clear, MyJsonDatabase.clearAll
        in Hrun;
      to_last_step Hrun; eauto. }
  apply save_Ok in Hsave as (j & Hj & ->).
  exists j. split; [done|]. simpl. apply lookup_insert_eq.
Qed.

(** ** Operations on a Document that is a mapping *)

Lemma bind_Ok {A B} (m : M A) (k : A → M B) (s s1 : state) (a : A) :
  m s = (Ok a, s1) → bind m k s = k a s1.
Proof. unfold bind. by intros ->. Qed.

Lemma bind_Throw {A B} (m : M A) (k : A → M B) (s s1 : state) (e : exn) :
  m s = (Throw e, s1) → bind m k s = (Throw e, s1).
Proof. unfold bind. by intros ->. Qed.

Lemma lookup_set_prop_eq (props : list (string * value)) (p : string) (v : value) :
  lookup_prop (set_prop props p v) p = Some v.
Proof.
  induction props as [|[k w] props IH]; simpl.
  - by rewrite String.eqb_refl.
  - destruct (String.eqb k p) eqn:E; simpl; by rewrite E.
Qed.

Lemma lookup_set_prop_ne (props : list (string * value)) (p q : string) (v : value) :
  p ≠ q → lookup_prop (set_prop props p v) q = lookup_prop props q.
Proof.
  intros Hne. induction props as [|[k w] props IH]; simpl.
  - apply String.eqb_neq in Hne. by rewrite Hne.
  - destruct (String.eqb k p) eqn:E; simpl.
    + apply String.eqb_eq in E as ->.
      apply String.eqb_neq in Hne. by rewrite Hne.
    + by rewrite IH.
Qed.

Lemma get_set_prop_eq (props : list (string * value)) (p : string) (v : value) :
  get_prop (set_prop props p v) p = v.
Proof. unfold get_prop. by rewrite lookup_set_prop_eq. Qed.

Lemma set_prop_set_prop (props : list (string * value)) (p : string) (v w : value) :
  set_prop (set_prop props p v) p w = set_prop props p w.
Proof.
  induction props as [|[k u] props IH]; simpl.
  - by rewrite String.eqb_refl.
  - destruct (String.eqb k p) eqn:E; simpl; rewrite E; [done|]. by rewrite IH.
Qed.

Lemma set_prop_absent (props : list (string * value)) (p : string) (v : value) :
  lookup_prop props p = None → set_prop props p v = props ++ [(p, v)].
Proof.
  induction props as [|[k u] props IH]; simpl; [done|].
  destruct (String.eqb k p); [done|]. intros Hp. by rewrite IH.
Qed.

Lemma read_data_mapping (s : state) (l : loc) (props : list (string * value))
    (key : string) :
  data s = VRef l →
  heap_of (env s) !! l = Some (Obj props) →
  MyJsonDatabase.read_data key s = (Ok (get_prop props key), s).
Proof.
  intros Hd Hl. unfold MyJsonDatabase.read_data. run.
  rewrite Hd. simpl. by rewrite Hl.
Qed.

(** The assignment to a mapping is an own-property write unless the key
    is [__proto__] and the mapping does not own it. *)
Lemma SetV_guard (props : list (string * value)) (p : string) :
  (lookup_prop props p = None → p ≠ "__proto__") →
  String.eqb p "__proto__" && bool_decide (lookup_prop props p = None) = false.
Proof.
  intros Hw. destruct (String.eqb p "__proto__") eqn:E; [|done].
  apply String.eqb_eq in E. simpl. apply bool_decide_eq_false.
  intros Hnone. by apply Hw.
Qed.

Lemma inherited_name_proto (p : string) :
  inherited_name p = false → p ≠ "__proto__".
Proof. by intros H ->. Qed.

Lemma lookup_prop_truthy (props : list (string * value)) (p : string) :
  ToBoolean (get_prop props p) = true → lookup_prop props p ≠ None.
Proof. unfold get_prop. intros H Hnone. by rewrite Hnone in H. Qed.

Lemma assign_data_mapping (s : state) (l : loc) (props : list (string * value))
    (key : string) (v : value) :
  data s = VRef l →
  heap_of (env s) !! l = Some (Obj props) →
  (lookup_prop props key = None → key ≠ "__proto__") →
  MyJsonDatabase.assign_data key v s
  = (Ok (), with_heap_of s (<[l := Obj (set_prop props key v)]> (heap_of (env s)))).
Proof.
  intros Hd Hl Hw. unfold MyJsonDatabase.assign_data. run.
  rewrite Hd. simpl. rewrite Hl, (SetV_guard props key Hw).
  unfold with_heap_of, with_env, with_heap. simpl. by rewrite Hd.
Qed.

Lemma alloc_spec (c : cell) (s : state) :
  alloc c s = (Ok (VRef (length (heap_of (env s)))),
               with_heap_of s (heap_of (env s) ++ [c])).
Proof. reflexivity. Qed.

Lemma get_heap_spec (s : state) : get_heap s = (Ok (heap_of (env s)), s).
Proof. reflexivity. Qed.

Lemma ret_spec {A} (a : A) (s : state) : ret a s = (Ok a, s).
Proof. reflexivity. Qed.

Lemma this_data_spec (s : state) : this_data s = (Ok (data s), s).
Proof. reflexivity. Qed.

Lemma lift_spec {A} (r : result A) (s : state) : lift r s = (r, s).
Proof. reflexivity. Qed.

Lemma put_heap_spec (h : heap) (s : state) :
  put_heap h s = (Ok (), with_heap_of s h).
Proof. reflexivity. Qed.

Lemma with_heap_of_twice (s : state) (h1 h2 : heap) :
  with_heap_of (with_heap_of s h1) h2 = with_heap_of s h2.
Proof. reflexivity. Qed.

Lemma with_heap_of_same (s : state) : with_heap_of s (heap_of (env s)) = s.
Proof. by destruct s as [[] ? ? ?]. Qed.

(** The common beginning of [push], [pullOne] and [pullMany]: a falsy
    value at [key] is replaced by a new empty array. *)
Lemma initialize_sequence (s : state) (l : loc) (props : list (string * value))
    (key : string) :
  data s = VRef l →
  heap_of (env s) !! l = Some (Obj props) →
  ToBoolean (get_prop props key) = false →
  (lookup_prop props key = None → key ≠ "__proto__") →
  (let* a := alloc (Arr []) in MyJsonDatabase.assign_data key a) s
  = (Ok (), with_heap_of s
              (<[l := Obj (set_prop props key (VRef (length (heap_of (env s)))))]>
                 (heap_of (env s) ++ [Arr []]))).
Proof.
  intros Hd Hl Hv Hw.
  rewrite (bind_Ok _ _ _ _ _ (alloc_spec _ _)).
  rewrite (assign_data_mapping _ l props);
    [done | done | by apply lookup_app_l_Some | done].
Qed.

Ltac step lem := rewrite (bind_Ok _ _ _ _ _ lem); cbv beta.

Lemma lookup_updated (h : heap) (l : loc) (c c' : cell) :
  h !! l = Some c → <[l := c']> h !! l = Some c'.
Proof. intros Hl. apply list_lookup_insert_eq. by eapply lookup_lt_Some. Qed.

Lemma method_push_array (s : state) (la : loc) (elems : list value) (element : value) :
  heap_of (env s) !! la = Some (Arr elems) →
  method_push (VRef la) element s
  = (Ok (), with_heap_of s (<[la := Arr (elems ++ [element])]> (heap_of (env s)))).
Proof. intros Ha. unfold method_push. run. by rewrite Ha. Qed.

Lemma method_indexOf_array (s : state) (la : loc) (elems : list value) (element : value) :
  heap_of (env s) !! la = Some (Arr elems) →
  method_indexOf (VRef la) element s = (Ok (index_of element elems), s).
Proof. intros Ha. unfold method_indexOf. run. by rewrite Ha. Qed.

Lemma method_splice_array (s : state) (la : loc) (elems : list value) (i : nat) :
  heap_of (env s) !! la = Some (Arr elems) →
  method_splice (VRef la) i s
  = (Ok (), with_heap_of s (<[la := Arr (base.delete i elems)]> (heap_of (env s)))).
Proof. intros Ha. unfold method_splice. run. by rewrite Ha. Qed.

(** [add] and [subtract] on a mapping: the value computed by [op] from the
    old value (or from [0] when that is falsy) and the amount is stored;
    nothing is checked and nothing throws before [save]. *)
Lemma ToPrimitive_primitive (h : heap) (v : value) :
  is_primitive v = true → ToPrimitive h v = Ok v.
Proof. by destruct v. Qed.

Lemma accumulate_mapping (op : heap → value → value → result value)
    (s : state) (l : loc) (props : list (string * value))
    (key : string) (count : value) :
  data s = VRef l →
  heap_of (env s) !! l = Some (Obj props) →
  (lookup_prop props key = None → key ≠ "__proto__") →
  let h := heap_of (env s) in
  let cur := get_prop props key in
  let zeroed := <[l := Obj (set_prop props key (VNumber (num_of_N 0)))]> h in
  (let* cur := MyJsonDatabase.read_data key in
   (if negb (ToBoolean cur)
    then MyJsonDatabase.assign_data key (VNumber (num_of_N 0))
    else ret ()) ;;;
   let* old := MyJsonDatabase.read_data key in
   let* h := get_heap in
   let* result := lift (op h old count) in
   MyJsonDatabase.assign_data key result ;;;
   MyJsonDatabase.save) s
  = match (if ToBoolean cur then op h cur count
           else op zeroed (VNumber (num_of_N 0)) count) with
    | Ok v =>
        MyJsonDatabase.save
          (with_heap_of s (<[l := Obj (set_prop props key v)]> h))
    | Throw e => (Throw e, if ToBoolean cur then s else with_heap_of s zeroed)
    | Unsupported =>
        (Unsupported, if ToBoolean cur then s else with_heap_of s zeroed)
    end.
Proof.
  intros Hd Hl Hw h cur zeroed.
  assert (∀ w, lookup_prop (set_prop props key w) key = None → key ≠ "__proto__")
    as Hw'.
  { intros w Hnone. by rewrite lookup_set_prop_eq in Hnone. }
  step (read_data_mapping s l props key Hd Hl). fold cur.
  destruct (ToBoolean cur) eqn:Hcur; simpl negb; cbv iota.
  - step (ret_spec () s).
    step (read_data_mapping s l props key Hd Hl).
    step (get_heap_spec s). fold h cur.
    destruct (op h cur count) as [v| |] eqn:Hop.
    + step (lift_spec (Ok v) s).
      by step (assign_data_mapping s l props key v Hd Hl Hw).
    + done.
    + done.
  - step (assign_data_mapping s l props key (VNumber (num_of_N 0)) Hd Hl Hw).
    fold h zeroed. set (s1 := with_heap_of s zeroed).
    assert (heap_of (env s1) !! l
            = Some (Obj (set_prop props key (VNumber (num_of_N 0))))) as Hl1.
    { by eapply lookup_updated. }
    step (read_data_mapping s1 l _ key Hd Hl1).
    step (get_heap_spec s1).
    rewrite get_set_prop_eq.
    change (heap_of (env s1)) with zeroed.
    destruct (op zeroed (VNumber (num_of_N 0)) count) as [v| |] eqn:Hop.
    + step (lift_spec (Ok v) s1).
      step (assign_data_mapping s1 l _ key v Hd Hl1 (Hw' _)).
      subst s1. rewrite with_heap_of_twice. simpl heap_of. subst zeroed.
      by rewrite list_insert_insert_eq, set_prop_set_prop.
    + done.
    + done.
Qed.

(** ** C3 *)

(** C3, as the code has it.  On a Document that is a mapping, for a key
    that the Document owns or that is no name of [Object.prototype], [add]
    and [subtract] do not check the amount: the key receives [old + count]
    (a concatenation when either side is a string) or [old - count], [old]
    being [0] when the value at the key is falsy, and the call goes on to
    [save].  Primitive operands always convert; the only error is that of
    a conversion to a primitive that throws, which the call passes on.
    [push] throws a [TypeError] when the value at the key is truthy and is
    a primitive or a mapping; when that value is falsy it is replaced by a
    new sequence holding the element. *)
Theorem accumulate_unchecked_push_checked
    (s : state) (l : loc) (props : list (string * value))
    (key : string) (arg : value) :
  data s = VRef l →
  heap_of (env s) !! l = Some (Obj props) →
  (lookup_prop props key = None → inherited_name key = false) →
  let h := heap_of (env s) in
  let cur := get_prop props key in
  let zeroed := <[l := Obj (set_prop props key (VNumber (num_of_N 0)))]> h in
  let old := if ToBoolean cur then cur else VNumber (num_of_N 0) in
  let h0 := if ToBoolean cur then h else zeroed in
  (∀ v, js_plus h0 old arg = Ok v →
     MyJsonDatabase.add key arg s
     = MyJsonDatabase.save
         (with_heap_of s (<[l := Obj (set_prop props key v)]> h)))
  ∧ (∀ v, js_minus h0 old arg = Ok v →
       MyJsonDatabase.subtract key arg s
       = MyJsonDatabase.save
           (with_heap_of s (<[l := Obj (set_prop props key v)]> h)))
  ∧ (is_primitive old = true → is_primitive arg = true →
     (∃ v, js_plus h0 old arg = Ok v) ∧ (∃ v, js_minus h0 old arg = Ok v))
  ∧ (∀ e, js_plus h0 old arg = Throw e →
       MyJsonDatabase.add key arg s = (Throw e, with_heap_of s h0))
  ∧ (∀ e, js_minus h0 old arg = Throw e →
       MyJsonDatabase.subtract key arg s = (Throw e, with_heap_of s h0))
  ∧ (ToBoolean cur = true →
     is_primitive cur = true ∨ is_mapping h cur →
     MyJsonDatabase.push key arg s = (Throw TypeError, s))
  ∧ (ToBoolean cur = false →
     MyJsonDatabase.push key arg s
     = MyJsonDatabase.save
         (with_heap_of s
            (<[length h := Arr [arg]]>
               (<[l := Obj (set_prop props key (VRef (length h)))]>
                  (h ++ [Arr []]))))).
Proof.
  intros Hd Hl Hkey h cur zeroed old h0.
  assert (lookup_prop props key = None → key ≠ "__proto__") as Hw.
  { intros Hnone. by apply inherited_name_proto, Hkey. }
  assert (∀ op : heap → value → value → result value,
            (if ToBoolean cur then op h cur arg
             else op zeroed (VNumber (num_of_N 0)) arg) = op h0 old arg) as Hop.
  { intros op. subst old h0. by destruct (ToBoolean cur). }
  assert ((if ToBoolean cur then s else with_heap_of s zeroed)
          = with_heap_of s h0) as Hstate.
  { subst h0. destruct (ToBoolean cur); [|done]. symmetry. apply with_heap_of_same. }
  pose proof (accumulate_mapping js_plus s l props key arg Hd Hl Hw) as Hadd.
  pose proof (accumulate_mapping js_minus s l props key arg Hd Hl Hw) as Hsub.
  cbv zeta in Hadd, Hsub. fold h cur zeroed in Hadd, Hsub.
  rewrite Hop, Hstate in Hadd. rewrite Hop, Hstate in Hsub.
  split_and!.
  - intros v Hv. unfold MyJsonDatabase.add. by rewrite Hadd, Hv.
  - intros v Hv. unfold MyJsonDatabase.subtract. by rewrite Hsub, Hv.
  - intros Hold Harg. unfold js_plus, js_minus.
    rewrite (ToPrimitive_primitive _ _ Hold), (ToPrimitive_primitive _ _ Harg).
    simpl. eauto.
  - intros e He. unfold MyJsonDatabase.add. by rewrite Hadd, He.
  - intros e He. unfold MyJsonDatabase.subtract. by rewrite Hsub, He.
  - intros Hcur Hkind. unfold MyJsonDatabase.push.
    step (read_data_mapping s l props key Hd Hl).
    fold cur. rewrite Hcur. simpl negb. cbv iota.
    step (ret_spec () s).
    step (read_data_mapping s l props key Hd Hl). fold cur.
    apply bind_Throw. unfold method_push.
    step (get_heap_spec s).
    destruct Hkind as [Hprim|(l' & props' & Hc & Hl')].
    + destruct cur as [| |b|n|str|l']; try done; simpl.
      all: by run.
    + rewrite Hc. fold h. rewrite Hl'. run. fold h. by rewrite Hl'.
  - intros Hcur. unfold MyJsonDatabase.push.
    step (read_data_mapping s l props key Hd Hl).
    fold cur. rewrite Hcur. simpl negb. cbv iota.
    step (initialize_sequence s l props key Hd Hl Hcur Hw).
    fold h. set (s1 := with_heap_of s _).
    assert (l < length h)%nat as Hlt by by eapply lookup_lt_Some.
    assert (heap_of (env s1) !! l
            = Some (Obj (set_prop props key (VRef (length h))))) as Hl1.
    { subst s1. simpl. apply list_lookup_insert_eq.
      rewrite length_app. simpl. lia. }
    step (read_data_mapping s1 l _ key Hd Hl1).
    rewrite get_set_prop_eq.
    assert (heap_of (env s1) !! length h = Some (Arr [])) as Ha.
    { subst s1. simpl. rewrite list_lookup_insert_ne by lia.
      by rewrite lookup_app_r, Nat.sub_diag. }
    step (method_push_array s1 (length h) [] arg Ha).
    by subst s1.
Qed.

(** ** [pullOne] and [pullMany] *)

Lemma remove_first_index_of (element : value) (elems : list value) :
  remove_first element elems
  = match index_of element elems with
    | Some i => base.delete i elems
    | None => elems
    end.
Proof.
  induction elems as [|x elems IH]; simpl; [done|].
  destruct (strict_equals x element); [done|].
  rewrite IH. by destruct (index_of element elems).
Qed.

Lemma remove_all_filter (element : value) (elems : list value) :
  remove_all element elems
  = filter (λ x, strict_equals x element = false) elems.
Proof.
  induction elems as [|x elems IH]; simpl; [done|].
  destruct (strict_equals x element) eqn:E;
    rewrite filter_cons; case_decide; try congruence.
Qed.

Lemma remove_first_no_match (element : value) (elems : list value) :
  Forall (λ x, strict_equals x element = false) elems →
  remove_first element elems = elems.
Proof.
  induction 1 as [|x elems Hx _ IH]; simpl; [done|]. by rewrite Hx, IH.
Qed.

Lemma remove_all_no_match (element : value) (elems : list value) :
  Forall (λ x, strict_equals x element = false) elems →
  remove_all element elems = elems.
Proof.
  induction 1 as [|x elems Hx _ IH]; simpl; [done|]. by rewrite Hx, IH.
Qed.

Lemma take_delete_same {A} (i : nat) (xs : list A) :
  take i (base.delete i xs) = take i xs.
Proof.
  revert i. induction xs as [|x xs IH]; intros [|i]; simpl; try done.
  by rewrite IH.
Qed.

Lemma drop_delete_same {A} (i : nat) (xs : list A) :
  drop i (base.delete i xs) = drop (S i) xs.
Proof.
  revert i. induction xs as [|x xs IH]; intros [|i]; simpl; done.
Qed.

(** The loop of [pullMany] from position [i]: the elements before [i] stay,
    those from [i] on that are [=== element] go, and [length value - i]
    iterations are enough. *)
Lemma pullMany_loop_spec (element : value) (fuel : nat) :
  ∀ (h : heap) (l : loc) (elems : list value) (i : nat),
    h !! l = Some (Arr elems) →
    (i ≤ length elems)%nat →
    (length elems - i ≤ fuel)%nat →
    MyJsonDatabase.pullMany_loop fuel h l element i
    = Ok (<[l := Arr (take i elems ++ remove_all element (drop i elems))]> h).
Proof.
  induction fuel as [|fuel IH]; intros h l elems i Hl Hi Hfuel.
  - assert (i = length elems) as -> by lia.
    simpl. rewrite Hl, Nat.ltb_irrefl, drop_all, firstn_all, app_nil_r.
    by rewrite list_insert_id.
  - simpl. rewrite Hl. destruct (Nat.ltb_spec i (length elems)) as [Hlt|Hge].
    + destruct (lookup_lt_is_Some_2 elems i Hlt) as [x Hx].
      rewrite Hx. simpl. rewrite (drop_S _ _ _ Hx). simpl.
      destruct (strict_equals x element).
      * rewrite (IH _ l (base.delete i elems));
          [|by eapply lookup_updated
           |rewrite length_delete by eauto; lia
           |rewrite length_delete by eauto; lia].
        by rewrite list_insert_insert_eq, take_delete_same, drop_delete_same.
      * rewrite (IH _ l elems); [|done|lia|lia].
        by rewrite (take_S_r _ _ _ Hx), <- app_assoc.
    + assert (i = length elems) as -> by lia.
      rewrite drop_all, firstn_all, app_nil_r. by rewrite list_insert_id.
Qed.

Section Sequence.
Variables (s : state) (l : loc) (props : list (string * value)) (key : string).
Hypothesis Hd : data s = VRef l.
Hypothesis Hl : heap_of (env s) !! l = Some (Obj props).

Lemma pullOne_sequence (la : loc) (elems : list value) (element : value) :
  get_prop props key = VRef la →
  heap_of (env s) !! la = Some (Arr elems) →
  MyJsonDatabase.pullOne key element s
  = MyJsonDatabase.save
      (with_heap_of s (<[la := Arr (remove_first element elems)]> (heap_of (env s)))).
Proof.
  intros Hk Ha. unfold MyJsonDatabase.pullOne.
  step (read_data_mapping s l props key Hd Hl).
  rewrite Hk. simpl negb. cbv iota.
  step (ret_spec () s).
  step (read_data_mapping s l props key Hd Hl). rewrite Hk.
  step (method_indexOf_array s la elems element Ha).
  rewrite remove_first_index_of.
  destruct (index_of element elems) as [i|].
  - erewrite (bind_Ok (let* recv' := _ in _)); [done|].
    step (read_data_mapping s l props key Hd Hl). rewrite Hk.
    by apply method_splice_array.
  - step (ret_spec () s). by rewrite list_insert_id, with_heap_of_same.
Qed.

Lemma pullMany_sequence (la : loc) (elems : list value) (element : value) :
  get_prop props key = VRef la →
  heap_of (env s) !! la = Some (Arr elems) →
  MyJsonDatabase.pullMany key element s
  = MyJsonDatabase.save
      (with_heap_of s (<[la := Arr (remove_all element elems)]> (heap_of (env s)))).
Proof.
  intros Hk Ha. unfold MyJsonDatabase.pullMany.
  step (read_data_mapping s l props key Hd Hl).
  rewrite Hk. simpl negb. cbv iota.
  step (ret_spec () s).
  step (read_data_mapping s l props key Hd Hl). rewrite Hk.
  erewrite (bind_Ok (MyJsonDatabase.pullMany_while _ _)); [done|].
  unfold MyJsonDatabase.pullMany_while.
  step (get_heap_spec s). rewrite Ha.
  rewrite (pullMany_loop_spec element _ _ la elems 0 Ha) by lia.
  by rewrite drop_0.
Qed.


End Sequence.

Lemma save_preserves (s : state) :
  heap_of (env (after MyJsonDatabase.save s)) = heap_of (env s)
  ∧ data (after MyJsonDatabase.save s) = data s.
Proof.
  unfold after, MyJsonDatabase.save, writeFileSync. run.
  destruct (JSON_stringify _ _) as [[j|]|]; simpl; [|done..].
  by destruct (bool_decide _).
Qed.

Lemma strict_equals_ref (x : value) (l : loc) :
  strict_equals x (VRef l) = true → x = VRef l.
Proof.
  destruct x; simpl; try done. by intros ->%Nat.eqb_eq.
Qed.

(** ** C7 *)


(** ** C10 *)

(** C10, as the code has it.  A non-primitive argument matches only the
    element that is the same reference: when the reference passed is not
    itself an element of the sequence, [pullOne] and [pullMany] go on to
    [save] with the heap as it was, and the sequence is unchanged, however
    many of its elements are structurally equal to the argument. *)
Theorem pull_keeps_other_references
    (s : state) (l : loc) (props : list (string * value)) (key : string)
    (la : loc) (elems : list value) (le : loc) :
  data s = VRef l →
  heap_of (env s) !! l = Some (Obj props) →
  get_prop props key = VRef la →
  heap_of (env s) !! la = Some (Arr elems) →
  VRef le ∉ elems →
  MyJsonDatabase.pullOne key (VRef le) s = MyJsonDatabase.save s
  ∧ MyJsonDatabase.pullMany key (VRef le) s = MyJsonDatabase.save s
  ∧ heap_of (env (after (MyJsonDatabase.pullOne key (VRef le)) s)) !! la
    = Some (Arr elems)
  ∧ heap_of (env (after (MyJsonDatabase.pullMany key (VRef le)) s)) !! la
    = Some (Arr elems).
Proof.
  intros Hd Hl Hk Ha Hnotin.
  assert (Forall (λ x, strict_equals x (VRef le) = false) elems) as Hno.
  { apply Forall_forall. intros x Hx.
    destruct (strict_equals x (VRef le)) eqn:E; [|done].
    apply strict_equals_ref in E as ->. done. }
  assert (MyJsonDatabase.pullOne key (VRef le) s = MyJsonDatabase.save s) as H1.
  { rewrite (pullOne_sequence s l props key Hd Hl la elems) by done.
    by rewrite remove_first_no_match, list_insert_id, with_heap_of_same. }
  assert (MyJsonDatabase.pullMany key (VRef le) s = MyJsonDatabase.save s) as H2.
  { rewrite (pullMany_sequence s l props key Hd Hl la elems) by done.
    by rewrite remove_all_no_match, list_insert_id, with_heap_of_same. }
  split_and!; [done|done|..]; unfold after.
  - rewrite H1. fold (after MyJsonDatabase.save s).
    by rewrite (proj1 (save_preserves s)).
  - rewrite H2. fold (after MyJsonDatabase.save s).
    by rewrite (proj1 (save_preserves s)).
Qed.

(** ** C9 *)

Lemma map_M_pure {A B} (f : A → M B) (g : A → B) (xs : list A) (s : state) :
  (∀ x, f x s = (Ok (g x), s)) →
  map_M f xs s = (Ok (g <$> xs), s).
Proof.
  intros Hf. induction xs as [|x xs IH]; simpl; [done|].
  step (Hf x). by step IH.
Qed.

Global Instance index_le_total : Total index_le.
Proof. intros a b. unfold index_le. lia. Qed.

Lemma own_keys_without_indices (props : list (string * value)) :
  Forall (λ k, array_index k = None) props.*1 →
  own_keys props = props.*1.
Proof.
  unfold own_keys. generalize (props.*1). intros ks Hks.
  assert (filter (λ k, is_Some (array_index k)) ks = []) as ->.
  { induction Hks as [|k ks Hk _ IH]; [done|].
    rewrite filter_cons, decide_False; [done|]. rewrite Hk. by intros []. }
  assert (filter (λ k, array_index k = None) ks = ks) as ->; [|done].
  induction Hks as [|k ks Hk _ IH]; [done|].
  by rewrite filter_cons, decide_True, IH.
Qed.

Lemma own_keys_permutation (props : list (string * value)) :
  own_keys props ≡ₚ props.*1.
Proof.
  unfold own_keys. rewrite merge_sort_Permutation.
  induction (props.*1) as [|k ks IH]; [done|].
  rewrite !filter_cons. destruct (array_index k) as [n|] eqn:E.
  - rewrite decide_True by eauto. rewrite decide_False by done.
    simpl. by rewrite IH.
  - rewrite decide_False by by intros []. rewrite decide_True by done.
    rewrite <- Permutation_middle. by rewrite IH.
Qed.

(** C9, as the code has it.  On a Document that is a mapping, [all()]
    returns one record per top-level key, with the value of the key, in the
    order of [Object.keys]: first the keys that are array indices, by
    ascending number, then the other keys in insertion order; so in
    insertion order when no key is an array index.  After [clearAll()],
    [all()] returns the empty sequence. *)
Theorem all_follows_property_order
    (s : state) (l : loc) (props : list (string * value)) :
  data s = VRef l →
  heap_of (env s) !! l = Some (Obj props) →
  let record k := {| Entry.key := k; Entry.data := get_prop props k |} in
  let indices := merge_sort index_le
                   (filter (λ k, is_Some (array_index k)) props.*1) in
  MyJsonDatabase.all s
  = (Ok (record <$> indices ++ filter (λ k, array_index k = None) props.*1), s)
  ∧ Sorted index_le indices
  ∧ indices ++ filter (λ k, array_index k = None) props.*1 ≡ₚ props.*1
  ∧ (Forall (λ k, array_index k = None) props.*1 →
     MyJsonDatabase.all s = (Ok (record <$> props.*1), s))
  ∧ MyJsonDatabase.all (after MyJsonDatabase.clearAll s)
    = (Ok [], after MyJsonDatabase.clearAll s).
Proof.
  intros Hd Hl record indices.
  assert (MyJsonDatabase.all s = (Ok (record <$> own_keys props), s)) as Hall.
  { unfold MyJsonDatabase.all.
    step (this_data_spec s). step (get_heap_spec s).
    rewrite Hd. simpl Object_keys. rewrite Hl.
    step (lift_spec (Ok (own_keys props)) s).
    apply (map_M_pure _ record).
    intros k. by step (read_data_mapping s l props k Hd Hl). }
  split_and!.
  - done.
  - apply Sorted_merge_sort. apply _.
  - apply own_keys_permutation.
  - intros Hno. by rewrite Hall, own_keys_without_indices.
  - unfold after, MyJsonDatabase.clearAll.
    rewrite (bind_Ok _ _ _ _ _ (alloc_spec _ _)).
    set (s1 := with_heap_of s _).
    assert (set_this_data (VRef (length (heap_of (env s)))) s1
            = (Ok (), {| env := env s1; jsonFilePath := jsonFilePath s1;
                         options := options s1;
                         data := VRef (length (heap_of (env s))) |})) as Hset
      by done.
    rewrite (bind_Ok _ _ _ _ _ Hset).
    set (s2 := {| env := env s1 |}).
    change ((MyJsonDatabase.save s2).2) with (after MyJsonDatabase.save s2).
    destruct (save_preserves s2) as [Hh Hdata].
    unfold MyJsonDatabase.all. run.
    unfold after in *. rewrite Hdata, Hh. simpl.
    by rewrite lookup_app_r, Nat.sub_diag.
Qed.

(** ** [JSON.stringify] does not run out of fuel *)

Lemma serialize_members_ext (f g : value → option (option json))
    (props : list (string * value)) (keys : list string) :
  (∀ v, f v = g v) →
  serialize_members f props keys = serialize_members g props keys.
Proof.
  intros Hfg. induction keys as [|k keys IH]; simpl; [done|].
  by rewrite Hfg, IH.
Qed.

Lemma serialize_items_ext (f g : value → option (option json)) (elems : list value) :
  (∀ v, f v = g v) →
  serialize_items f elems = serialize_items g elems.
Proof.
  intros Hfg. induction elems as [|x elems IH]; simpl; [done|].
  by rewrite Hfg, IH.
Qed.

Lemma stack_is_short (h : heap) (stack : list loc) :
  NoDup stack →
  Forall (λ l, l < length h)%nat stack →
  (length stack ≤ length h)%nat.
Proof.
  intros Hnodup Hvalid.
  transitivity (length (seq 0 (length h))); [|by rewrite length_seq].
  apply submseteq_length, NoDup_submseteq; [done|].
  intros l Hl. rewrite Forall_forall in Hvalid.
  apply elem_of_seq. specialize (Hvalid _ Hl). lia.
Qed.

(** The objects being serialized are distinct cells, so the walk is never
    deeper than the heap is long: beyond that, more fuel changes nothing. *)
Lemma serialize_fuel_irrelevant (h : heap) (fuel : nat) :
  ∀ (fuel' : nat) (stack : list loc) (v : value),
    NoDup stack →
    Forall (λ l, l < length h)%nat stack →
    (length h < fuel + length stack)%nat →
    (length h < fuel' + length stack)%nat →
    SerializeJSONProperty fuel h stack v = SerializeJSONProperty fuel' h stack v.
Proof.
  induction fuel as [|fuel IH]; intros fuel' stack v Hnodup Hvalid Hf Hf'.
  { pose proof (stack_is_short h stack Hnodup Hvalid). simpl in Hf. lia. }
  destruct fuel' as [|fuel'].
  { pose proof (stack_is_short h stack Hnodup Hvalid). simpl in Hf'. lia. }
  destruct v as [| | | | |l]; try done. simpl.
  destruct (bool_decide (l ∈ stack)) eqn:Hin; [done|].
  apply bool_decide_eq_false in Hin.
  destruct (h !! l) as [c|] eqn:Hl; [|done].
  assert (∀ v, SerializeJSONProperty fuel h (l :: stack) v
               = SerializeJSONProperty fuel' h (l :: stack) v) as Hext.
  { intros v. apply IH.
    - by constructor.
    - constructor; [by eapply lookup_lt_Some|done].
    - simpl. lia.
    - simpl. lia. }
  destruct c as [props|elems].
  - by rewrite (serialize_members_ext _ _ _ _ Hext).
  - by rewrite (serialize_items_ext _ _ _ Hext).
Qed.

Lemma JSON_stringify_fuel_enough (h : heap) (v : value) (extra : nat) :
  SerializeJSONProperty (S (length h) + extra) h [] v = JSON_stringify h v.
Proof.
  unfold JSON_stringify. apply serialize_fuel_irrelevant.
  - constructor.
  - constructor.
  - simpl. lia.
  - simpl. lia.
Qed.

(** ** C1 *)

Lemma lookup_prop_elem_of (props : list (string * value)) (p : string) (x : value) :
  lookup_prop props p = Some x → p ∈ props.*1.
Proof.
  induction props as [|[k w] props IH]; simpl; [done|].
  destruct (String.eqb k p) eqn:E.
  - apply String.eqb_eq in E as ->. intros _. left.
  - intros Hx. right. by apply IH.
Qed.

Lemma lookup_prop_own_keys (props : list (string * value)) (p : string) (x : value) :
  lookup_prop props p = Some x → p ∈ own_keys props.
Proof.
  intros Hp%lookup_prop_elem_of. by rewrite own_keys_permutation.
Qed.

Lemma serialize_members_ok (f : value → option (option json))
    (props : list (string * value)) (keys : list string) :
  serialize_members f props keys ≠ None →
  ∀ k, k ∈ keys → f (get_prop props k) ≠ None.
Proof.
  induction keys as [|k' keys IH]; simpl; intros Hser k Hk.
  { by apply elem_of_nil in Hk. }
  destruct (f (get_prop props k')) as [[j|]|] eqn:E; [| |done].
  - apply elem_of_cons in Hk as [->|Hk]; [by rewrite E|].
    apply IH; [|done]. by destruct (serialize_members f props keys).
  - apply elem_of_cons in Hk as [->|Hk]; [by rewrite E|]. by apply IH.
Qed.

(** In a Document that [JSON.stringify] accepts, a path through mappings
    never comes back to a mapping it has been through. *)
Lemma serializable_path_NoDup (h : heap) (properties : list string) :
  ∀ (fuel : nat) (stack : list loc) (object : value) (locs : list loc),
    SerializeJSONProperty fuel h stack object ≠ None →
    mappings_along h object properties = Some locs →
    NoDup locs ∧ Forall (λ l, l ∉ stack) locs.
Proof.
  induction properties as [|p rest IH]; intros fuel stack object locs Hser Hpath.
  { injection Hpath as <-. split; constructor. }
  simpl in Hpath.
  destruct object as [| | | | |l]; try done.
  destruct (h !! l) as [[props|]|] eqn:Hl; try done.
  destruct (mappings_along h (get_prop props p) rest) as [ls|] eqn:Hrest; [|done].
  injection Hpath as <-.
  destruct fuel as [|fuel]; [done|]. simpl in Hser.
  destruct (bool_decide (l ∈ stack)) eqn:Hstack; [done|].
  apply bool_decide_eq_false in Hstack.
  rewrite Hl in Hser.
  assert (SerializeJSONProperty fuel h (l :: stack) (get_prop props p) ≠ None)
    as Hchild.
  { unfold get_prop. destruct (lookup_prop props p) as [x|] eqn:Hp.
    - change x with (default VUndefined (Some x)). rewrite <- Hp.
      apply (serialize_members_ok _ props (own_keys props)).
      + by destruct (serialize_members _ props (own_keys props)).
      + by eapply lookup_prop_own_keys.
    - by destruct fuel. }
  destruct (IH fuel (l :: stack) _ _ Hchild Hrest) as [Hnodup Hfresh].
  split.
  - constructor; [|done]. intros Hin.
    rewrite Forall_forall in Hfresh. apply (Hfresh _ Hin). left.
  - constructor; [done|].
    eapply Forall_impl; [exact Hfresh|]. simpl. intros l' Hl' Hin.
    apply Hl'. by right.
Qed.

(** Along a path through distinct mappings, the write of
    [setNestedProperty] lands in the last mapping, and the read of
    [getNestedProperty] in the new heap finds the value there. *)
Lemma set_then_get (h : heap) (v : value) (p : string) (pre : list string) :
  p ≠ "__proto__" →
  ∀ (object : value) (locs : list loc),
    mappings_along h object (pre ++ [p]) = Some locs →
    NoDup locs →
    ∃ l props,
      h !! l = Some (Obj props)
      ∧ set_loop h object (pre ++ [p]) v
        = Ok (<[l := Obj (set_prop props p v)]> h)
      ∧ get_loop (<[l := Obj (set_prop props p v)]> h) object (pre ++ [p]) = Ok v
      ∧ get_loop (<[l := Obj (set_prop props p v)]> h) object pre = Ok (VRef l)
      ∧ l ∈ locs.
Proof.
  intros Hp.
  induction pre as [|q pre IH]; intros object locs Hpath Hnodup; simpl in Hpath.
  - destruct object as [| | | | |l]; try done.
    destruct (h !! l) as [[props|]|] eqn:Hl; try done.
    injection Hpath as <-.
    exists l, props. simpl. rewrite Hl, (SetV_guard props p (λ _, Hp)).
    rewrite (lookup_updated _ _ _ _ Hl), get_set_prop_eq.
    split_and!; try done. left.
  - destruct object as [| | | | |l]; try done.
    destruct (h !! l) as [[props|]|] eqn:Hl; try done.
    destruct (mappings_along h (get_prop props q) (pre ++ [p])) as [ls|] eqn:Hrest;
      [|done].
    injection Hpath as <-.
    apply NoDup_cons in Hnodup as [Hnotin Hnodup].
    destruct (IH _ _ Hrest Hnodup) as (l' & props' & Hl' & Hset & Hget & Hpar & Hin).
    assert (l ≠ l') as Hne by (intros ->; done).
    exists l', props'. split_and!; [done|..|by right].
    + change (set_loop h (VRef l) ((q :: pre) ++ [p]) v)
        with (set_loop h (VRef l) (q :: (pre ++ [p])) v).
      destruct (pre ++ [p]) as [|r rs] eqn:E; [by destruct pre|].
      simpl. rewrite Hl. exact Hset.
    + simpl. rewrite list_lookup_insert_ne by done. rewrite Hl. exact Hget.
    + simpl. rewrite list_lookup_insert_ne by done. rewrite Hl. exact Hpar.
Qed.

Lemma list_snoc_inv {A} (xs : list A) : xs ≠ [] → ∃ pre x, xs = pre ++ [x].
Proof.
  intros Hxs. destruct (exists_last Hxs) as (pre & x & ->). eauto.
Qed.

(** C1, as the code has it.  In a Document that is serializable (a tree:
    no mapping is met again below itself), for a path whose segments
    before the last all resolve to existing mappings and whose last
    segment is not [__proto__]: after [set(k, v)], [get(k)] returns [v]
    itself, and the parent path resolves to a mapping that holds [v] under
    the last segment (after [set("a.b", 1)], [get("a")] is a mapping with
    [b: 1]). *)
Theorem get_after_set
    (s : state) (key : string) (v : value) (locs : list loc) :
  mappings_along (heap_of (env s)) (data s) (split "." key) = Some locs →
  JSON_stringify (heap_of (env s)) (data s) ≠ None →
  last (split "." key) ≠ Some "__proto__" →
  let s' := after (MyJsonDatabase.set key v) s in
  MyJsonDatabase.get key s' = (Ok v, s')
  ∧ ∀ parent p,
      split "." key = split "." parent ++ [p] →
      ∃ l props,
        MyJsonDatabase.get parent s' = (Ok (VRef l), s')
        ∧ heap_of (env s') !! l = Some (Obj props)
        ∧ lookup_prop props p = Some v.
Proof.
  intros Hpath Hser Hlast s'.
  destruct (serializable_path_NoDup _ _ _ _ _ _ Hser Hpath) as [Hnodup _].
  destruct (list_snoc_inv (split "." key) (split_not_nil _ _)) as (pre & p & Hsplit).
  rewrite Hsplit in Hpath, Hlast.
  assert (p ≠ "__proto__") as Hp.
  { intros ->. by rewrite last_snoc in Hlast. }
  destruct (set_then_get _ v _ _ Hp _ _ Hpath Hnodup)
    as (l & props & Hl & Hset & Hget & Hpar & _).
  set (h' := <[l := Obj (set_prop props p v)]> (heap_of (env s))) in *.
  assert (heap_of (env s') = h' ∧ data s' = data s) as [Hh' Hd'].
  { subst s'. unfold after, MyJsonDatabase.set, setNestedProperty.
    step (this_data_spec s).
    erewrite (bind_Ok (let* h := get_heap in _)); cycle 1.
    { step (get_heap_spec s). rewrite Hsplit, Hset.
      step (lift_spec (Ok h') s). apply put_heap_spec. }
    destruct (save_preserves (with_heap_of s h')) as [E1 E2].
    unfold after in E1, E2. by rewrite E1, E2. }
  assert (∀ k ps r, split "." k = ps → get_loop h' (data s) ps = Ok r →
                    MyJsonDatabase.get k s' = (Ok r, s')) as Hgetk.
  { intros k ps r Hk Hr. unfold MyJsonDatabase.get, getNestedProperty.
    step (this_data_spec s'). step (get_heap_spec s').
    by rewrite Hk, Hh', Hd', Hr. }
  split.
  - by apply (Hgetk key (pre ++ [p]) v).
  - intros parent q Hparent. rewrite Hsplit in Hparent.
    apply app_inj_tail in Hparent as [Hpre <-].
    exists l, (set_prop props p v). split_and!.
    + by apply (Hgetk parent pre (VRef l)).
    + rewrite Hh'. by eapply lookup_updated.
    + apply lookup_set_prop_eq.
Qed.

(** * Further properties of the code *)

(** ** Reading: [getNestedProperty], [get], [has] *)

Lemma get_loop_falsy (h : heap) (v : value) (properties : list string) :
  ToBoolean v = false → get_loop h v properties = Ok v.
Proof.
  intros Hv. induction properties as [|p rest IH]; simpl; [done|].
  by rewrite Hv.
Qed.

Lemma get_loop_app (h : heap) (v : value) (pre rest : list string) :
  get_loop h v (pre ++ rest)
  = match get_loop h v pre with
    | Ok v' => get_loop h v' rest
    | Throw e => Throw e
    | Unsupported => Unsupported
    end.
Proof.
  revert v. induction pre as [|p pre IH]; intros v; simpl; [done|].
  destruct (ToBoolean v); [|apply IH].
  destruct (GetV h v p); auto.
Qed.

Lemma GetV_closed (h : heap) (v : value) (p : string) :
  closed_heap h → closed_value h v → ToBoolean v = true →
  ∃ v', GetV h v p = Ok v' ∧ closed_value h v'.
Proof.
  intros Hh Hv Ht. destruct v as [| |b|n|str|l]; simpl in *; try done.
  - by eexists.
  - by eexists.
  - destruct (String.eqb p "length"); [by eexists|].
    destruct (array_index p) as [i|]; [|by eexists].
    unfold char_at. destruct (String.get _ str); by eexists.
  - destruct Hv as [c Hc]. rewrite Hc. specialize (Hh _ _ Hc).
    rewrite Forall_forall in Hh. destruct c as [props|elems]; simpl in Hh.
    + eexists; split; [done|]. unfold get_prop.
      destruct (lookup_prop props p) as [x|] eqn:Hp; simpl; [|done].
      apply Hh. clear Hh Hc.
      induction props as [|[k w] props IH]; simpl in *; [done|].
      destruct (String.eqb k p); [injection Hp as ->; left|right; auto].
    + destruct (String.eqb p "length"); [by eexists|].
      destruct (array_index p) as [i|]; [|by eexists].
      eexists; split; [done|].
      destruct (elems !! N.to_nat i) as [x|] eqn:Hx; simpl; [|done].
      apply Hh. by eapply list_elem_of_lookup_2.
Qed.

Lemma get_loop_closed (h : heap) (properties : list string) :
  closed_heap h →
  ∀ v, closed_value h v →
       ∃ v', get_loop h v properties = Ok v' ∧ closed_value h v'.
Proof.
  intros Hh. induction properties as [|p rest IH]; intros v Hv; simpl.
  { eauto. }
  destruct (ToBoolean v) eqn:Ht; [|by apply IH].
  destruct (GetV_closed h v p Hh Hv Ht) as (v' & -> & Hv'). by apply IH.
Qed.

(** X1. Reading never fails: whatever the Document (a mapping, a
    sequence, a primitive or [null]), for a key none of whose segments is
    the name of a built-in property, on a heap without dangling references
    [get] returns a value of the Document and [has] a boolean, and the
    state is what it was. *)
Theorem get_always_returns (s : state) (key : string) :
  closed_heap (heap_of (env s)) →
  closed_value (heap_of (env s)) (data s) →
  Forall (λ p, builtin_name p = false) (split "." key) →
  ∃ v, MyJsonDatabase.get key s = (Ok v, s)
       ∧ MyJsonDatabase.has key s = (Ok (not_nullish v), s)
       ∧ closed_value (heap_of (env s)) v.
Proof.
  intros Hh Hd _.
  destruct (get_loop_closed _ (split "." key) Hh _ Hd) as (v & Hv & Hcl).
  exists v. unfold MyJsonDatabase.get, MyJsonDatabase.has, getNestedProperty.
  run. by rewrite Hv.
Qed.

(** X2. The read stops at the first falsy value on the path and returns
    that value, not [undefined]: below a key holding [0], [false] or the
    empty string every path reads as that value, and [has] answers [true]
    for it; below [null] or a missing key it reads [null] or [undefined]
    and [has] answers [false]. *)
Theorem get_returns_first_falsy_value
    (s : state) (key : string) (pre rest : list string) (v : value) :
  split "." key = pre ++ rest →
  get_loop (heap_of (env s)) (data s) pre = Ok v →
  ToBoolean v = false →
  MyJsonDatabase.get key s = (Ok v, s)
  ∧ MyJsonDatabase.has key s = (Ok (not_nullish v), s).
Proof.
  intros Hsplit Hpre Hv.
  assert (get_loop (heap_of (env s)) (data s) (split "." key) = Ok v) as Hget.
  { by rewrite Hsplit, get_loop_app, Hpre, get_loop_falsy. }
  unfold MyJsonDatabase.get, MyJsonDatabase.has, getNestedProperty.
  run. by rewrite Hget.
Qed.

(** ** Writing: [setNestedProperty], [set] *)

(** X3. A write through an existing primitive is dropped without an
    error: when the path before the last segment resolves to a number, a
    string or a boolean, [set] changes nothing in memory and goes on to
    [save] as if it had written. *)
Theorem set_through_primitive_is_dropped
    (s : state) (key : string) (v : value)
    (pre : list string) (p : string) (parent : value) :
  split "." key = pre ++ [p] →
  walk (heap_of (env s)) (data s) pre = Ok parent →
  is_primitive parent = true →
  not_nullish parent = true →
  MyJsonDatabase.set key v s = MyJsonDatabase.save s.
Proof.
  intros Hsplit Hwalk Hprim Hnn.
  unfold MyJsonDatabase.set.
  step (this_data_spec s).
  erewrite (bind_Ok (setNestedProperty _ _ _)); [done|].
  unfold setNestedProperty.
  step (get_heap_spec s).
  rewrite Hsplit, set_loop_app, Hwalk by done.
  assert (set_loop (heap_of (env s)) parent [p] v = Ok (heap_of (env s))) as ->.
  { by destruct parent. }
  step (lift_spec (Ok (heap_of (env s))) s).
  by rewrite put_heap_spec, with_heap_of_same.
Qed.

Lemma get_spec (s : state) (key : string) :
  MyJsonDatabase.get key s
  = (get_loop (heap_of (env s)) (data s) (split "." key), s).
Proof. reflexivity. Qed.

Lemma has_spec (s : state) (key : string) :
  MyJsonDatabase.has key s
  = (match get_loop (heap_of (env s)) (data s) (split "." key) with
     | Ok v => Ok (not_nullish v)
     | Throw e => Throw e
     | Unsupported => Unsupported
     end, s).
Proof.
  unfold MyJsonDatabase.has, getNestedProperty. run.
  by destruct (get_loop _ _ _).
Qed.

(** The state after an operation that ends with [save]: the heap and the
    Document are those [save] was given. *)
Lemma after_save_heap (s1 : state) :
  heap_of (env (after MyJsonDatabase.save s1)) = heap_of (env s1).
Proof. apply save_preserves. Qed.

Lemma after_save_data (s1 : state) :
  data (after MyJsonDatabase.save s1) = data s1.
Proof. apply save_preserves. Qed.

Lemma after_eq {A} (m m' : M A) (s s1 : state) :
  m s = m' s1 → after m s = after m' s1.
Proof. unfold after. by intros ->. Qed.

Lemma set_prop_keys_present (props : list (string * value)) (p : string) (v : value) :
  is_Some (lookup_prop props p) → (set_prop props p v).*1 = props.*1.
Proof.
  induction props as [|[k w] props IH]; simpl.
  { by intros [? ?]. }
  destruct (String.eqb k p); simpl; [done|]. intros Hp. f_equal. by apply IH.
Qed.

Lemma set_top_level (s : state) (l : loc) (props : list (string * value))
    (key : string) (v : value) :
  data s = VRef l →
  heap_of (env s) !! l = Some (Obj props) →
  split "." key = [key] →
  key ≠ "__proto__" →
  MyJsonDatabase.set key v s
  = MyJsonDatabase.save
      (with_heap_of s (<[l := Obj (set_prop props key v)]> (heap_of (env s)))).
Proof.
  intros Hd Hl Hsplit Hkey. unfold MyJsonDatabase.set.
  step (this_data_spec s).
  erewrite (bind_Ok (setNestedProperty _ _ _)); [done|].
  unfold setNestedProperty. step (get_heap_spec s).
  rewrite Hsplit, Hd. simpl. rewrite Hl, (SetV_guard props key (λ _, Hkey)).
  step (lift_spec (Ok (<[l := Obj (set_prop props key v)]> (heap_of (env s)))) s).
  apply put_heap_spec.
Qed.

(** X4. [set] on a top-level key (a key without a dot, other than
    [__proto__]) of a mapping writes that key only: every other top-level
    key that the Document owns or that is no name of [Object.prototype]
    reads as before, a key that existed keeps its place in the order of
    insertion and a new key comes last in it. *)
Theorem set_top_level_key_only
    (s : state) (l : loc) (props : list (string * value))
    (key : string) (v : value) :
  data s = VRef l →
  heap_of (env s) !! l = Some (Obj props) →
  split "." key = [key] →
  key ≠ "__proto__" →
  let s' := after (MyJsonDatabase.set key v) s in
  heap_of (env s') !! l = Some (Obj (set_prop props key v))
  ∧ (∀ other, split "." other = [other] → other ≠ key →
       (lookup_prop props other = None → inherited_name other = false) →
       MyJsonDatabase.get other s' = (Ok (get_prop props other), s'))
  ∧ (is_Some (lookup_prop props key) → (set_prop props key v).*1 = props.*1)
  ∧ (lookup_prop props key = None →
     (set_prop props key v).*1 = props.*1 ++ [key]).
Proof.
  intros Hd Hl Hsplit Hkey s'.
  assert (heap_of (env s') !! l = Some (Obj (set_prop props key v))
          ∧ data s' = VRef l) as [Hl' Hd'].
  { subst s'.
    rewrite (after_eq _ _ _ _ (set_top_level s l props key v Hd Hl Hsplit Hkey)).
    rewrite after_save_heap, after_save_data. simpl.
    split; [by eapply lookup_updated|done]. }
  split_and!.
  - done.
  - intros other Hother Hne _. rewrite get_spec, Hother, Hd'. simpl.
    rewrite Hl'. unfold get_prop. by rewrite lookup_set_prop_ne.
  - apply set_prop_keys_present.
  - intros Hp. rewrite set_prop_absent by done.
    by rewrite fmap_app.
Qed.

(** ** [delete] *)

Lemma delete_prop_cons (k : string) (w : value) (props : list (string * value))
    (p : string) :
  delete_prop ((k, w) :: props) p
  = if String.eqb k p then delete_prop props p
    else (k, w) :: delete_prop props p.
Proof.
  unfold delete_prop. rewrite filter_cons. simpl.
  by destruct (String.eqb k p).
Qed.

Lemma lookup_delete_prop_eq (props : list (string * value)) (p : string) :
  lookup_prop (delete_prop props p) p = None.
Proof.
  induction props as [|[k w] props IH]; [done|].
  rewrite delete_prop_cons. destruct (String.eqb k p) eqn:E; [done|].
  simpl. by rewrite E.
Qed.

Lemma lookup_delete_prop_ne (props : list (string * value)) (p q : string) :
  p ≠ q → lookup_prop (delete_prop props p) q = lookup_prop props q.
Proof.
  intros Hne. induction props as [|[k w] props IH]; [done|].
  rewrite delete_prop_cons. simpl. destruct (String.eqb k p) eqn:E.
  - apply String.eqb_eq in E as ->.
    apply String.eqb_neq in Hne. by rewrite Hne.
  - simpl. by rewrite IH.
Qed.

Lemma delete_prop_absent (props : list (string * value)) (p : string) :
  lookup_prop props p = None → delete_prop props p = props.
Proof.
  induction props as [|[k w] props IH]; [done|].
  rewrite delete_prop_cons. simpl. destruct (String.eqb k p); [done|].
  intros Hp. by rewrite IH.
Qed.

Lemma delete_prop_keys (props : list (string * value)) (p : string) :
  (delete_prop props p).*1 = filter (λ k, k ≠ p) props.*1.
Proof.
  induction props as [|[k w] props IH]; [done|].
  rewrite delete_prop_cons, fmap_cons, filter_cons. simpl.
  destruct (String.eqb k p) eqn:E.
  - apply String.eqb_eq in E as ->. by rewrite decide_False by (by intros []).
  - apply String.eqb_neq in E. rewrite decide_True by done.
    by rewrite fmap_cons, IH.
Qed.

Lemma delete_mapping (s : state) (l : loc) (props : list (string * value))
    (key : string) :
  data s = VRef l →
  heap_of (env s) !! l = Some (Obj props) →
  MyJsonDatabase.delete key s
  = MyJsonDatabase.save
      (with_heap_of s (<[l := Obj (delete_prop props key)]> (heap_of (env s)))).
Proof.
  intros Hd Hl. unfold MyJsonDatabase.delete.
  erewrite (bind_Ok (MyJsonDatabase.delete_property _)); [done|].
  unfold MyJsonDatabase.delete_property.
  step (this_data_spec s). step (get_heap_spec s).
  rewrite Hd, Hl. apply put_heap_spec.
Qed.

(** X5. [delete] on a mapping removes the top-level property whose name is
    the whole key, dots included, and nothing else: afterwards that name
    is absent (so that [get] and [has] of a name without a dot that
    [Object.prototype] does not define report it absent), every other
    top-level key has its value and the remaining keys keep their order;
    when no property has that name (an absent key, or a dotted path such
    as the one [set] wrote through) the Document is left as it is and
    [delete] goes on to [save]. *)
Theorem delete_removes_top_level_name
    (s : state) (l : loc) (props : list (string * value)) (key : string) :
  data s = VRef l →
  heap_of (env s) !! l = Some (Obj props) →
  let s' := after (MyJsonDatabase.delete key) s in
  heap_of (env s') !! l = Some (Obj (delete_prop props key))
  ∧ lookup_prop (delete_prop props key) key = None
  ∧ (∀ other, other ≠ key →
       lookup_prop (delete_prop props key) other = lookup_prop props other)
  ∧ (delete_prop props key).*1 = filter (λ k, k ≠ key) props.*1
  ∧ (split "." key = [key] →
     inherited_name key = false →
     MyJsonDatabase.get key s' = (Ok VUndefined, s')
     ∧ MyJsonDatabase.has key s' = (Ok false, s'))
  ∧ (lookup_prop props key = None →
     MyJsonDatabase.delete key s = MyJsonDatabase.save s).
Proof.
  intros Hd Hl s'.
  assert (heap_of (env s') !! l = Some (Obj (delete_prop props key))
          ∧ data s' = VRef l) as [Hl' Hd'].
  { subst s'. rewrite (after_eq _ _ _ _ (delete_mapping s l props key Hd Hl)).
    rewrite after_save_heap, after_save_data. simpl.
    split; [by eapply lookup_updated|done]. }
  split_and!.
  - done.
  - apply lookup_delete_prop_eq.
  - intros other Hne. by apply lookup_delete_prop_ne.
  - apply delete_prop_keys.
  - intros Hsplit _. rewrite get_spec, has_spec, Hsplit, Hd'. simpl.
    rewrite Hl'. unfold get_prop. by rewrite lookup_delete_prop_eq.
  - intros Hp. rewrite (delete_mapping s l props key Hd Hl).
    by rewrite delete_prop_absent, list_insert_id, with_heap_of_same.
Qed.

(** ** The operations that take the key as a top-level name *)

Lemma split_first_shorter (sep : ascii) (key p q : string) (rest : list string) :
  split sep key = p :: q :: rest → (String.length p < String.length key)%nat.
Proof.
  revert p q rest. induction key as [|c key IH]; intros p q rest; simpl; [done|].
  destruct (Ascii.eqb c sep).
  - intros [= <- _]. simpl. lia.
  - destruct (split sep key) as [|w ws] eqn:E; [done|].
    intros [= <- ->]. simpl. specialize (IH _ _ _ eq_refl). lia.
Qed.

Lemma push_sequence (s : state) (l : loc) (props : list (string * value))
    (key : string) (la : loc) (elems : list value) (element : value) :
  data s = VRef l →
  heap_of (env s) !! l = Some (Obj props) →
  get_prop props key = VRef la →
  heap_of (env s) !! la = Some (Arr elems) →
  MyJsonDatabase.push key element s
  = MyJsonDatabase.save
      (with_heap_of s (<[la := Arr (elems ++ [element])]> (heap_of (env s)))).
Proof.
  intros Hd Hl Hk Ha. unfold MyJsonDatabase.push.
  step (read_data_mapping s l props key Hd Hl).
  rewrite Hk. simpl negb. cbv iota.
  step (ret_spec () s).
  step (read_data_mapping s l props key Hd Hl). rewrite Hk.
  by step (method_push_array s la elems element Ha).
Qed.

Lemma push_initializes (s : state) (l : loc) (props : list (string * value))
    (key : string) (element : value) :
  data s = VRef l →
  heap_of (env s) !! l = Some (Obj props) →
  ToBoolean (get_prop props key) = false →
  (lookup_prop props key = None → key ≠ "__proto__") →
  MyJsonDatabase.push key element s
  = MyJsonDatabase.save
      (with_heap_of s
         (<[length (heap_of (env s)) := Arr [element]]>
            (<[l := Obj (set_prop props key (VRef (length (heap_of (env s)))))]>
               (heap_of (env s) ++ [Arr []])))).
Proof.
  intros Hd Hl Hcur Hw. unfold MyJsonDatabase.push.
  step (read_data_mapping s l props key Hd Hl).
  rewrite Hcur. simpl negb. cbv iota.
  step (initialize_sequence s l props key Hd Hl Hcur Hw).
  set (h := heap_of (env s)). set (s1 := with_heap_of s _).
  assert (l < length h)%nat as Hlt by by eapply lookup_lt_Some.
  assert (heap_of (env s1) !! l
          = Some (Obj (set_prop props key (VRef (length h))))) as Hl1.
  { subst s1. simpl. apply list_lookup_insert_eq.
    rewrite length_app. simpl. lia. }
  step (read_data_mapping s1 l _ key Hd Hl1).
  rewrite get_set_prop_eq.
  assert (heap_of (env s1) !! length h = Some (Arr [])) as Ha.
  { subst s1. simpl. rewrite list_lookup_insert_ne by lia.
    by rewrite lookup_app_r, Nat.sub_diag. }
  step (method_push_array s1 (length h) [] element Ha).
  by subst s1.
Qed.

(** X6. [push] and [add] take the whole key as the name of a top-level
    property, while [get] and [has] split it at the dots: with a dotted
    key whose first segment is neither a key of the Document nor a name of
    [Object.prototype], the value they store under the dotted name is
    there, and [get] of the same key reads [undefined] and [has] answers
    [false]. *)
Theorem dotted_key_written_not_read
    (s : state) (l : loc) (props : list (string * value))
    (key : string) (p q : string) (rest : list string) (arg : value) :
  data s = VRef l →
  heap_of (env s) !! l = Some (Obj props) →
  split "." key = p :: q :: rest →
  lookup_prop props p = None →
  inherited_name p = false →
  lookup_prop props key = None →
  (let s' := after (MyJsonDatabase.push key arg) s in
   (∃ props' la,
      heap_of (env s') !! l = Some (Obj props')
      ∧ lookup_prop props' key = Some (VRef la)
      ∧ heap_of (env s') !! la = Some (Arr [arg]))
   ∧ MyJsonDatabase.get key s' = (Ok VUndefined, s')
   ∧ MyJsonDatabase.has key s' = (Ok false, s'))
  ∧ (is_primitive arg = true →
     let s' := after (MyJsonDatabase.add key arg) s in
     (∃ props' v,
        heap_of (env s') !! l = Some (Obj props')
        ∧ lookup_prop props' key = Some v
        ∧ is_primitive v = true ∧ v ≠ VUndefined)
     ∧ MyJsonDatabase.get key s' = (Ok VUndefined, s')
     ∧ MyJsonDatabase.has key s' = (Ok false, s')).
Proof.
  intros Hd Hl Hsplit Hp _ Hkey.
  assert (key ≠ p) as Hne.
  { intros ->. apply split_first_shorter in Hsplit. lia. }
  assert (ToBoolean (get_prop props key) = false) as Hcur.
  { unfold get_prop. by rewrite Hkey. }
  assert (l < length (heap_of (env s)))%nat as Hlt by by eapply lookup_lt_Some.
  assert (lookup_prop props key = None → key ≠ "__proto__") as Hw.
  { intros _ ->. by vm_compute in Hsplit. }
  assert (∀ s' props',
            data s' = VRef l →
            heap_of (env s') !! l = Some (Obj props') →
            lookup_prop props' p = None →
            MyJsonDatabase.get key s' = (Ok VUndefined, s')
            ∧ MyJsonDatabase.has key s' = (Ok false, s')) as Hread.
  { intros s' props' Hd' Hl' Hp'.
    rewrite get_spec, has_spec, Hsplit, Hd'.
    change (get_loop (heap_of (env s')) (VRef l) (p :: q :: rest))
      with (match GetV (heap_of (env s')) (VRef l) p with
            | Ok v => get_loop (heap_of (env s')) v (q :: rest)
            | Throw e => Throw e
            | Unsupported => Unsupported
            end).
    simpl GetV. rewrite Hl'. unfold get_prop. rewrite Hp'. simpl default.
    by rewrite get_loop_falsy. }
  split.
  - intros s'.
    assert (heap_of (env s')
            = <[length (heap_of (env s)) := Arr [arg]]>
                (<[l := Obj (set_prop props key (VRef (length (heap_of (env s)))))]>
                   (heap_of (env s) ++ [Arr []]))
            ∧ data s' = VRef l) as [Hh' Hd'].
    { subst s'. rewrite (after_eq _ _ _ _ (push_initializes s l props key arg Hd Hl Hcur Hw)).
      by rewrite after_save_heap, after_save_data. }
    assert (heap_of (env s') !! l
            = Some (Obj (set_prop props key (VRef (length (heap_of (env s)))))))
      as Hl'.
    { rewrite Hh'. rewrite list_lookup_insert_ne by lia.
      apply list_lookup_insert_eq. rewrite length_app. simpl. lia. }
    split.
    + eexists _, _. split_and!; [exact Hl'|apply lookup_set_prop_eq|].
      rewrite Hh'. apply list_lookup_insert_eq.
      rewrite length_insert, length_app. simpl. lia.
    + apply (Hread s' _ Hd' Hl'). by rewrite lookup_set_prop_ne.
  - intros Harg s'.
    assert (∃ v, js_plus (<[l := Obj (set_prop props key (VNumber (num_of_N 0)))]>
                            (heap_of (env s))) (VNumber (num_of_N 0)) arg = Ok v
                 ∧ is_primitive v = true ∧ v ≠ VUndefined) as (v & Hv & Hprim & Hdef).
    { unfold js_plus. rewrite (ToPrimitive_primitive _ _ Harg). simpl.
      eexists. split; [done|]. by destruct (is_string _). }
    assert (heap_of (env s') = <[l := Obj (set_prop props key v)]> (heap_of (env s))
            ∧ data s' = VRef l) as [Hh' Hd'].
    { subst s'. unfold MyJsonDatabase.add.
      pose proof (accumulate_mapping js_plus s l props key arg Hd Hl Hw) as Hadd.
      cbv zeta in Hadd. rewrite Hcur, Hv in Hadd.
      rewrite (after_eq _ _ _ _ Hadd).
      by rewrite after_save_heap, after_save_data. }
    assert (heap_of (env s') !! l = Some (Obj (set_prop props key v))) as Hl'.
    { rewrite Hh'. by eapply lookup_updated. }
    split.
    + exists (set_prop props key v), v.
      split_and!; [exact Hl'|apply lookup_set_prop_eq|done..].
    + apply (Hread s' _ Hd' Hl'). by rewrite lookup_set_prop_ne.
Qed.

(** X7. On a key holding a sequence, [push] appends the element at the
    end of that same sequence, in place; and when the element is
    [=== ] to itself and to no element already there, [pullOne] of it
    right after gives the heap back as it was before the [push]. *)
Theorem push_appends_and_pullOne_undoes
    (s : state) (l : loc) (props : list (string * value))
    (key : string) (la : loc) (elems : list value) (element : value) :
  data s = VRef l →
  heap_of (env s) !! l = Some (Obj props) →
  get_prop props key = VRef la →
  heap_of (env s) !! la = Some (Arr elems) →
  let s1 := after (MyJsonDatabase.push key element) s in
  heap_of (env s1) = <[la := Arr (elems ++ [element])]> (heap_of (env s))
  ∧ data s1 = data s
  ∧ (strict_equals element element = true →
     Forall (λ x, strict_equals x element = false) elems →
     heap_of (env (after (MyJsonDatabase.pullOne key element) s1))
     = heap_of (env s)).
Proof.
  intros Hd Hl Hk Ha s1.
  assert (heap_of (env s1) = <[la := Arr (elems ++ [element])]> (heap_of (env s))
          ∧ data s1 = data s) as [Hh1 Hd1].
  { subst s1.
    rewrite (after_eq _ _ _ _ (push_sequence s l props key la elems element Hd Hl Hk Ha)).
    by rewrite after_save_heap, after_save_data. }
  split_and!; [done..|]. intros Hrefl Hnone.
  assert (l ≠ la) as Hne by (intros ->; congruence).
  assert (heap_of (env s1) !! l = Some (Obj props)) as Hl1.
  { rewrite Hh1. by rewrite list_lookup_insert_ne. }
  assert (heap_of (env s1) !! la = Some (Arr (elems ++ [element]))) as Ha1.
  { rewrite Hh1. by eapply lookup_updated. }
  rewrite Hd in Hd1.
  rewrite (after_eq _ _ _ _
             (pullOne_sequence s1 l props key Hd1 Hl1 la _ element Hk Ha1)).
  rewrite after_save_heap. simpl. rewrite Hh1, list_insert_insert_eq.
  assert (remove_first element (elems ++ [element]) = elems) as ->.
  { clear -Hrefl Hnone. induction Hnone as [|x xs Hx _ IH]; simpl.
    - by rewrite Hrefl.
    - by rewrite Hx, IH. }
  by apply list_insert_id.
Qed.

(** X12. On a key holding a number or a boolean that is truthy,
    [pullOne] throws a [TypeError] ([indexOf] is not a function of it)
    and changes nothing, while [pullMany] finds no [length], does not
    loop, and goes on to [save] as if it had worked. *)
Theorem pull_on_number_or_boolean
    (s : state) (l : loc) (props : list (string * value))
    (key : string) (element : value) :
  data s = VRef l →
  heap_of (env s) !! l = Some (Obj props) →
  ToBoolean (get_prop props key) = true →
  (∃ n, get_prop props key = VNumber n) ∨ (∃ b, get_prop props key = VBool b) →
  MyJsonDatabase.pullOne key element s = (Throw TypeError, s)
  ∧ MyJsonDatabase.pullMany key element s = MyJsonDatabase.save s.
Proof.
  intros Hd Hl Hcur Hkind. split.
  - unfold MyJsonDatabase.pullOne.
    step (read_data_mapping s l props key Hd Hl).
    rewrite Hcur. simpl negb. cbv iota.
    step (ret_spec () s).
    step (read_data_mapping s l props key Hd Hl).
    apply bind_Throw. by destruct Hkind as [[n ->]|[b ->]].
  - unfold MyJsonDatabase.pullMany.
    step (read_data_mapping s l props key Hd Hl).
    rewrite Hcur. simpl negb. cbv iota.
    step (ret_spec () s).
    step (read_data_mapping s l props key Hd Hl).
    erewrite (bind_Ok (MyJsonDatabase.pullMany_while _ _)); [done|].
    by destruct Hkind as [[n ->]|[b ->]].
Qed.

(** ** [clear], [clearAll] *)

Lemma clear_truthy (s : state) (l : loc) (props : list (string * value))
    (key : string) :
  data s = VRef l →
  heap_of (env s) !! l = Some (Obj props) →
  ToBoolean (get_prop props key) = true →
  MyJsonDatabase.clear key s
  = MyJsonDatabase.save
      (with_heap_of s
         (<[l := Obj (set_prop props key (VRef (length (heap_of (env s)))))]>
            (heap_of (env s) ++ [Obj []]))).
Proof.
  intros Hd Hl Hcur. unfold MyJsonDatabase.clear.
  step (read_data_mapping s l props key Hd Hl).
  rewrite Hcur. simpl negb. cbv iota.
  step (ret_spec () s).
  step (alloc_spec (Obj []) s).
  erewrite (bind_Ok (MyJsonDatabase.assign_data _ _)); [done|].
  rewrite (assign_data_mapping _ l props);
    [done | done | by apply lookup_app_l_Some
    | by intros ?%(lookup_prop_truthy _ _ Hcur)].
Qed.

(** X8. [clear] on a key holding a truthy value makes a new empty mapping
    and stores it under the key: the key keeps its place, the other keys
    their values, and the cells that were in the heap (the old value among
    them, which other references may still reach) are not written to. *)
Theorem clear_stores_new_empty_mapping
    (s : state) (l : loc) (props : list (string * value)) (key : string) :
  data s = VRef l →
  heap_of (env s) !! l = Some (Obj props) →
  ToBoolean (get_prop props key) = true →
  let h := heap_of (env s) in
  let s' := after (MyJsonDatabase.clear key) s in
  heap_of (env s') !! l = Some (Obj (set_prop props key (VRef (length h))))
  ∧ heap_of (env s') !! length h = Some (Obj [])
  ∧ (set_prop props key (VRef (length h))).*1 = props.*1
  ∧ (∀ other, other ≠ key →
       get_prop (set_prop props key (VRef (length h))) other = get_prop props other)
  ∧ (∀ l', l' ≠ l → (l' < length h)%nat → heap_of (env s') !! l' = h !! l').
Proof.
  intros Hd Hl Hcur h s'.
  assert (l < length h)%nat as Hlt by by eapply lookup_lt_Some.
  assert (heap_of (env s')
          = <[l := Obj (set_prop props key (VRef (length h)))]> (h ++ [Obj []]))
    as Hh'.
  { subst s'. rewrite (after_eq _ _ _ _ (clear_truthy s l props key Hd Hl Hcur)).
    by rewrite after_save_heap. }
  rewrite Hh'. split_and!.
  - apply list_lookup_insert_eq. rewrite length_app. simpl. lia.
  - rewrite list_lookup_insert_ne by lia.
    by rewrite lookup_app_r, Nat.sub_diag.
  - apply set_prop_keys_present. unfold get_prop in Hcur.
    by destruct (lookup_prop props key).
  - intros other Hne. unfold get_prop. by rewrite lookup_set_prop_ne.
  - intros l' Hne Hl'. rewrite list_lookup_insert_ne by done.
    by rewrite lookup_app_l.
Qed.

Lemma stringify_empty_mapping (h : heap) :
  JSON_stringify (h ++ [Obj []]) (VRef (length h)) = Some (Some (JObject [])).
Proof.
  unfold JSON_stringify. simpl.
  by rewrite lookup_app_r, Nat.sub_diag.
Qed.

(** X9. [clearAll] works from any state: whatever the Document was (a
    mapping, [null], a value [JSON.stringify] refuses), provided the
    backing path is not a directory the call returns normally, the
    Document is a new empty mapping, the backing file holds [{}], and the
    cells that were in the heap are untouched. *)
Theorem clearAll_from_any_state (s : state) :
  jsonFilePath s ∉ dirs (env s) →
  ∃ s', MyJsonDatabase.clearAll s = (Ok (), s')
        ∧ data s' = VRef (length (heap_of (env s)))
        ∧ heap_of (env s') = heap_of (env s) ++ [Obj []]
        ∧ files (env s')
          = <[jsonFilePath s := JSONText (JObject [])]> (files (env s)).
Proof.
  intros Hpath. unfold MyJsonDatabase.clearAll, MyJsonDatabase.save, writeFileSync.
  step (alloc_spec (Obj []) s). run.
  rewrite stringify_empty_mapping.
  rewrite bool_decide_eq_false_2 by done. eauto.
Qed.

(** ** A Document that is [null] *)

(** X11. When the Document is [null] (the constructor accepts a file
    holding [null]), every mutating operation but [clearAll] throws a
    [TypeError] and leaves the state as it was, [all] throws the same,
    every [get] returns [null] and every [has] answers [false]. *)
Theorem null_document_rejects_mutations (s : state) :
  data s = VNull →
  (∀ m, m ≠ ClearAll → perform m s = (Throw TypeError, s))
  ∧ MyJsonDatabase.all s = (Throw TypeError, s)
  ∧ (∀ key, MyJsonDatabase.get key s = (Ok VNull, s))
  ∧ (∀ key, MyJsonDatabase.has key s = (Ok false, s)).
Proof.
  intros Hd.
  assert (∀ key, MyJsonDatabase.read_data key s = (Throw TypeError, s)) as Hread.
  { intros key. unfold MyJsonDatabase.read_data. run. by rewrite Hd. }
  split_and!.
  - intros m Hm. destruct m; simpl; try done.
    + unfold MyJsonDatabase.set. step (this_data_spec s).
      apply bind_Throw. unfold setNestedProperty.
      step (get_heap_spec s). apply bind_Throw. rewrite Hd.
      destruct (split "." key) as [|p [|q rest]]; done.
    + unfold MyJsonDatabase.delete. apply bind_Throw.
      unfold MyJsonDatabase.delete_property. run. by rewrite Hd.
    + apply bind_Throw, Hread.
    + apply bind_Throw, Hread.
    + apply bind_Throw, Hread.
    + apply bind_Throw, Hread.
    + apply bind_Throw, Hread.
    + apply bind_Throw, Hread.
  - unfold MyJsonDatabase.all. run. by rewrite Hd.
  - intros key. by rewrite get_spec, Hd, get_loop_falsy.
  - intros key. by rewrite has_spec, Hd, get_loop_falsy.
Qed.

(** ** What the operations write outside the heap *)

Lemma same_outside_refl (s : state) : same_outside s s.
Proof. by repeat split. Qed.

Lemma same_outside_trans (s1 s2 s3 : state) :
  same_outside s1 s2 → same_outside s2 s3 → same_outside s1 s3.
Proof.
  intros (? & ? & ? & ?) (? & ? & ? & ?). repeat split; congruence.
Qed.

Lemma keeps_files_bind {A B} (m : M A) (k : A → M B) :
  keeps_files m → (∀ a, keeps_files (k a)) → keeps_files (bind m k).
Proof.
  intros Hm Hk s. specialize (Hm s). unfold after, bind in *.
  destruct (m s) as [[a| |] s1]; simpl in *; [|done..].
  destruct Hm as [Hf Ho]. destruct (Hk a s1) as [Hf' Ho'].
  unfold after in *. split; [congruence|]. by eapply same_outside_trans.
Qed.

Lemma writes_only_backing_file_bind {A B} (m : M A) (k : A → M B) :
  keeps_files m →
  (∀ a, writes_only_backing_file (k a)) →
  writes_only_backing_file (bind m k).
Proof.
  intros Hm Hk s. specialize (Hm s). unfold after, bind in *.
  destruct (m s) as [[a| |] s1]; simpl in *.
  - destruct Hm as [Hf Ho]. destruct (Hk a s1) as (Ho' & Hother & Hfail).
    unfold after in *.
    assert (jsonFilePath s1 = jsonFilePath s) as Hpath by apply Ho.
    split_and!.
    + by eapply same_outside_trans.
    + intros p Hp. rewrite Hother by congruence. by rewrite Hf.
    + intros Hnot. rewrite Hfail by done. done.
  - destruct Hm as [Hf Ho]. split_and!; [done|by intros; rewrite Hf|done].
  - destruct Hm as [Hf Ho]. split_and!; [done|by intros; rewrite Hf|done].
Qed.

Lemma keeps_files_ret {A} (a : A) : keeps_files (ret a).
Proof. intros s. by repeat split. Qed.

Lemma keeps_files_throw {A} (e : exn) : keeps_files (throw (A := A) e).
Proof. intros s. by repeat split. Qed.

Lemma keeps_files_lift {A} (r : result A) : keeps_files (lift r).
Proof. intros s. by repeat split. Qed.

Lemma keeps_files_get_heap : keeps_files get_heap.
Proof. intros s. by repeat split. Qed.

Lemma keeps_files_put_heap (h : heap) : keeps_files (put_heap h).
Proof. intros s. by repeat split. Qed.

Lemma keeps_files_this_data : keeps_files this_data.
Proof. intros s. by repeat split. Qed.

Lemma keeps_files_set_this_data (v : value) : keeps_files (set_this_data v).
Proof. intros s. by repeat split. Qed.

Lemma keeps_files_Call {A} (f : value) : keeps_files (Call (A := A) f).
Proof. intros s. by repeat split. Qed.

Ltac keeps :=
  repeat first
    [ apply keeps_files_ret | apply keeps_files_throw | apply keeps_files_lift
    | apply keeps_files_get_heap | apply keeps_files_put_heap
    | apply keeps_files_this_data | apply keeps_files_set_this_data
    | apply keeps_files_Call
    | apply keeps_files_bind; [|intros ?]
    | match goal with
      | |- keeps_files (match ?x with _ => _ end) => destruct x
      | |- keeps_files (let '(_, _) := ?x in _) => destruct x
      end ].

Lemma keeps_files_alloc (c : cell) : keeps_files (alloc c).
Proof. unfold alloc. keeps. Qed.

Lemma keeps_files_read_data (key : string) :
  keeps_files (MyJsonDatabase.read_data key).
Proof. unfold MyJsonDatabase.read_data. keeps. Qed.

Lemma keeps_files_assign_data (key : string) (v : value) :
  keeps_files (MyJsonDatabase.assign_data key v).
Proof. unfold MyJsonDatabase.assign_data. keeps. Qed.

Lemma keeps_files_method_push (recv element : value) :
  keeps_files (method_push recv element).
Proof. unfold method_push. keeps. Qed.

Lemma keeps_files_method_indexOf (recv element : value) :
  keeps_files (method_indexOf recv element).
Proof. unfold method_indexOf. keeps. Qed.

Lemma keeps_files_method_splice (recv : value) (i : nat) :
  keeps_files (method_splice recv i).
Proof. unfold method_splice. keeps. Qed.

Lemma keeps_files_pullMany_while (element v : value) :
  keeps_files (MyJsonDatabase.pullMany_while element v).
Proof. unfold MyJsonDatabase.pullMany_while. keeps. Qed.

Lemma keeps_files_setNestedProperty (object : value) (key : string) (v : value) :
  keeps_files (setNestedProperty object key v).
Proof. unfold setNestedProperty. keeps. Qed.

Lemma keeps_files_delete_property (key : string) :
  keeps_files (MyJsonDatabase.delete_property key).
Proof. unfold MyJsonDatabase.delete_property. keeps. Qed.

Lemma writes_only_backing_file_save :
  writes_only_backing_file MyJsonDatabase.save.
Proof.
  intros s. unfold after, MyJsonDatabase.save, writeFileSync. run.
  destruct (JSON_stringify _ _) as [[j|]|]; simpl;
    [|by split_and!; [apply same_outside_refl|..]..].
  destruct (bool_decide _); simpl.
  { by split_and!; [apply same_outside_refl|..]. }
  split_and!.
  - by repeat split.
  - intros p Hp. by rewrite lookup_insert_ne.
  - intros Hnot. by destruct (Hnot ()).
Qed.

Ltac writes :=
  repeat first
    [ apply writes_only_backing_file_save
    | apply writes_only_backing_file_bind; [|intros ?]
    | apply keeps_files_alloc | apply keeps_files_read_data
    | apply keeps_files_assign_data | apply keeps_files_method_push
    | apply keeps_files_method_indexOf | apply keeps_files_method_splice
    | apply keeps_files_pullMany_while | apply keeps_files_setNestedProperty
    | apply keeps_files_delete_property
    | progress keeps ].

(** X10. No mutating operation writes a file other than the backing file,
    makes a directory, sets a timer or changes the configuration; and an
    operation that does not return normally has not written the backing
    file either: the file still holds what the last successful [save]
    wrote, whatever the operation changed in memory before it threw. *)
Theorem mutations_write_only_backing_file (m : mutation) (s : state) :
  let s' := after (perform m) s in
  same_outside s s'
  ∧ (∀ p, p ≠ jsonFilePath s → files (env s') !! p = files (env s) !! p)
  ∧ ((perform m s).1 ≠ Ok () → files (env s') = files (env s)).
Proof.
  intros s'.
  assert (writes_only_backing_file (perform m)) as Hm.
  { destruct m; simpl;
      unfold MyJsonDatabase.set, MyJsonDatabase.delete, MyJsonDatabase.add,
        MyJsonDatabase.subtract, MyJsonDatabase.push, MyJsonDatabase.pullOne,
        MyJsonDatabase.pullMany, MyJsonDatabase.clear, MyJsonDatabase.clearAll;
      writes. }
  destruct (Hm s) as (Ho & Hother & Hfail). split_and!; [done..|].
  intros Hnot. apply Hfail. by intros [].
Qed.

(** ** The constructor *)

(** X13. Constructed without backups and without a path (the argument is
    missing or empty, or is the default path itself), when nothing exists
    at ["./my-database.json"] under any spelling of that path, the store
    creates that file holding [{}],
    its Document is a new empty mapping, it makes no directory and sets
    no timer. *)
Theorem constructor_creates_missing_file
    (w : world) (filePath : option string) (opts : option DatabaseOptions) :
  let p := path_or_default filePath in
  p = default_file_path →
  backups_enabled opts = None →
  nothing_at w p →
  MyJsonDatabase.constructor filePath opts w
  = (Ok (),
     {| env := {| heap_of := heap_of w ++ [Obj []];
                  files := <[p := JSONText (JObject [])]> (files w);
                  dirs := dirs w;
                  timers := timers w |};
        jsonFilePath := p;
        options := default {| backups := None |} opts;
        data := VRef (length (heap_of w)) |}).
Proof.
  intros p _ Hb Hfree. destruct (Hfree p eq_refl) as [Hfile Hdir].
  unfold MyJsonDatabase.constructor.
  fold (path_or_default filePath). fold p. cbv zeta.
  assert (∀ o, backups_enabled opts = None →
               default {| backups := None |} opts = o →
               match backups o with
               | Some b => enabled b = false
               | None => True
               end) as Hcase.
  { intros o Hnone <-. destruct opts as [[[b|]]|]; simpl in *; try done.
    by destruct (enabled b). }
  specialize (Hcase _ Hb eq_refl).
  destruct (backups (default {| backups := None |} opts)) as [b|];
    [rewrite Hcase|];
    unfold alloc, existsSync, writeFileSync; run;
    rewrite Hfile; simpl;
    rewrite (bool_decide_eq_false_2 _ Hdir); simpl;
    by rewrite (bool_decide_eq_false_2 _ Hdir).
Qed.

Lemma keeps_outside_bind {A B} (m : M A) (k : A → M B) :
  keeps_outside m → (∀ a, keeps_outside (k a)) → keeps_outside (bind m k).
Proof.
  intros Hm Hk s. specialize (Hm s). unfold after, bind in *.
  destruct (m s) as [[a| |] s1]; simpl in *; [|done..].
  eapply same_outside_trans; [done|]. apply Hk.
Qed.

Lemma keeps_files_outside {A} (m : M A) : keeps_files m → keeps_outside m.
Proof. intros Hm s. apply Hm. Qed.

Lemma keeps_files_existsSync (p : string) : keeps_files (existsSync p).
Proof. intros s. by repeat split. Qed.

Lemma keeps_files_fetchDataFromFile :
  keeps_files MyJsonDatabase.fetchDataFromFile.
Proof.
  unfold MyJsonDatabase.fetchDataFromFile. apply keeps_files_bind.
  { intros s. unfold after, readFileSync.
    destruct (files (env s) !! jsonFilePath s); by repeat split. }
  intros c. apply keeps_files_bind.
  { unfold JSON_parse. keeps. }
  intros v. keeps.
Qed.

Lemma keeps_outside_writeFileSync (p : string) (text : option json) :
  keeps_outside (writeFileSync p text).
Proof.
  intros s. unfold after, writeFileSync.
  destruct text as [j|]; [|apply same_outside_refl].
  destruct (bool_decide _); by repeat split.
Qed.

Lemma constructor_backups

    (w : world) (filePath : option string) (opts : option DatabaseOptions)
    (b : BackupsOptions) :
  backups_enabled opts = Some b →
  let bp := MyJsonDatabase.or_backups (path b) in
  let s' := (MyJsonDatabase.constructor filePath opts w).2 in
  (bp ∈ dirs (env s') ∨ is_Some (files w !! bp))
  ∧ (∀ d, d ∈ dirs (env s') ↔ d ∈ dirs w ∨ (d = bp ∧ files w !! bp = None))
  ∧ timers (env s') = timers w ++ [interval_or_default (interval b)].
Proof.
  intros Hb bp s'. subst s'. unfold MyJsonDatabase.constructor.
  destruct opts as [[[b'|]]|]; simpl in Hb; try done.
  destruct (enabled b') eqn:Hen; [|done]. injection Hb as ->.
  cbv zeta. simpl. rewrite Hen.
  fold bp. fold (interval_or_default (interval b)).
  set (s0 := {| env := w; jsonFilePath := path_or_default filePath;
                options := {| backups := Some b |}; data := VUndefined |}).
  change (match filePath with
          | Some p => if String.eqb p EmptyString then "./my-database.json" else p
          | None => "./my-database.json"
          end) with (path_or_default filePath).
  fold s0.
  set (tail := (let* o := alloc (Obj []) in _)).
  assert (keeps_outside tail) as Htail.
  { subst tail. apply keeps_outside_bind; [apply keeps_files_outside, keeps_files_alloc|].
    intros o. apply keeps_outside_bind;
      [apply keeps_files_outside, keeps_files_set_this_data|].
    intros _. apply keeps_outside_bind;
      [apply keeps_files_outside, keeps_files_existsSync|].
    intros ex. destruct (negb ex).
    - apply keeps_outside_writeFileSync.
    - apply keeps_files_outside, keeps_files_fetchDataFromFile. }
  assert (∃ s1, (let* ex := existsSync bp in
                 (if negb ex then mkdirSync bp else ret ()) ;;;
                 setInterval (interval_or_default (interval b))) s0 = (Ok (), s1)
                ∧ timers (env s1) = timers w ++ [interval_or_default (interval b)]
                ∧ dirs (env s1)
                  = (if bool_decide (is_Some (files w !! bp))
                        || bool_decide (bp ∈ dirs w)
                     then dirs w else {[bp]} ∪ dirs w))
    as (s1 & Hs1 & Htimers & Hdirs).
  { unfold existsSync, mkdirSync, setInterval. run.
    destruct (_ || _); simpl; eauto. }
  rewrite (bind_Ok _ _ _ _ _ Hs1).
  destruct (Htail s1) as (Hd & Ht & _). unfold after in Hd, Ht.
  rewrite Hd, Ht, Hdirs, Htimers. split_and!; [| |done].
  - destruct (files w !! bp) as [c|]; [right; eauto|]. left. simpl.
    destruct (bool_decide (bp ∈ dirs w)) eqn:E; simpl.
    + by apply bool_decide_eq_true in E.
    + apply elem_of_union. left. by apply elem_of_singleton.
  - intros d. destruct (files w !! bp) as [c|] eqn:Hfile; simpl.
    { split; [by left|]. by intros [?|[_ ?]]. }
    destruct (bool_decide (bp ∈ dirs w)) eqn:E; simpl.
    + apply bool_decide_eq_true in E.
      split; [by left|]. by intros [?|[-> _]].
    + rewrite elem_of_union, elem_of_singleton. tauto.
Qed.

(** X14. Constructed with backups enabled and no backup path (so that the
    path is ["./backups/"]), where no file is in the way, the store makes
    the backup directory unless it exists, makes no other directory, and
    registers one timer, with the configured interval or 86400000 ms when
    that is missing or zero; this is done before the backing file is
    looked at, so it holds even when loading the file then fails. *)
Theorem constructor_prepares_backups
    (w : world) (filePath : option string) (opts : option DatabaseOptions)
    (b : BackupsOptions) :
  backups_enabled opts = Some b →
  let bp := MyJsonDatabase.or_backups (path b) in
  bp = default_backups_path →
  no_file_at w bp →
  let s' := (MyJsonDatabase.constructor filePath opts w).2 in
  bp ∈ dirs (env s')
  ∧ (∀ d, d ∈ dirs (env s') ↔ d ∈ dirs w ∨ d = bp)
  ∧ timers (env s') = timers w ++ [interval_or_default (interval b)].
Proof.
  intros Hb bp _ Hfree s'.
  destruct (constructor_backups w filePath opts b Hb) as (Hdir & Hdirs & Htimers).
  fold bp s' in Hdir, Hdirs, Htimers.
  pose proof (Hfree bp eq_refl) as Hfile.
  split_and!; [|intros d; rewrite Hdirs|done].
  - destruct Hdir as [?|[c Hc]]; [done|]. by rewrite Hfile in Hc.
  - split; [intros [?|[? _]]; auto|]. intros [?|?]; auto.
Qed.

(** ** Mutations that keep the Document serializable *)

Lemma serialize_members_complete (f : value → option (option json))
    (props : list (string * value)) (keys : list string) :
  (∀ k, k ∈ keys → f (get_prop props k) ≠ None) →
  serialize_members f props keys ≠ None.
Proof.
  induction keys as [|k keys IH]; simpl; intros Hall; [done|].
  assert (serialize_members f props keys ≠ None) as Hrest.
  { apply IH. intros k' Hk'. apply Hall. by right. }
  specialize (Hall k (list_elem_of_here _ _)).
  destruct (f (get_prop props k)) as [[j|]|]; [|done..].
  by destruct (serialize_members f props keys).
Qed.

Lemma serialize_items_ok (f : value → option (option json)) (elems : list value) :
  serialize_items f elems ≠ None ↔ Forall (λ x, f x ≠ None) elems.
Proof.
  induction elems as [|x elems IH]; simpl.
  { split; [constructor|done]. }
  rewrite Forall_cons, <- IH.
  destruct (f x) as [o|], (serialize_items f elems); split; try done.
  - by intros [? ?].
  - by intros [? ?].
  - by intros [? ?].
Qed.

Lemma elem_of_keys_lookup (props : list (string * value)) (k : string) :
  k ∈ props.*1 → is_Some (lookup_prop props k).
Proof.
  induction props as [|[k' w] props IH]; simpl.
  { by intros ?%elem_of_nil. }
  intros Hk. destruct (String.eqb k' k) eqn:E; [eauto|].
  apply elem_of_cons in Hk as [->|Hk]; [|by apply IH].
  by rewrite String.eqb_refl in E.
Qed.

Lemma serialize_primitive (fuel : nat) (h : heap) (stack : list loc) (v : value) :
  is_primitive v = true → SerializeJSONProperty fuel h stack v ≠ None.
Proof. by destruct v, fuel. Qed.

Lemma serialize_ref_defined (fuel : nat) (h : heap) (stack : list loc) (l : loc) :
  SerializeJSONProperty fuel h stack (VRef l) ≠ Some None.
Proof.
  destruct fuel as [|fuel]; simpl; [done|].
  destruct (bool_decide _); [done|].
  destruct (h !! l) as [[props|elems]|]; [| |done].
  - by destruct (serialize_members _ _ _).
  - by destruct (serialize_items _ _).
Qed.

(** Replacing a cell by one that holds only primitives and values it held
    cannot make [JSON.stringify] throw. *)
Lemma serialize_frame (l : loc) (c c' : cell) (fuel : nat) :
  ∀ (h : heap) (stack : list loc) (v : value),
    h !! l = Some c →
    refines_cell c' c →
    SerializeJSONProperty fuel h stack v ≠ None →
    SerializeJSONProperty fuel (<[l := c']> h) stack v ≠ None.
Proof.
  induction fuel as [|fuel IH]; intros h stack v Hl Hle Hser.
  { destruct v; try done. }
  destruct v as [| | | | |l0]; try done. simpl in *.
  destruct (bool_decide (l0 ∈ stack)); [done|].
  assert (∀ v, SerializeJSONProperty fuel h (l0 :: stack) v ≠ None →
               SerializeJSONProperty fuel (<[l := c']> h) (l0 :: stack) v ≠ None)
    as Hsub by (intros v; by apply IH).
  destruct (decide (l0 = l)) as [->|Hne].
  - rewrite Hl in Hser. rewrite (lookup_updated _ _ _ _ Hl).
    destruct c as [props|elems], c' as [props'|elems']; simpl in Hle; try done.
    + assert (serialize_members (SerializeJSONProperty fuel h (l :: stack))
                props (own_keys props) ≠ None) as Hold
        by by destruct (serialize_members _ props (own_keys props)).
      pose proof (serialize_members_ok _ _ _ Hold) as Hkeys.
      assert (serialize_members
                (SerializeJSONProperty fuel (<[l := Obj props']> h) (l :: stack))
                props' (own_keys props') ≠ None) as Hnew.
      { apply serialize_members_complete. intros k Hk.
        rewrite own_keys_permutation in Hk.
        destruct (elem_of_keys_lookup _ _ Hk) as [v Hv].
        unfold get_prop. rewrite Hv. simpl.
        destruct (Hle _ _ Hv) as [Hprim|Hin].
        - by apply serialize_primitive.
        - apply Hsub. specialize (Hkeys k (lookup_prop_own_keys _ _ _ Hin)).
          unfold get_prop in Hkeys. by rewrite Hin in Hkeys. }
      by destruct (serialize_members _ props' (own_keys props')).
    + assert (serialize_items (SerializeJSONProperty fuel h (l :: stack)) elems
              ≠ None) as Hold
        by by destruct (serialize_items _ elems).
      apply serialize_items_ok in Hold. rewrite Forall_forall in Hold.
      assert (serialize_items
                (SerializeJSONProperty fuel (<[l := Arr elems']> h) (l :: stack))
                elems' ≠ None) as Hnew.
      { apply serialize_items_ok, Forall_forall. intros v Hv.
        destruct (Hle _ Hv) as [Hprim|Hin].
        - by apply serialize_primitive.
        - by apply Hsub, Hold. }
      by destruct (serialize_items _ elems').
  - rewrite list_lookup_insert_ne by done.
    destruct (h !! l0) as [[props|elems]|]; [| |done].
    + assert (serialize_members (SerializeJSONProperty fuel h (l0 :: stack))
                props (own_keys props) ≠ None) as Hold
        by by destruct (serialize_members _ props (own_keys props)).
      pose proof (serialize_members_ok _ _ _ Hold) as Hkeys.
      assert (serialize_members
                (SerializeJSONProperty fuel (<[l := c']> h) (l0 :: stack))
                props (own_keys props) ≠ None) as Hnew.
      { apply serialize_members_complete. intros k Hk. by apply Hsub, Hkeys. }
      by destruct (serialize_members
                     (SerializeJSONProperty fuel (<[l := c']> h) (l0 :: stack))
                     props (own_keys props)).
    + assert (serialize_items (SerializeJSONProperty fuel h (l0 :: stack)) elems
              ≠ None) as Hold
        by by destruct (serialize_items _ elems).
      apply serialize_items_ok in Hold.
      assert (serialize_items
                (SerializeJSONProperty fuel (<[l := c']> h) (l0 :: stack))
                elems ≠ None) as Hnew.
      { apply serialize_items_ok. eapply Forall_impl; [exact Hold|].
        intros v. apply Hsub. }
      by destruct (serialize_items
                     (SerializeJSONProperty fuel (<[l := c']> h) (l0 :: stack))
                     elems).
Qed.

Lemma stringify_frame (h : heap) (l : loc) (c c' : cell) (v : value) :
  h !! l = Some c →
  refines_cell c' c →
  JSON_stringify h v ≠ None →
  JSON_stringify (<[l := c']> h) v ≠ None.
Proof.
  intros Hl Hle. unfold JSON_stringify. rewrite length_insert.
  by apply (serialize_frame l c c').
Qed.

(** [save] returns normally when [JSON.stringify] accepts the Document,
    which is an object, and the backing path is not a directory. *)
Lemma save_succeeds (s : state) (l : loc) :
  data s = VRef l →
  JSON_stringify (heap_of (env s)) (data s) ≠ None →
  jsonFilePath s ∉ dirs (env s) →
  (MyJsonDatabase.save s).1 = Ok ().
Proof.
  intros Hd Hser Hpath. unfold MyJsonDatabase.save, writeFileSync. run.
  destruct (JSON_stringify _ _) as [[j|]|] eqn:E; [| |done].
  - by rewrite bool_decide_eq_false_2.
  - rewrite Hd in E. by apply serialize_ref_defined in E.
Qed.

Lemma save_succeeds_after_update (s : state) (ld l : loc) (c c' : cell) :
  data s = VRef ld →
  heap_of (env s) !! l = Some c →
  refines_cell c' c →
  JSON_stringify (heap_of (env s)) (data s) ≠ None →
  jsonFilePath s ∉ dirs (env s) →
  (MyJsonDatabase.save (with_heap_of s (<[l := c']> (heap_of (env s))))).1 = Ok ().
Proof.
  intros Hd Hl Hle Hser Hpath.
  apply (save_succeeds _ ld); [done| |done].
  simpl. by eapply stringify_frame.
Qed.

Lemma refines_set_prop (props : list (string * value)) (key : string) (v : value) :
  is_primitive v = true → refines_cell (Obj (set_prop props key v)) (Obj props).
Proof.
  intros Hv k w Hk. destruct (decide (key = k)) as [->|Hne].
  - rewrite lookup_set_prop_eq in Hk. injection Hk as <-. by left.
  - rewrite lookup_set_prop_ne in Hk by done. by right.
Qed.

Lemma js_plus_primitive (h : heap) (a b v : value) :
  js_plus h a b = Ok v → is_primitive v = true.
Proof.
  unfold js_plus.
  destruct (ToPrimitive h a) as [pa| |]; [|done..].
  destruct (ToPrimitive h b) as [pb| |]; [|done..].
  simpl. intros [= <-]. by destruct (_ || _).
Qed.

Lemma js_minus_primitive (h : heap) (a b v : value) :
  js_minus h a b = Ok v → is_primitive v = true.
Proof.
  unfold js_minus.
  destruct (ToPrimitive h a) as [pa| |]; [|done..].
  destruct (ToPrimitive h b) as [pb| |]; [|done..].
  simpl. by intros [= <-].
Qed.

(** X15. On a Document that is a mapping and that [JSON.stringify]
    accepts, with a backing path that is not a directory, [add] and
    [subtract] return normally for every primitive amount on every key
    whose value is a primitive or that is absent (and then no name of
    [Object.prototype]), and [delete] returns normally for every key: what
    they store is a number or a string, which cannot make the Document
    unserializable. *)
Theorem accumulate_and_delete_return_normally
    (s : state) (l : loc) (props : list (string * value))
    (key : string) (count : value) :
  data s = VRef l →
  heap_of (env s) !! l = Some (Obj props) →
  JSON_stringify (heap_of (env s)) (data s) ≠ None →
  jsonFilePath s ∉ dirs (env s) →
  (is_primitive count = true →
   is_primitive (get_prop props key) = true →
   (lookup_prop props key = None → inherited_name key = false) →
   (MyJsonDatabase.add key count s).1 = Ok ()
   ∧ (MyJsonDatabase.subtract key count s).1 = Ok ())
  ∧ (MyJsonDatabase.delete key s).1 = Ok ().
Proof.
  intros Hd Hl Hser Hpath. split.
  - intros Hcount Hcur Hname.
    assert (lookup_prop props key = None → key ≠ "__proto__") as Hw.
    { intros Hnone. by apply inherited_name_proto, Hname. }
    assert (∀ op : heap → value → value → result value,
              (∀ h a b, is_primitive a = true → is_primitive b = true →
                        ∃ v, op h a b = Ok v ∧ is_primitive v = true) →
              ((let* cur := MyJsonDatabase.read_data key in
                (if negb (ToBoolean cur)
                 then MyJsonDatabase.assign_data key (VNumber (num_of_N 0))
                 else ret ()) ;;;
                let* old := MyJsonDatabase.read_data key in
                let* h := get_heap in
                let* result := lift (op h old count) in
                MyJsonDatabase.assign_data key result ;;;
                MyJsonDatabase.save) s).1 = Ok ()) as Hboth.
    { intros op Hop.
      rewrite (accumulate_mapping op s l props key count Hd Hl Hw). cbv zeta.
      assert (∃ v, (if ToBoolean (get_prop props key)
                    then op (heap_of (env s)) (get_prop props key) count
                    else op (<[l := Obj (set_prop props key (VNumber (num_of_N 0)))]>
                               (heap_of (env s)))
                            (VNumber (num_of_N 0)) count) = Ok v
                   ∧ is_primitive v = true) as (v & -> & Hv).
      { destruct (ToBoolean _); by apply Hop. }
      apply (save_succeeds_after_update s l l (Obj props)); try done.
      by apply refines_set_prop. }
    split.
    + apply (Hboth js_plus). intros h a b Ha Hb. unfold js_plus.
      rewrite (ToPrimitive_primitive _ _ Ha), (ToPrimitive_primitive _ _ Hb).
      simpl. eexists. split; [done|]. by destruct (_ || _).
    + apply (Hboth js_minus). intros h a b Ha Hb. unfold js_minus.
      rewrite (ToPrimitive_primitive _ _ Ha), (ToPrimitive_primitive _ _ Hb).
      simpl. by eexists.
  - rewrite (delete_mapping s l props key Hd Hl).
    apply (save_succeeds_after_update s l l (Obj props)); try done.
    intros k v Hk. right.
    destruct (decide (key = k)) as [->|Hne].
    + by rewrite lookup_delete_prop_eq in Hk.
    + by rewrite lookup_delete_prop_ne in Hk.
Qed.

Lemma elem_of_remove_first (element x : value) (elems : list value) :
  x ∈ remove_first element elems → x ∈ elems.
Proof.
  induction elems as [|y elems IH]; simpl; [done|].
  destruct (strict_equals y element).
  - by right.
  - intros [->|Hx]%elem_of_cons; [left|right; auto].
Qed.

(** X16. On such a Document, for a key holding a sequence, [pullOne] and
    [pullMany] return normally for every element, and [push] returns
    normally for every primitive element. *)
Theorem sequence_operations_return_normally
    (s : state) (l : loc) (props : list (string * value))
    (key : string) (la : loc) (elems : list value) (element : value) :
  data s = VRef l →
  heap_of (env s) !! l = Some (Obj props) →
  get_prop props key = VRef la →
  heap_of (env s) !! la = Some (Arr elems) →
  JSON_stringify (heap_of (env s)) (data s) ≠ None →
  jsonFilePath s ∉ dirs (env s) →
  (MyJsonDatabase.pullOne key element s).1 = Ok ()
  ∧ (MyJsonDatabase.pullMany key element s).1 = Ok ()
  ∧ (is_primitive element = true →
     (MyJsonDatabase.push key element s).1 = Ok ()).
Proof.
  intros Hd Hl Hk Ha Hser Hpath. split_and!.
  - rewrite (pullOne_sequence s l props key Hd Hl la elems element Hk Ha).
    apply (save_succeeds_after_update s l la (Arr elems)); try done.
    intros v Hv. right. by eapply elem_of_remove_first.
  - rewrite (pullMany_sequence s l props key Hd Hl la elems element Hk Ha).
    apply (save_succeeds_after_update s l la (Arr elems)); try done.
    intros v Hv. right. rewrite remove_all_filter in Hv.
    by apply list_elem_of_filter in Hv as [_ ?].
  - intros Hprim.
    rewrite (push_sequence s l props key la elems element Hd Hl Hk Ha).
    apply (save_succeeds_after_update s l la (Arr elems)); try done.
    intros v [Hv| ->%list_elem_of_singleton]%elem_of_app; [by right|by left].
Qed.

(** X17. On such a Document, [set] of a primitive value along a path whose
    segments before the last resolve to existing mappings, and whose last
    segment is not [__proto__], returns normally, and [get] of the same
    key then returns the value. *)
Theorem set_primitive_returns_normally
    (s : state) (key : string) (v : value) (locs : list loc) :
  mappings_along (heap_of (env s)) (data s) (split "." key) = Some locs →
  JSON_stringify (heap_of (env s)) (data s) ≠ None →
  jsonFilePath s ∉ dirs (env s) →
  is_primitive v = true →
  last (split "." key) ≠ Some "__proto__" →
  ∃ s', MyJsonDatabase.set key v s = (Ok (), s')
        ∧ MyJsonDatabase.get key s' = (Ok v, s').
Proof.
  intros Hpath Hser Hdir Hprim Hlast.
  destruct (serializable_path_NoDup _ _ _ _ _ _ Hser Hpath) as [Hnodup _].
  destruct (list_snoc_inv (split "." key) (split_not_nil _ _)) as (pre & p & Hsplit).
  rewrite Hsplit in Hpath, Hlast.
  assert (p ≠ "__proto__") as Hp.
  { intros ->. by rewrite last_snoc in Hlast. }
  destruct (set_then_get _ v _ _ Hp _ _ Hpath Hnodup)
    as (l & props & Hl & Hset & Hget & _ & _).
  assert (∃ ld, data s = VRef ld) as [ld Hd].
  { destruct (data s) as [| | | | |ld]; try by destruct pre. eauto. }
  set (s1 := with_heap_of s (<[l := Obj (set_prop props p v)]> (heap_of (env s)))).
  assert (MyJsonDatabase.set key v s = MyJsonDatabase.save s1) as Hrun.
  { unfold MyJsonDatabase.set. step (this_data_spec s).
    erewrite (bind_Ok (setNestedProperty _ _ _)); [done|].
    unfold setNestedProperty. step (get_heap_spec s).
    rewrite Hsplit, Hset.
    step (lift_spec (Ok (<[l := Obj (set_prop props p v)]> (heap_of (env s)))) s).
    apply put_heap_spec. }
  assert ((MyJsonDatabase.save s1).1 = Ok ()) as Hok.
  { apply (save_succeeds_after_update s ld l (Obj props)); try done.
    by apply refines_set_prop. }
  exists (after MyJsonDatabase.save s1). split.
  - rewrite Hrun. unfold after. destruct (MyJsonDatabase.save s1) as [r s2].
    simpl in *. by rewrite Hok.
  - rewrite get_spec, after_save_heap, after_save_data. simpl.
    by rewrite Hsplit, Hget.
Qed.

(** ** Loading a file: [JSON.parse] then [JSON.stringify] *)

Lemma json_ind' (P : json → Prop) :
  P JNull →
  (∀ b, P (JBool b)) →
  (∀ n, P (JNumber n)) →
  (∀ s, P (JString s)) →
  (∀ items, Forall P items → P (JArray items)) →
  (∀ members, Forall (λ m, P m.2) members → P (JObject members)) →
  ∀ j, P j.
Proof.
  intros Hnull Hbool Hnum Hstr Harr Hobj.
  fix go 1. intros [|b|n|str|items|members].
  - exact Hnull.
  - exact (Hbool b).
  - exact (Hnum n).
  - exact (Hstr str).
  - apply Harr. induction items as [|x items IH]; constructor.
    + exact (go x).
    + exact IH.
  - apply Hobj. induction members as [|[k x] members IH]; constructor.
    + exact (go x).
    + exact IH.
Qed.

Lemma revive_array (items : list json) (h : heap) :
  revive (JArray items) h
  = let '(elems, h1) := revive_items items h in
    (VRef (length h1), h1 ++ [Arr elems]).
Proof.
  simpl.
  assert (∀ items h,
    (fix go (items0 : list json) (h0 : heap) {struct items0} :=
       match items0 with
       | [] => ([], h0)
       | x :: rest =>
           let '(v, h1) := revive x h0 in
           let '(vs, h2) := go rest h1 in (v :: vs, h2)
       end) items h = revive_items items h) as ->; [|done].
  clear. induction items as [|x items IH]; intros h; simpl; [done|].
  destruct (revive x h) as [v h1]. by rewrite IH.
Qed.

Lemma revive_object (members : list (string * json)) (h : heap) :
  revive (JObject members) h
  = let '(props, h1) := revive_members members [] h in
    (VRef (length h1), h1 ++ [Obj props]).
Proof.
  simpl.
  assert (∀ members props h,
    (fix go (members0 : list (string * json)) (props0 : list (string * value))
         (h0 : heap) {struct members0} :=
       match members0 with
       | [] => (props0, h0)
       | (k, x) :: rest =>
           let '(v, h1) := revive x h0 in go rest (set_prop props0 k v) h1
       end) members props h = revive_members members props h) as ->; [|done].
  clear. induction members as [|[k x] members IH]; intros props h; simpl; [done|].
  destruct (revive x h) as [v h1]. by rewrite IH.
Qed.

Lemma revive_items_spec (items : list json) :
  Forall revives_to items →
  ∀ h, ∃ vs ext,
    revive_items items h = (vs, h ++ ext)
    ∧ ∀ more fuel stack,
        (length ext ≤ fuel)%nat →
        Forall (λ l, l < length h ∨ length h + length ext ≤ l)%nat stack →
        serialize_items (SerializeJSONProperty fuel (h ++ ext ++ more) stack) vs
        = Some items.
Proof.
  induction 1 as [|x items Hx _ IH]; intros h.
  { exists [], []. rewrite app_nil_r. by split. }
  destruct (Hx h) as (v & ext1 & Hrev & Hser).
  destruct (IH (h ++ ext1)) as (vs & ext2 & Hrevs & Hsers).
  exists (v :: vs), (ext1 ++ ext2). simpl. rewrite Hrev, Hrevs, app_assoc.
  split; [done|]. intros more fuel stack Hfuel Hstack.
  rewrite length_app in Hfuel, Hstack. simpl.
  assert (SerializeJSONProperty fuel (h ++ (ext1 ++ ext2) ++ more) stack v
          = Some (Some x)) as ->.
  { rewrite <- (app_assoc ext1). apply Hser; [lia|].
    eapply Forall_impl; [exact Hstack|]. simpl. lia. }
  assert (serialize_items
            (SerializeJSONProperty fuel (h ++ (ext1 ++ ext2) ++ more) stack) vs
          = Some items) as ->; [|done].
  replace (h ++ (ext1 ++ ext2) ++ more) with ((h ++ ext1) ++ ext2 ++ more)
    by (by rewrite <- !app_assoc).
  apply Hsers; [lia|].
  eapply Forall_impl; [exact Hstack|]. simpl. intros l. rewrite length_app. lia.
Qed.

Lemma lookup_prop_not_elem_of (props : list (string * value)) (k : string) :
  k ∉ props.*1 → lookup_prop props k = None.
Proof.
  intros Hk. destruct (lookup_prop props k) as [v|] eqn:E; [|done].
  by apply lookup_prop_elem_of in E.
Qed.

Lemma lookup_prop_NoDup (props : list (string * value)) (k : string) (v : value) :
  NoDup props.*1 → (k, v) ∈ props → lookup_prop props k = Some v.
Proof.
  induction props as [|[k' w] props IH]; simpl; intros Hnd Hin.
  { by apply elem_of_nil in Hin. }
  apply NoDup_cons in Hnd as [Hk' Hnd].
  apply elem_of_cons in Hin as [[= <- <-]|Hin].
  { by rewrite String.eqb_refl. }
  destruct (String.eqb k' k) eqn:E; [|by apply IH].
  apply String.eqb_eq in E as ->. exfalso. apply Hk'.
  apply list_elem_of_fmap. by exists (k, v).
Qed.

Lemma revive_members_spec (members : list (string * json)) :
  Forall (λ m, revives_to m.2) members →
  ∀ props0 h,
    NoDup (props0.*1 ++ members.*1) →
    ∃ new ext,
      revive_members members props0 h = (props0 ++ new, h ++ ext)
      ∧ new.*1 = members.*1
      ∧ ∀ more fuel stack,
          (length ext ≤ fuel)%nat →
          Forall (λ l, l < length h ∨ length h + length ext ≤ l)%nat stack →
          Forall2 (λ m pv,
                     SerializeJSONProperty fuel (h ++ ext ++ more) stack pv.2
                     = Some (Some m.2)) members new.
Proof.
  induction 1 as [|[k x] members Hx _ IH]; intros props0 h Hnd.
  { exists [], []. rewrite !app_nil_r. split_and!; [done..|]. constructor. }
  simpl in Hx, Hnd.
  destruct (Hx h) as (v & ext1 & Hrev & Hser).
  assert (set_prop props0 k v = props0 ++ [(k, v)]) as Hset.
  { apply set_prop_absent, lookup_prop_not_elem_of.
    apply NoDup_app in Hnd as (_ & Hdisj & _). intros Hk.
    apply (Hdisj _ Hk). left. }
  destruct (IH (props0 ++ [(k, v)]) (h ++ ext1)) as (new & ext2 & Hrevs & Hkeys & Hsers).
  { rewrite fmap_app. simpl. rewrite <- app_assoc. done. }
  exists ((k, v) :: new), (ext1 ++ ext2). simpl.
  rewrite Hrev, Hset, Hrevs, <- !app_assoc. simpl.
  split_and!; [done|f_equal; exact Hkeys|].
  intros more fuel stack Hfuel Hstack.
  rewrite length_app in Hfuel, Hstack.
  replace (h ++ (ext1 ++ ext2) ++ more) with (h ++ ext1 ++ ext2 ++ more)
    by (by rewrite <- !app_assoc).
  constructor.
  - simpl. apply Hser; [lia|].
    eapply Forall_impl; [exact Hstack|]. simpl. lia.
  - replace (h ++ ext1 ++ ext2 ++ more) with ((h ++ ext1) ++ ext2 ++ more)
      by (by rewrite <- !app_assoc).
    apply Hsers; [lia|].
    eapply Forall_impl; [exact Hstack|]. simpl. intros l. rewrite length_app. lia.
Qed.

Lemma serialize_members_all (f : value → option (option json))
    (props : list (string * value)) (members : list (string * json)) :
  Forall (λ m, f (get_prop props m.1) = Some (Some m.2)) members →
  serialize_members f props members.*1 = Some members.
Proof.
  induction 1 as [|[k x] members Hm _ IH]; [done|].
  change (serialize_members f props ((k, x) :: members).*1)
    with (match f (get_prop props k) with
          | None => None
          | Some None => serialize_members f props members.*1
          | Some (Some j) =>
              match serialize_members f props members.*1 with
              | Some ms => Some ((k, j) :: ms)
              | None => None
              end
          end).
  simpl in Hm. by rewrite Hm, IH.
Qed.

Lemma canonical_revives (j : json) : canonical j → revives_to j.
Proof.
  induction j as [|b|n|str|items IH|members IH] using json_ind'; intros Hcan h.
  - exists VNull, []. rewrite app_nil_r. split; [done|]. by intros ? [] ?.
  - exists (VBool b), []. rewrite app_nil_r. split; [done|]. by intros ? [] ?.
  - exists (VNumber n), []. rewrite app_nil_r. split; [done|].
    inversion Hcan as [| |? Hfin Hzero| | |]; subst.
    assert ((if num_ToBoolean n then n else num_of_N 0) = n) as Hsame.
    { destruct Hzero as [->| ->]; [done|]. by destruct (num_ToBoolean _). }
    intros ? [] ?; simpl; by rewrite Hfin, Hsame.
  - exists (VString str), []. rewrite app_nil_r. split; [done|]. by intros ? [] ?.
  - inversion Hcan as [| | | |? Hitems|]; subst.
    assert (Forall revives_to items) as Hrev.
    { rewrite Forall_forall in IH, Hitems |- *. intros x Hx.
      apply IH; auto. }
    destruct (revive_items_spec items Hrev h) as (vs & ext & Hrevs & Hsers).
    exists (VRef (length (h ++ ext))), (ext ++ [Arr vs]).
    rewrite revive_array, Hrevs, app_assoc. split; [done|].
    intros more fuel stack Hfuel Hstack.
    rewrite length_app in Hfuel. simpl in Hfuel.
    destruct fuel as [|fuel]; [lia|]. simpl.
    rewrite bool_decide_eq_false_2; cycle 1.
    { intros Hin. rewrite Forall_forall in Hstack. specialize (Hstack _ Hin).
      rewrite !length_app in Hstack. simpl in Hstack. lia. }
    replace (h ++ (ext ++ [Arr vs]) ++ more) with ((h ++ ext) ++ Arr vs :: more)
      by (by rewrite <- !app_assoc).
    rewrite list_lookup_middle by done.
    replace ((h ++ ext) ++ Arr vs :: more) with (h ++ ext ++ [Arr vs] ++ more)
      by (by rewrite <- !app_assoc).
    rewrite Hsers; [done|lia|].
    constructor; [rewrite length_app; lia|].
    eapply Forall_impl; [exact Hstack|]. simpl. intros l.
    rewrite !length_app. simpl. lia.
  - inversion Hcan as [| | | | |? Horder Hnd Hmembers]; subst.
    assert (Forall (λ m, revives_to m.2) members) as Hrev.
    { rewrite Forall_forall in IH, Hmembers |- *. intros m Hm.
      apply IH; auto. }
    destruct (revive_members_spec members Hrev [] h Hnd)
      as (new & ext & Hrevs & Hkeys & Hsers).
    exists (VRef (length (h ++ ext))), (ext ++ [Obj new]).
    rewrite revive_object, Hrevs, app_assoc. split; [done|].
    intros more fuel stack Hfuel Hstack.
    rewrite length_app in Hfuel. simpl in Hfuel.
    destruct fuel as [|fuel]; [lia|]. simpl.
    rewrite bool_decide_eq_false_2; cycle 1.
    { intros Hin. rewrite Forall_forall in Hstack. specialize (Hstack _ Hin).
      rewrite !length_app in Hstack. simpl in Hstack. lia. }
    replace (h ++ (ext ++ [Obj new]) ++ more) with ((h ++ ext) ++ Obj new :: more)
      by (by rewrite <- !app_assoc).
    rewrite list_lookup_middle by done.
    replace ((h ++ ext) ++ Obj new :: more) with (h ++ ext ++ [Obj new] ++ more)
      by (by rewrite <- !app_assoc).
    change (own_keys new) with (order_keys new.*1).
    rewrite Hkeys, Horder.
    rewrite (serialize_members_all _ new members); [done|].
    assert (Forall2 (λ m pv,
              SerializeJSONProperty fuel (h ++ ext ++ [Obj new] ++ more)
                (length (h ++ ext) :: stack) pv.2 = Some (Some m.2)) members new)
      as Hall.
    { apply Hsers; [lia|].
      constructor; [rewrite length_app; lia|].
      eapply Forall_impl; [exact Hstack|]. simpl. intros l.
      rewrite !length_app. simpl. lia. }
    rewrite <- Hkeys in Hnd. clear -Hall Hkeys Hnd.
    assert (∀ m pv, (m, pv) ∈ zip members new → m.1 = pv.1) as Hsame.
    { clear Hall Hnd. revert new Hkeys. induction members as [|m members IH];
        intros [|pv new] Hkeys; simpl in *; try done.
      - by intros ? ? ?%elem_of_nil.
      - injection Hkeys as Hk Hkeys. intros m' pv' [[= -> ->]|Hin]%elem_of_cons;
          [done|]. by eapply IH. }
    apply Forall_forall. intros m Hm.
    apply list_elem_of_lookup in Hm as [i Hi].
    destruct (Forall2_lookup_l _ _ _ _ _ Hall Hi) as (pv & Hpv & Hser).
    assert (m.1 = pv.1) as Hk.
    { apply Hsame. apply list_elem_of_lookup. exists i.
      by rewrite lookup_zip_with, Hi, Hpv. }
    unfold get_prop. rewrite Hk.
    rewrite (lookup_prop_NoDup new pv.1 pv.2 Hnd); [done|].
    destruct pv. by eapply list_elem_of_lookup_2.
Qed.

(** X18. Loading a file that holds an object in the form [JSON.stringify]
    writes (finite numbers other than [-0], distinct keys in the order of
    [Object.keys]): the constructor returns normally, reads the file
    without writing it, and the Document is a mapping that serializes to
    the JSON value the file holds. *)
Theorem constructor_loads_canonical_file
    (w : world) (p : string) (members : list (string * json)) :
  p ≠ EmptyString →
  files w !! p = Some (JSONText (JObject members)) →
  canonical (JObject members) →
  ∃ s', MyJsonDatabase.constructor (Some p) None w = (Ok (), s')
        ∧ is_mapping (heap_of (env s')) (data s')
        ∧ JSON_stringify (heap_of (env s')) (data s')
          = Some (Some (JObject members))
        ∧ files (env s') = files w.
Proof.
  intros Hp Hfile Hcan.
  destruct (canonical_revives _ Hcan (heap_of w ++ [Obj []]))
    as (v & ext & Hrev & Hser).
  assert (∃ l props, v = VRef l
                     ∧ ((heap_of w ++ [Obj []]) ++ ext) !! l = Some (Obj props))
    as (l & props & -> & Hl).
  { rewrite revive_object in Hrev.
    destruct (revive_members members [] (heap_of w ++ [Obj []])) as [props h1].
    injection Hrev as <- <-. exists (length h1), props. split; [done|].
    by rewrite lookup_app_r, Nat.sub_diag. }
  unfold MyJsonDatabase.constructor, MyJsonDatabase.fetchDataFromFile,
    alloc, existsSync, readFileSync, JSON_parse.
  apply String.eqb_neq in Hp. rewrite Hp. run.
  repeat (rewrite Hfile; simpl).
  rewrite Hrev. simpl.
  eexists. split; [done|]. simpl. split_and!; [|  |done].
  - by exists l, props.
  - unfold JSON_stringify.
    specialize (Hser [] (S (length ((heap_of w ++ [Obj []]) ++ ext))) []).
    rewrite app_nil_r in Hser. apply Hser; [|constructor].
    rewrite length_app. lia.
Qed.

(** ** What [save] writes is in canonical form *)

Lemma digit_spec (c : ascii) (d : N) :
  digit c = Some d → (d ≤ 9)%N ∧ N_of_ascii c = (d + 48)%N.
Proof.
  unfold digit. destruct (_ && _) eqn:E; [|done].
  intros [= <-]. apply andb_true_iff in E as [E1 E2].
  apply N.leb_le in E1, E2. lia.
Qed.

Lemma digit_inj (c1 c2 : ascii) (d : N) :
  digit c1 = Some d → digit c2 = Some d → c1 = c2.
Proof.
  intros [_ H1]%digit_spec [_ H2]%digit_spec.
  rewrite <- (ascii_N_embedding c1), <- (ascii_N_embedding c2). congruence.
Qed.

Lemma parse_digits_None (s : string) :
  ∀ a b, parse_digits a s = None → parse_digits b s = None.
Proof.
  induction s as [|c s IH]; intros a b; simpl; [done|].
  destruct (digit c); [|done]. apply IH.
Qed.

Lemma parse_digits_acc (s : string) :
  ∀ acc n,
    parse_digits acc s = Some n →
    ∃ m, parse_digits 0 s = Some m
         ∧ n = (acc * 10 ^ N.of_nat (String.length s) + m)%N
         ∧ (m < 10 ^ N.of_nat (String.length s))%N.
Proof.
  induction s as [|c s IH]; intros acc n; simpl String.length.
  { intros [= <-]. exists 0%N. simpl. split_and!; [done|lia|lia]. }
  cbn [parse_digits]. destruct (digit c) as [d|] eqn:Hd; [|done].
  intros Hn. destruct (digit_spec _ _ Hd) as [Hd9 _].
  destruct (IH _ _ Hn) as (m & Hm & -> & Hlt).
  exists (d * 10 ^ N.of_nat (String.length s) + m)%N.
  rewrite Nat2N.inj_succ, N.pow_succ_r'.
  replace (10 * 0 + d)%N with d by lia.
  split_and!.
  - destruct (parse_digits d s) as [n'|] eqn:Hn'.
    + destruct (IH _ _ Hn') as (m' & Hm' & -> & _). congruence.
    + by rewrite (parse_digits_None _ _ _ Hn') in Hn.
  - lia.
  - nia.
Qed.

Lemma parse_digits_cons (c : ascii) (s : string) (n : N) :
  parse_digits 0 (String c s) = Some n →
  ∃ d m, digit c = Some d
         ∧ parse_digits 0 s = Some m
         ∧ n = (d * 10 ^ N.of_nat (String.length s) + m)%N
         ∧ (m < 10 ^ N.of_nat (String.length s))%N
         ∧ (d ≤ 9)%N.
Proof.
  cbn [parse_digits]. destruct (digit c) as [d|] eqn:Hd; [|done].
  replace (10 * 0 + d)%N with d by lia. intros Hn.
  destruct (parse_digits_acc _ _ _ Hn) as (m & Hm & -> & Hlt).
  exists d, m. split_and!; try done. by apply digit_spec in Hd as [? _].
Qed.

Lemma parse_digits_inj (s1 : string) :
  ∀ s2 n,
    String.length s1 = String.length s2 →
    parse_digits 0 s1 = Some n →
    parse_digits 0 s2 = Some n →
    s1 = s2.
Proof.
  induction s1 as [|c1 s1 IH]; intros [|c2 s2] n Hlen; try done.
  injection Hlen as Hlen.
  intros (d1 & m1 & Hd1 & Hm1 & -> & Hlt1 & _)%parse_digits_cons
         (d2 & m2 & Hd2 & Hm2 & Hn & Hlt2 & _)%parse_digits_cons.
  rewrite Hlen in *.
  assert (0 < 10 ^ N.of_nat (String.length s2))%N as Hpos
    by (apply N.neq_0_lt_0, N.pow_nonzero; lia).
  assert (d1 = d2 ∧ m1 = m2) as [<- <-].
  { apply (N.div_mod_unique (10 ^ N.of_nat (String.length s2))); [done..|]. lia. }
  f_equal; [by eapply digit_inj|]. by eapply IH.
Qed.

Lemma array_index_spec (p : string) (n : N) :
  array_index p = Some n →
  p = "0" ∧ n = 0%N
  ∨ ∃ c s d m,
      p = String c s ∧ digit c = Some d ∧ (1 ≤ d ≤ 9)%N
      ∧ parse_digits 0 s = Some m
      ∧ n = (d * 10 ^ N.of_nat (String.length s) + m)%N
      ∧ (m < 10 ^ N.of_nat (String.length s))%N.
Proof.
  destruct p as [|c s]; [done|]. unfold array_index.
  destruct (Ascii.eqb c "0" && negb (String.eqb s "")) eqn:E; [done|].
  destruct (parse_digits 0 (String c s)) as [n'|] eqn:Hn; [|done].
  destruct (n' <? 4294967295)%N; [|done]. intros [= <-].
  destruct (parse_digits_cons _ _ _ Hn) as (d & m & Hd & Hm & -> & Hlt & Hd9).
  destruct (Ascii.eqb c "0") eqn:Ec.
  - apply Ascii.eqb_eq in Ec as ->. simpl in E.
    apply negb_false_iff, String.eqb_eq in E as ->.
    left. split; [done|]. injection Hd as <-. injection Hm as <-. done.
  - right. exists c, s, d, m. split_and!; try done.
    destruct (decide (d = 0%N)) as [->|]; [|lia].
    apply Ascii.eqb_neq in Ec. contradict Ec.
    by apply (digit_inj _ _ 0%N).
Qed.

(** Two keys that are the same array index are the same string. *)
Lemma array_index_inj (p q : string) (n : N) :
  array_index p = Some n → array_index q = Some n → p = q.
Proof.
  intros [[-> ->]|(c1 & s1 & d1 & m1 & -> & Hd1 & Hr1 & Hm1 & Hn1 & Hlt1)]%array_index_spec
         [[-> Hn]|(c2 & s2 & d2 & m2 & -> & Hd2 & Hr2 & Hm2 & Hn2 & Hlt2)]%array_index_spec.
  - done.
  - assert (0 < 10 ^ N.of_nat (String.length s2))%N
      by (apply N.neq_0_lt_0, N.pow_nonzero; lia).
    nia.
  - assert (0 < 10 ^ N.of_nat (String.length s1))%N
      by (apply N.neq_0_lt_0, N.pow_nonzero; lia).
    nia.
  - assert (String.length s1 = String.length s2) as Hlen.
    { destruct (Nat.lt_trichotomy (String.length s1) (String.length s2))
        as [Hlt|[?|Hlt]]; [|done|]; exfalso.
      - assert (10 ^ N.succ (N.of_nat (String.length s1))
                ≤ 10 ^ N.of_nat (String.length s2))%N as Hpow
          by (apply N.pow_le_mono_r; lia).
        rewrite N.pow_succ_r' in Hpow. nia.
      - assert (10 ^ N.succ (N.of_nat (String.length s2))
                ≤ 10 ^ N.of_nat (String.length s1))%N as Hpow
          by (apply N.pow_le_mono_r; lia).
        rewrite N.pow_succ_r' in Hpow. nia. }
    rewrite Hlen in *.
    assert (0 < 10 ^ N.of_nat (String.length s2))%N as Hpos
      by (apply N.neq_0_lt_0, N.pow_nonzero; lia).
    assert (d1 = d2 ∧ m1 = m2) as [<- <-].
    { apply (N.div_mod_unique (10 ^ N.of_nat (String.length s2))); [done..|]. lia. }
    f_equal; [by eapply digit_inj|]. by eapply parse_digits_inj.
Qed.

#[local] Instance index_le_trans : Transitive index_le.
Proof. intros a b c. unfold index_le. lia. Qed.

Lemma StronglySorted_sublist {A} (R : relation A) (l k : list A) :
  l `sublist_of` k → StronglySorted R k → StronglySorted R l.
Proof.
  induction 1 as [|x l k Hsub IH|x l k Hsub IH]; intros Hk; [done| |].
  - apply StronglySorted_inv in Hk as [Hk Hx]. constructor; [by apply IH|].
    apply Forall_forall. intros y Hy. rewrite Forall_forall in Hx.
    apply Hx. by eapply elem_of_sublist.
  - apply StronglySorted_inv in Hk as [Hk _]. by apply IH.
Qed.

Lemma filter_all {A} (P : A → Prop) `{!∀ x, Decision (P x)} (l : list A) :
  Forall P l → filter P l = l.
Proof.
  induction 1 as [|x l Hx _ IH]; [done|].
  by rewrite filter_cons_True, IH.
Qed.

Lemma filter_none {A} (P : A → Prop) `{!∀ x, Decision (P x)} (l : list A) :
  Forall (λ x, ¬ P x) l → filter P l = [].
Proof.
  induction 1 as [|x l Hx _ IH]; [done|].
  by rewrite filter_cons_False.
Qed.

Lemma order_keys_Permutation (keys : list string) : order_keys keys ≡ₚ keys.
Proof.
  unfold order_keys. rewrite merge_sort_Permutation.
  rewrite <- (filter_app_complement (λ k, is_Some (array_index k)) keys) at 3.
  apply Permutation_app_head.
  erewrite list_filter_iff; [done|].
  intros k. simpl. by rewrite eq_None_not_Some.
Qed.

(** A part of the keys of an object, taken in the order of [Object.keys],
    is in the order of [Object.keys]. *)
Lemma order_keys_sublist (keys l : list string) :
  l `sublist_of` order_keys keys → order_keys l = l.
Proof.
  unfold order_keys at 1.
  intros (l1 & l2 & -> & H1 & H2)%sublist_app_r.
  assert (Forall (λ k, is_Some (array_index k)) l1) as Hidx.
  { apply Forall_forall. intros k Hk.
    eapply elem_of_sublist in Hk; [|done].
    rewrite merge_sort_Permutation in Hk.
    by apply list_elem_of_filter in Hk as [? _]. }
  assert (Forall (λ k, array_index k = None) l2) as Hnot.
  { apply Forall_forall. intros k Hk.
    eapply elem_of_sublist in Hk; [|done].
    by apply list_elem_of_filter in Hk as [? _]. }
  unfold order_keys. rewrite !filter_app.
  rewrite (filter_all _ l1) by done.
  rewrite (filter_none (λ k, is_Some (array_index k)) l2); cycle 1.
  { eapply Forall_impl; [done|]. simpl. intros k -> [? ?]. done. }
  rewrite (filter_none (λ k, array_index k = None) l1); cycle 1.
  { eapply Forall_impl; [exact Hidx|]. simpl. intros k [? E]. by rewrite E. }
  rewrite (filter_all _ l2) by done.
  rewrite app_nil_r. simpl. f_equal.
  apply (StronglySorted_unique_strong index_le).
  - intros x1 x2 Hx1 Hx2 Hle1 Hle2.
    rewrite merge_sort_Permutation in Hx1.
    rewrite Forall_forall in Hidx.
    destruct (Hidx _ Hx1) as [n1 E1], (Hidx _ Hx2) as [n2 E2].
    unfold index_le in Hle1, Hle2. rewrite E1, E2 in Hle1, Hle2. simpl in *.
    apply (array_index_inj _ _ n1); [done|].
    rewrite E2. f_equal. lia.
  - apply StronglySorted_merge_sort; apply _.
  - eapply StronglySorted_sublist; [done|].
    apply StronglySorted_merge_sort; apply _.
  - apply merge_sort_Permutation.
Qed.

Lemma serialize_members_sublist (f : value → option (option json))
    (props : list (string * value)) (keys : list string) :
  ∀ ms,
    serialize_members f props keys = Some ms →
    ms.*1 `sublist_of` keys
    ∧ Forall (λ m, ∃ v, f v = Some (Some m.2)) ms.
Proof.
  induction keys as [|k keys IH]; intros ms; simpl.
  { intros [= <-]. split; [constructor|constructor]. }
  destruct (f (get_prop props k)) as [[j|]|] eqn:Ef; [| |done].
  - destruct (serialize_members f props keys) as [ms'|]; [|done].
    intros [= <-]. destruct (IH _ eq_refl) as [Hsub Hall].
    split; [by constructor|]. constructor; [by eexists|done].
  - intros Hms. destruct (IH _ Hms) as [Hsub Hall].
    split; [by constructor|done].
Qed.

Lemma serialize_items_each (f : value → option (option json))
    (elems : list value) :
  ∀ js,
    serialize_items f elems = Some js →
    Forall (λ j, j = JNull ∨ ∃ v, f v = Some (Some j)) js.
Proof.
  induction elems as [|x elems IH]; intros js; simpl.
  { intros [= <-]. constructor. }
  destruct (f x) as [o|] eqn:Ef; [|done].
  destruct (serialize_items f elems) as [js'|]; [|done].
  intros [= <-]. constructor; [|by apply IH].
  destruct o as [j|]; [right; by eexists|by left].
Qed.

(** What [JSON.stringify] returns is in canonical form. *)
Lemma stringify_canonical (fuel : nat) :
  ∀ (h : heap) (stack : list loc) (v : value) (j : json),
    distinct_keys h →
    SerializeJSONProperty fuel h stack v = Some (Some j) →
    canonical j.
Proof.
  induction fuel as [|fuel IH]; intros h stack v j Hh;
    (destruct v as [| |b|n|str|l]; simpl;
       [done
       |by intros [= <-]; constructor
       |by intros [= <-]; constructor
       |intros [= <-]; destruct (num_is_finite n) eqn:E; [|by constructor];
        destruct (num_ToBoolean n) eqn:E';
        [constructor; auto
        |constructor; [apply num_is_finite_zero|by right]]
       |by intros [= <-]; constructor
       |]); [done|].
  destruct (bool_decide (l ∈ stack)); [done|].
  destruct (h !! l) as [[props|elems]|] eqn:Hl; [| |done].
  - destruct (serialize_members _ props (own_keys props)) as [ms|] eqn:Hms;
      [|done].
    intros [= <-].
    destruct (serialize_members_sublist _ _ _ _ Hms) as [Hsub Hall].
    constructor.
    + by apply (order_keys_sublist props.*1).
    + eapply sublist_NoDup; [|exact Hsub].
      change (own_keys props) with (order_keys props.*1).
      rewrite order_keys_Permutation. by eapply Hh.
    + eapply Forall_impl; [done|]. simpl. intros m [v Hv]. by eapply IH.
  - destruct (serialize_items _ elems) as [js|] eqn:Hjs; [|done].
    intros [= <-]. constructor.
    eapply Forall_impl; [by eapply serialize_items_each|].
    simpl. intros j [->|[v Hv]]; [constructor|by eapply IH].
Qed.

(** ** Reading the file back *)

(** The constructor on a file that exists and parses: the parsed value is
    the Document when its [typeof] is ["object"], and is dropped otherwise;
    the file is not written. *)
Lemma constructor_reads
    (w : world) (filePath : option string) (opts : option DatabaseOptions)
    (j : json) :
  let p := path_or_default filePath in
  let parsed := revive j (heap_of w ++ [Obj []]) in
  backups_enabled opts = None →
  files w !! p = Some (JSONText j) →
  MyJsonDatabase.constructor filePath opts w
  = (Ok (),
     {| env := {| heap_of := parsed.2;
                  files := files w;
                  dirs := dirs w;
                  timers := timers w |};
        jsonFilePath := p;
        options := default {| backups := None |} opts;
        data := if String.eqb (typeof parsed.1) "object" then parsed.1
                else VRef (length (heap_of w)) |}).
Proof.
  intros p parsed Hb Hfile. unfold MyJsonDatabase.constructor.
  fold (path_or_default filePath). fold p. cbv zeta.
  assert (∀ o, backups_enabled opts = None →
               default {| backups := None |} opts = o →
               match backups o with
               | Some b => enabled b = false
               | None => True
               end) as Hcase.
  { intros o Hnone <-. destruct opts as [[[b|]]|]; simpl in *; try done.
    by destruct (enabled b). }
  specialize (Hcase _ Hb eq_refl). subst parsed.
  destruct (backups (default {| backups := None |} opts)) as [b|];
    [rewrite Hcase|];
    unfold alloc, existsSync, MyJsonDatabase.fetchDataFromFile, readFileSync,
      JSON_parse; run;
    repeat (rewrite Hfile; simpl);
    destruct (revive j (heap_of w ++ [Obj []])) as [v h']; simpl;
    by destruct (String.eqb (typeof v) "object").
Qed.

Lemma stringify_of_object (h : heap) (v : value) (j : json) :
  typeof v = "object" →
  JSON_stringify h v = Some (Some j) →
  ∀ h', typeof (revive j h').1 = "object".
Proof.
  intros Hty Hser h'. unfold JSON_stringify in Hser.
  destruct v as [| |b|n|str|l]; try done.
  { by injection Hser as <-. }
  simpl in Hser. destruct (h !! l) as [[props|elems]|]; [| |done].
  - destruct (serialize_members _ _ _) as [ms|]; [|done].
    injection Hser as <-. rewrite revive_object.
    by destruct (revive_members ms [] h').
  - destruct (serialize_items _ _) as [js|]; [|done].
    injection Hser as <-. rewrite revive_array.
    by destruct (revive_items js h').
Qed.

(** X19. Restart round trip: once [save] has returned, a constructor
    given the same path, in any later process that finds the files as
    [save] left them, returns normally with a Document that serializes to
    the same text as the Document saved, and writes nothing. *)
Theorem saved_file_reloads (s s1 : state) (w : world) :
  distinct_keys (heap_of (env s)) →
  typeof (data s) = "object" →
  jsonFilePath s ≠ EmptyString →
  MyJsonDatabase.save s = (Ok (), s1) →
  files w = files (env s1) →
  ∃ s', MyJsonDatabase.constructor (Some (jsonFilePath s)) None w = (Ok (), s')
        ∧ JSON_stringify (heap_of (env s')) (data s')
          = JSON_stringify (heap_of (env s)) (data s)
        ∧ files (env s') = files w.
Proof.
  intros Hh Hty Hp Hsave Hfiles.
  unfold MyJsonDatabase.save, writeFileSync in Hsave. revert Hsave. run.
  destruct (JSON_stringify _ _) as [[j|]|] eqn:Hser; simpl; [|done..].
  destruct (bool_decide _); simpl; [done|]. intros [= <-]. simpl in Hfiles.
  assert (canonical j) as Hcan by (by eapply stringify_canonical).
  assert (path_or_default (Some (jsonFilePath s)) = jsonFilePath s) as Hpath.
  { simpl. apply String.eqb_neq in Hp. by rewrite Hp. }
  rewrite (constructor_reads w (Some (jsonFilePath s)) None j); [|done|];
    cycle 1.
  { by rewrite Hpath, Hfiles, lookup_insert_eq. }
  eexists. split; [done|]. simpl. split; [|done].
  rewrite (stringify_of_object _ _ _ Hty Hser).
  destruct (canonical_revives _ Hcan (heap_of w ++ [Obj []]))
    as (v & ext & Hrev & Hback).
  rewrite Hrev. simpl. unfold JSON_stringify.
  specialize (Hback [] (S (length ((heap_of w ++ [Obj []]) ++ ext))) []).
  rewrite app_nil_r in Hback. apply Hback; [|constructor].
  rewrite length_app. lia.
Qed.

End Theorems.

(** * The properties on examples *)

#[local] Existing Instances int_double_type int_doubles.

Lemma get_after_set_example :
  mappings_along (heap_of (env store_with_mapping)) (data store_with_mapping)
    (split "." "a.b") = Some [0; 1]
  ∧ JSON_stringify (heap_of (env store_with_mapping)) (data store_with_mapping)
    ≠ None
  ∧ last (split "." "a.b") ≠ Some "__proto__"
  ∧ let s' := after (MyJsonDatabase.set "a.b" (VNumber (Int 1))) store_with_mapping in
    MyJsonDatabase.get "a.b" s' = (Ok (VNumber (Int 1)), s')
    ∧ ∀ parent p,
        split "." "a.b" = split "." parent ++ [p] →
        ∃ l props,
          MyJsonDatabase.get parent s' = (Ok (VRef l), s')
          ∧ heap_of (env s') !! l = Some (Obj props)
          ∧ lookup_prop props p = Some (VNumber (Int 1)).
Proof.
  assert (mappings_along (heap_of (env store_with_mapping))
            (data store_with_mapping) (split "." "a.b") = Some [0; 1]) as Hpath
    by (vm_compute; reflexivity).
  assert (JSON_stringify (heap_of (env store_with_mapping))
            (data store_with_mapping) ≠ None) as Hser
    by (vm_compute; discriminate).
  assert (last (split "." "a.b") ≠ Some "__proto__") as Hlast
    by (vm_compute; discriminate).
  split; [exact Hpath|]. split; [exact Hser|]. split; [exact Hlast|].
  exact (get_after_set (JS := int_doubles) store_with_mapping "a.b"
           (VNumber (Int 1)) [0; 1] Hpath Hser Hlast).
Defined.

(** [o = {}; o.a = o; db.set("x", o)] throws and leaves the Document
    [{x: o}].  Every segment of ["x.a.a"] but the last then resolves to an
    existing mapping ([o], twice); [set("x.a.a", 1)] writes [a] in [o],
    which undoes the cycle, and returns normally; [get("x.a.a")] then
    reads [a] of the number [1]: [undefined]. *)
Lemma set_then_get_on_a_cyclic_document :
  mappings_along (heap_of (env store_with_cycle)) (data store_with_cycle)
    (split "." "x.a.a") = Some [0; 1; 1]
  ∧ JSON_stringify (heap_of (env store_with_cycle)) (data store_with_cycle) = None
  ∧ let s' := after (MyJsonDatabase.set "x.a.a" (VNumber (Int 1))) store_with_cycle in
    MyJsonDatabase.set "x.a.a" (VNumber (Int 1)) store_with_cycle = (Ok (), s')
    ∧ MyJsonDatabase.get "x.a.a" s' = (Ok VUndefined, s')
    ∧ MyJsonDatabase.get "x.a" s' = (Ok (VNumber (Int 1)), s').
Proof. vm_compute. repeat split. Qed.

Lemma file_is_serialized_document_example :
  let s' := after (perform (Set_ "a" (VNumber (Int 1)))) fresh_store in
  perform (Set_ "a" (VNumber (Int 1))) fresh_store = (Ok (), s')
  ∧ ∃ j, JSON_stringify (heap_of (env s')) (data s') = Some (Some j)
         ∧ files (env s') !! jsonFilePath s' = Some (JSONText j).
Proof.
  intros s'.
  assert (perform (Set_ "a" (VNumber (Int 1))) fresh_store = (Ok (), s')) as Hrun
    by (vm_compute; reflexivity).
  split; [exact Hrun|].
  exact (file_is_serialized_document_after_mutation (JS := int_doubles) _ _ _ Hrun).
Defined.

(** [add] and [subtract] with a string for amount, and [push] on a key
    holding [0], all return normally: no error is raised. *)
Lemma add_accepts_a_string :
  (MyJsonDatabase.add "n" (VString "abc") fresh_store).1 = Ok ()
  ∧ (MyJsonDatabase.get "n"
       (after (MyJsonDatabase.add "n" (VString "abc")) fresh_store)).1
    = Ok (VString "0abc")
  ∧ (MyJsonDatabase.subtract "n" (VString "abc") fresh_store).1 = Ok ()
  ∧ (MyJsonDatabase.get "n"
       (after (MyJsonDatabase.subtract "n" (VString "abc")) fresh_store)).1
    = Ok (VNumber NotANumber)
  ∧ (MyJsonDatabase.push "a" (VNumber (Int 7)) store_with_zero).1 = Ok ()
  ∧ (MyJsonDatabase.get "a.0"
       (after (MyJsonDatabase.push "a" (VNumber (Int 7))) store_with_zero)).1
    = Ok (VNumber (Int 7)).
Proof. vm_compute. repeat split. Qed.

Lemma accumulate_unchecked_push_checked_example :
  data fresh_store = VRef 0
  ∧ heap_of (env fresh_store) !! 0 = Some (Obj [])
  ∧ (lookup_prop (@nil (string * value)) "n" = None → inherited_name "n" = false)
  ∧ MyJsonDatabase.add "n" (VString "abc") fresh_store
    = MyJsonDatabase.save
        (with_heap_of fresh_store [Obj [("n", VString "0abc")]]).
Proof.
  assert (data fresh_store = VRef 0) as Hd by reflexivity.
  assert (heap_of (env fresh_store) !! 0 = Some (Obj [])) as Hl by reflexivity.
  assert (lookup_prop (@nil (string * value)) "n" = None
          → inherited_name "n" = false) as Hkey
    by (intros _; vm_compute; reflexivity).
  split; [exact Hd|]. split; [exact Hl|]. split; [exact Hkey|].
  exact (proj1 (accumulate_unchecked_push_checked (JS := int_doubles)
                  fresh_store 0 [] "n" (VString "abc") Hd Hl Hkey)
           (VString "0abc") eq_refl).
Defined.

(** An amount that is an object with an own property [toString] cannot be
    converted: [add] and [subtract] throw a [TypeError], after the absent
    key was given [0], and write nothing. *)
Lemma add_rejects_unconvertible_amount :
  let s := after (literal (Obj [("toString", VNumber (Int 1))])) fresh_store in
  (MyJsonDatabase.add "n" (VRef 1) s).1 = Throw TypeError
  ∧ (MyJsonDatabase.subtract "n" (VRef 1) s).1 = Throw TypeError
  ∧ heap_of (env (after (MyJsonDatabase.add "n" (VRef 1)) s)) !! 0
    = Some (Obj [("n", VNumber (Int 0))])
  ∧ files (env (after (MyJsonDatabase.add "n" (VRef 1)) s)) = files (env s).
Proof. intros s. split_and!; vm_compute; reflexivity. Qed.

Lemma clear_throws_on_falsy_value_example :
  data store_with_zero = VRef 0
  ∧ heap_of (env store_with_zero) !! 0 = Some (Obj [("a", VNumber (Int 0))])
  ∧ lookup_prop [("a", VNumber (Int 0))] "a" = Some (VNumber (Int 0))
  ∧ ToBoolean (VNumber (Int 0)) = false
  ∧ MyJsonDatabase.clear "a" store_with_zero
    = (Throw (Error ("there is no key " +:+ dquote +:+ "a" +:+ dquote
                     +:+ ", in your database")), store_with_zero).
Proof.
  assert (data store_with_zero = VRef 0) as Hd by reflexivity.
  assert (heap_of (env store_with_zero) !! 0
          = Some (Obj [("a", VNumber (Int 0))])) as Hl by (vm_compute; reflexivity).
  assert (lookup_prop [("a", VNumber (Int 0))] "a" = Some (VNumber (Int 0))) as Hp
    by reflexivity.
  assert (ToBoolean (VNumber (Int 0)) = false) as Hv by reflexivity.
  repeat (split; [assumption|]).
  exact (clear_throws_on_falsy_value (JS := int_doubles) store_with_zero "a" 0 _ _ Hd Hl Hp Hv).
Defined.

Lemma constructor_accepts_null_example :
  "db.json" ≠ EmptyString
  ∧ files world_with_null !! "db.json" = Some (JSONText JNull)
  ∧ ∃ s', MyJsonDatabase.constructor (Some "db.json") None world_with_null
          = (Ok (), s')
          ∧ data s' = (revive JNull (heap_of world_with_null ++ [Obj []])).1
          ∧ ¬ is_mapping (heap_of (env s')) (data s').
Proof.
  assert ("db.json" ≠ EmptyString) as Hp by discriminate.
  assert (files world_with_null !! "db.json" = Some (JSONText JNull)) as Hfile
    by (vm_compute; reflexivity).
  split; [exact Hp|]. split; [exact Hfile|].
  exact (constructor_accepts_null_and_arrays (JS := int_doubles) world_with_null "db.json" JNull
           Hp Hfile (or_introl eq_refl)).
Defined.

(** [set("a.b", 1)] where [a] is an empty mapping: [get("a.b")] is [1] and
    [get("a")] is the mapping, which now holds [b: 1]. *)
Lemma get_after_set_nested :
  let s' := after (MyJsonDatabase.set "a.b" (VNumber (Int 1))) store_with_mapping in
  (MyJsonDatabase.get "a.b" s').1 = Ok (VNumber (Int 1))
  ∧ (MyJsonDatabase.get "a" s').1 = Ok (VRef 1)
  ∧ heap_of (env s') !! 1 = Some (Obj [("b", VNumber (Int 1))]).
Proof. vm_compute. repeat split. Qed.

(** The Document after construction on the two file systems. *)
Lemma constructor_null_and_array_documents :
  data (MyJsonDatabase.constructor (Some "db.json") None world_with_null).2 = VNull
  ∧ (let s' := (MyJsonDatabase.constructor (Some "db.json") None world_with_array).2 in
     data s' = VRef 1 ∧ heap_of (env s') !! 1 = Some (Arr [VNumber (Int 1)])).
Proof. vm_compute. repeat split. Qed.




(** [set("b", 1); set("1", 2); all()]: the key set last comes first. *)
Lemma all_puts_index_keys_first :
  (MyJsonDatabase.all store_b_1).1
  = Ok [ {| Entry.key := "1"; Entry.data := VNumber (Int 2) |};
         {| Entry.key := "b"; Entry.data := VNumber (Int 1) |} ]
  ∧ heap_of (env store_b_1) !! 0
    = Some (Obj [("b", VNumber (Int 1)); ("1", VNumber (Int 2))]).
Proof. vm_compute. repeat split. Qed.

Lemma all_follows_property_order_example :
  data store_a_b = VRef 0
  ∧ heap_of (env store_a_b) !! 0
    = Some (Obj [("a", VNumber (Int 1)); ("b", VNumber (Int 2))])
  ∧ MyJsonDatabase.all store_a_b
    = (Ok [ {| Entry.key := "a"; Entry.data := VNumber (Int 1) |};
            {| Entry.key := "b"; Entry.data := VNumber (Int 2) |} ], store_a_b)
  ∧ MyJsonDatabase.all (after MyJsonDatabase.clearAll store_a_b)
    = (Ok [], after MyJsonDatabase.clearAll store_a_b).
Proof.
  assert (data store_a_b = VRef 0) as Hd by reflexivity.
  assert (heap_of (env store_a_b) !! 0
          = Some (Obj [("a", VNumber (Int 1)); ("b", VNumber (Int 2))])) as Hl
    by (vm_compute; reflexivity).
  repeat (split; [assumption|]).
  destruct (all_follows_property_order (JS := int_doubles) store_a_b 0 _ Hd Hl)
    as (_ & _ & _ & Hins & Hclear).
  split; [|exact Hclear].
  apply Hins. repeat constructor.
Defined.

(** The sequence holds [o1] and [o2], two objects [{b: 1}]: [o1] is
    structurally equal to the argument [o2] and is another reference, and
    [pullOne] and [pullMany] change the sequence all the same, removing
    [o2]. *)
Lemma pull_removes_the_reference_among_equals :
  let h := heap_of (env store_with_two_objects) in
  h !! 3 = Some (Arr [VRef 1; VRef 2])
  ∧ get_prop [("list", VRef 3)] "list" = VRef 3
  ∧ h !! 0 = Some (Obj [("list", VRef 3)])
  ∧ structurally_equal 2 h (VRef 1) (VRef 2) = true
  ∧ is_primitive (VRef 1) = false
  ∧ VRef 1 ≠ VRef 2
  ∧ heap_of (env (after (MyJsonDatabase.pullOne "list" (VRef 2))
                    store_with_two_objects)) !! 3
    = Some (Arr [VRef 1])
  ∧ heap_of (env (after (MyJsonDatabase.pullMany "list" (VRef 2))
                    store_with_two_objects)) !! 3
    = Some (Arr [VRef 1]).
Proof. vm_compute. repeat split. discriminate. Qed.

Lemma pull_keeps_other_references_example :
  let s := store_with_one_object in
  data s = VRef 0
  ∧ heap_of (env s) !! 0 = Some (Obj [("list", VRef 3)])
  ∧ get_prop [("list", VRef 3)] "list" = VRef 3
  ∧ heap_of (env s) !! 3 = Some (Arr [VRef 1])
  ∧ (VRef 2 ∉ [VRef 1])
  ∧ structurally_equal 2 (heap_of (env s)) (VRef 1) (VRef 2) = true
  ∧ MyJsonDatabase.pullOne "list" (VRef 2) s = MyJsonDatabase.save s
  ∧ MyJsonDatabase.pullMany "list" (VRef 2) s = MyJsonDatabase.save s.
Proof.
  intros s.
  assert (data s = VRef 0) as Hd by reflexivity.
  assert (heap_of (env s) !! 0 = Some (Obj [("list", VRef 3)])) as Hl
    by (vm_compute; reflexivity).
  assert (get_prop (NT := int_double_type) [("list", VRef 3)] "list" = VRef 3) as Hk
    by reflexivity.
  assert (heap_of (env s) !! 3 = Some (Arr [VRef 1])) as Ha
    by (vm_compute; reflexivity).
  assert (@VRef int_double_type 2 ∉ [VRef 1]) as Hnotin.
  { intros Hin. apply list_elem_of_singleton in Hin. discriminate Hin. }
  assert (structurally_equal 2 (heap_of (env s)) (VRef 1) (VRef 2) = true) as Heq
    by (vm_compute; reflexivity).
  repeat (split; [assumption|]).
  destruct (pull_keeps_other_references (JS := int_doubles) s 0 _ "list" 3 _ 2 Hd Hl Hk Ha Hnotin)
    as (H1 & H2 & _).
  split; [exact H1 | exact H2].
Defined.


(** ** The further properties on examples *)

Lemma get_always_returns_example :
  closed_heap (heap_of (env store_with_mapping))
  ∧ closed_value (heap_of (env store_with_mapping)) (data store_with_mapping)
  ∧ Forall (λ p, builtin_name p = false) (split "." "a.b.c")
  ∧ ∃ v, MyJsonDatabase.get "a.b.c" store_with_mapping = (Ok v, store_with_mapping)
         ∧ MyJsonDatabase.has "a.b.c" store_with_mapping
           = (Ok (not_nullish v), store_with_mapping)
         ∧ closed_value (heap_of (env store_with_mapping)) v.
Proof.
  assert (heap_of (env store_with_mapping) = [Obj [("a", VRef 1)]; Obj []])
    as Hheap by (vm_compute; reflexivity).
  assert (closed_heap (heap_of (env store_with_mapping))) as Hh.
  { rewrite Hheap. intros [|[|l]] c; simpl; intros [= <-]; simpl;
      repeat constructor. by eexists. }
  assert (closed_value (heap_of (env store_with_mapping))
            (data store_with_mapping)) as Hd
    by (rewrite Hheap; by eexists).
  assert (Forall (λ p, builtin_name p = false) (split "." "a.b.c")) as Hkey
    by (apply (bool_decide_unpack _); vm_compute; reflexivity).
  split; [exact Hh|]. split; [exact Hd|]. split; [exact Hkey|].
  exact (get_always_returns (JS := int_doubles) store_with_mapping "a.b.c"
           Hh Hd Hkey).
Defined.

Lemma get_returns_first_falsy_value_example :
  split "." "a.b" = ["a"] ++ ["b"]
  ∧ get_loop (heap_of (env store_with_zero)) (data store_with_zero) ["a"]
    = Ok (VNumber (Int 0))
  ∧ ToBoolean (VNumber (Int 0)) = false
  ∧ MyJsonDatabase.get "a.b" store_with_zero
    = (Ok (VNumber (Int 0)), store_with_zero)
  ∧ MyJsonDatabase.has "a.b" store_with_zero
    = (Ok (not_nullish (VNumber (Int 0))), store_with_zero).
Proof.
  assert (split "." "a.b" = ["a"] ++ ["b"]) as Hk by (vm_compute; reflexivity).
  assert (get_loop (heap_of (env store_with_zero)) (data store_with_zero) ["a"]
          = Ok (VNumber (Int 0))) as Hpre by (vm_compute; reflexivity).
  assert (ToBoolean (VNumber (Int 0)) = false) as Hv by reflexivity.
  repeat (split; [assumption|]).
  exact (get_returns_first_falsy_value (JS := int_doubles) store_with_zero
           "a.b" ["a"] ["b"] _ Hk Hpre Hv).
Defined.

Lemma set_through_primitive_is_dropped_example :
  split "." "a.b" = ["a"] ++ ["b"]
  ∧ walk (heap_of (env store_a_b)) (data store_a_b) ["a"] = Ok (VNumber (Int 1))
  ∧ is_primitive (VNumber (Int 1)) = true
  ∧ not_nullish (VNumber (Int 1)) = true
  ∧ MyJsonDatabase.set "a.b" (VString "x") store_a_b
    = MyJsonDatabase.save store_a_b.
Proof.
  assert (split "." "a.b" = ["a"] ++ ["b"]) as Hk by (vm_compute; reflexivity).
  assert (walk (heap_of (env store_a_b)) (data store_a_b) ["a"]
          = Ok (VNumber (Int 1))) as Hw by (vm_compute; reflexivity).
  assert (is_primitive (VNumber (Int 1)) = true) as Hp by reflexivity.
  assert (not_nullish (VNumber (Int 1)) = true) as Hn by reflexivity.
  repeat (split; [assumption|]).
  exact (set_through_primitive_is_dropped (JS := int_doubles) store_a_b
           "a.b" (VString "x") ["a"] "b" _ Hk Hw Hp Hn).
Defined.

Lemma set_top_level_key_only_example :
  data store_a_b = VRef 0
  ∧ heap_of (env store_a_b) !! 0
    = Some (Obj [("a", VNumber (Int 1)); ("b", VNumber (Int 2))])
  ∧ split "." "a" = ["a"]
  ∧ "a" ≠ "__proto__"
  ∧ heap_of (env (after (MyJsonDatabase.set "a" (VNumber (Int 5))) store_a_b)) !! 0
    = Some (Obj (set_prop [("a", VNumber (Int 1)); ("b", VNumber (Int 2))]
                   "a" (VNumber (Int 5)))).
Proof.
  assert (data store_a_b = VRef 0) as Hd by reflexivity.
  assert (heap_of (env store_a_b) !! 0
          = Some (Obj [("a", VNumber (Int 1)); ("b", VNumber (Int 2))])) as Hl
    by (vm_compute; reflexivity).
  assert (split "." "a" = ["a"]) as Hk by (vm_compute; reflexivity).
  assert ("a" ≠ "__proto__") as Hne by discriminate.
  repeat (split; [assumption|]).
  exact (proj1 (set_top_level_key_only (JS := int_doubles) store_a_b 0 _ "a"
                  (VNumber (NT := int_double_type) (Int 5)) Hd Hl Hk Hne)).
Defined.

Lemma delete_removes_top_level_name_example :
  data store_a_b = VRef 0
  ∧ heap_of (env store_a_b) !! 0
    = Some (Obj [("a", VNumber (Int 1)); ("b", VNumber (Int 2))])
  ∧ heap_of (env (after (MyJsonDatabase.delete "a") store_a_b)) !! 0
    = Some (Obj (delete_prop [("a", VNumber (Int 1)); ("b", VNumber (Int 2))] "a")).
Proof.
  assert (data store_a_b = VRef 0) as Hd by reflexivity.
  assert (heap_of (env store_a_b) !! 0
          = Some (Obj [("a", VNumber (Int 1)); ("b", VNumber (Int 2))])) as Hl
    by (vm_compute; reflexivity).
  repeat (split; [assumption|]).
  exact (proj1 (delete_removes_top_level_name (JS := int_doubles) store_a_b 0 _
                  "a" Hd Hl)).
Defined.

Lemma dotted_key_written_not_read_example :
  data fresh_store = VRef 0
  ∧ heap_of (env fresh_store) !! 0 = Some (Obj [])
  ∧ split "." "a.b" = "a" :: "b" :: []
  ∧ lookup_prop (@nil (string * value)) "a" = None
  ∧ inherited_name "a" = false
  ∧ lookup_prop (@nil (string * value)) "a.b" = None
  ∧ (let s' := after (MyJsonDatabase.push "a.b" (VNumber (Int 1))) fresh_store in
     MyJsonDatabase.get "a.b" s' = (Ok VUndefined, s')
     ∧ MyJsonDatabase.has "a.b" s' = (Ok false, s')).
Proof.
  assert (data fresh_store = VRef 0) as Hd by reflexivity.
  assert (heap_of (env fresh_store) !! 0 = Some (Obj [])) as Hl by reflexivity.
  assert (split "." "a.b" = "a" :: "b" :: []) as Hk by (vm_compute; reflexivity).
  assert (lookup_prop (@nil (string * value)) "a" = None) as Hp by reflexivity.
  assert (inherited_name "a" = false) as Hn by (vm_compute; reflexivity).
  assert (lookup_prop (@nil (string * value)) "a.b" = None) as Hq by reflexivity.
  repeat (split; [assumption|]).
  exact (proj2 (proj1 (dotted_key_written_not_read (JS := int_doubles)
                         fresh_store 0 [] "a.b" "a" "b" []
                         (VNumber (NT := int_double_type) (Int 1))
                         Hd Hl Hk Hp Hn Hq))).
Defined.


Lemma push_appends_and_pullOne_undoes_example :
  data store_with_list = VRef 0
  ∧ heap_of (env store_with_list) !! 0 = Some (Obj [("list", VRef 1)])
  ∧ get_prop [("list", VRef 1)] "list" = VRef 1
  ∧ heap_of (env store_with_list) !! 1
    = Some (Arr [VNumber (Int 1); VNumber (Int 1); VNumber (Int 2)])
  ∧ heap_of (env (after (MyJsonDatabase.push "list" (VNumber (Int 3)))
                    store_with_list))
    = <[1 := Arr ([VNumber (Int 1); VNumber (Int 1); VNumber (Int 2)]
                  ++ [VNumber (Int 3)])]> (heap_of (env store_with_list)).
Proof.
  assert (data store_with_list = VRef 0) as Hd by reflexivity.
  assert (heap_of (env store_with_list) !! 0 = Some (Obj [("list", VRef 1)])) as Hl
    by (vm_compute; reflexivity).
  assert (get_prop [("list", VRef 1)] "list" = VRef 1) as Hk by reflexivity.
  assert (heap_of (env store_with_list) !! 1
          = Some (Arr [VNumber (Int 1); VNumber (Int 1); VNumber (Int 2)])) as Ha
    by (vm_compute; reflexivity).
  repeat (split; [assumption|]).
  exact (proj1 (push_appends_and_pullOne_undoes (JS := int_doubles)
                  store_with_list 0 _ "list" 1 _
                  (VNumber (NT := int_double_type) (Int 3)) Hd Hl Hk Ha)).
Defined.

Lemma pull_on_number_or_boolean_example :
  data store_a_b = VRef 0
  ∧ heap_of (env store_a_b) !! 0
    = Some (Obj [("a", VNumber (Int 1)); ("b", VNumber (Int 2))])
  ∧ ToBoolean (get_prop [("a", VNumber (Int 1)); ("b", VNumber (Int 2))] "a") = true
  ∧ MyJsonDatabase.pullOne "a" (VNumber (Int 1)) store_a_b
    = (Throw TypeError, store_a_b)
  ∧ MyJsonDatabase.pullMany "a" (VNumber (Int 1)) store_a_b
    = MyJsonDatabase.save store_a_b.
Proof.
  assert (data store_a_b = VRef 0) as Hd by reflexivity.
  assert (heap_of (env store_a_b) !! 0
          = Some (Obj [("a", VNumber (Int 1)); ("b", VNumber (Int 2))])) as Hl
    by (vm_compute; reflexivity).
  assert (ToBoolean (get_prop [("a", VNumber (Int 1)); ("b", VNumber (Int 2))] "a")
          = true) as Hv by reflexivity.
  repeat (split; [assumption|]).
  exact (pull_on_number_or_boolean (JS := int_doubles) store_a_b 0 _ "a"
           (VNumber (NT := int_double_type) (Int 1)) Hd Hl Hv
           (or_introl (ex_intro _ (Int 1) eq_refl))).
Defined.

Lemma clear_stores_new_empty_mapping_example :
  data store_a_b = VRef 0
  ∧ heap_of (env store_a_b) !! 0
    = Some (Obj [("a", VNumber (Int 1)); ("b", VNumber (Int 2))])
  ∧ ToBoolean (get_prop [("a", VNumber (Int 1)); ("b", VNumber (Int 2))] "a") = true
  ∧ heap_of (env (after (MyJsonDatabase.clear "a") store_a_b)) !! 0
    = Some (Obj (set_prop [("a", VNumber (Int 1)); ("b", VNumber (Int 2))] "a"
                   (VRef (length (heap_of (env store_a_b)))))).
Proof.
  assert (data store_a_b = VRef 0) as Hd by reflexivity.
  assert (heap_of (env store_a_b) !! 0
          = Some (Obj [("a", VNumber (Int 1)); ("b", VNumber (Int 2))])) as Hl
    by (vm_compute; reflexivity).
  assert (ToBoolean (get_prop [("a", VNumber (Int 1)); ("b", VNumber (Int 2))] "a")
          = true) as Hv by reflexivity.
  repeat (split; [assumption|]).
  exact (proj1 (clear_stores_new_empty_mapping (JS := int_doubles) store_a_b 0 _
                  "a" Hd Hl Hv)).
Defined.

Lemma clearAll_from_any_state_example :
  jsonFilePath store_with_null ∉ dirs (env store_with_null)
  ∧ ∃ s', MyJsonDatabase.clearAll store_with_null = (Ok (), s')
          ∧ data s' = VRef (length (heap_of (env store_with_null)))
          ∧ heap_of (env s') = heap_of (env store_with_null) ++ [Obj []]
          ∧ files (env s')
            = <[jsonFilePath store_with_null := JSONText (JObject [])]>
                (files (env store_with_null)).
Proof.
  assert (jsonFilePath store_with_null ∉ dirs (env store_with_null)) as Hp
    by (vm_compute; discriminate).
  split; [exact Hp|].
  exact (clearAll_from_any_state (JS := int_doubles) store_with_null Hp).
Defined.

Lemma null_document_rejects_mutations_example :
  data store_with_null = VNull
  ∧ MyJsonDatabase.all store_with_null = (Throw TypeError, store_with_null)
  ∧ (∀ key, MyJsonDatabase.get key store_with_null = (Ok VNull, store_with_null))
  ∧ (∀ key, MyJsonDatabase.has key store_with_null = (Ok false, store_with_null)).
Proof.
  assert (data store_with_null = VNull) as Hd by (vm_compute; reflexivity).
  split; [exact Hd|].
  exact (proj2 (null_document_rejects_mutations (JS := int_doubles)
                  store_with_null Hd)).
Defined.

Lemma constructor_creates_missing_file_example :
  path_or_default None = default_file_path
  ∧ backups_enabled None = None
  ∧ nothing_at empty_world (path_or_default None)
  ∧ MyJsonDatabase.constructor None None empty_world
    = (Ok (),
       {| env := {| heap_of := heap_of empty_world ++ [Obj []];
                    files := <[path_or_default None := JSONText (JObject [])]>
                               (files empty_world);
                    dirs := dirs empty_world;
                    timers := timers empty_world |};
          jsonFilePath := path_or_default None;
          options := default {| backups := None |} None;
          data := VRef (length (heap_of empty_world)) |}).
Proof.
  assert (path_or_default None = default_file_path) as Hw by reflexivity.
  assert (backups_enabled None = None) as Hb by reflexivity.
  assert (nothing_at empty_world (path_or_default None)) as Hf.
  { intros q _. split; [apply lookup_empty|apply not_elem_of_empty]. }
  repeat (split; [assumption|]).
  exact (constructor_creates_missing_file (JS := int_doubles) empty_world None
           None Hw Hb Hf).
Defined.

Lemma constructor_prepares_backups_example :
  backups_enabled (Some backups_on)
  = Some {| enabled := true; interval := None; path := None |}
  ∧ MyJsonDatabase.or_backups None = default_backups_path
  ∧ no_file_at empty_world (MyJsonDatabase.or_backups None)
  ∧ timers (env (MyJsonDatabase.constructor None (Some backups_on) empty_world).2)
    = timers empty_world ++ [interval_or_default None].
Proof.
  assert (backups_enabled (Some backups_on)
          = Some {| enabled := true; interval := None; path := None |}) as Hb
    by reflexivity.
  assert (MyJsonDatabase.or_backups None = default_backups_path) as Hw
    by reflexivity.
  assert (no_file_at empty_world (MyJsonDatabase.or_backups None)) as Hf.
  { intros q _. apply lookup_empty. }
  split; [exact Hb|]. split; [exact Hw|]. split; [exact Hf|].
  exact (proj2 (proj2 (constructor_prepares_backups (JS := int_doubles)
                         empty_world None (Some backups_on) _ Hb Hw Hf))).
Defined.

Lemma accumulate_and_delete_return_normally_example :
  data store_a_b = VRef 0
  ∧ heap_of (env store_a_b) !! 0
    = Some (Obj [("a", VNumber (Int 1)); ("b", VNumber (Int 2))])
  ∧ JSON_stringify (heap_of (env store_a_b)) (data store_a_b) ≠ None
  ∧ jsonFilePath store_a_b ∉ dirs (env store_a_b)
  ∧ is_primitive (VString "x") = true
  ∧ is_primitive (get_prop [("a", VNumber (Int 1)); ("b", VNumber (Int 2))] "a")
    = true
  ∧ (MyJsonDatabase.add "a" (VString "x") store_a_b).1 = Ok ()
  ∧ (MyJsonDatabase.subtract "a" (VString "x") store_a_b).1 = Ok ()
  ∧ (MyJsonDatabase.delete "a" store_a_b).1 = Ok ().
Proof.
  assert (data store_a_b = VRef 0) as Hd by reflexivity.
  assert (heap_of (env store_a_b) !! 0
          = Some (Obj [("a", VNumber (Int 1)); ("b", VNumber (Int 2))])) as Hl
    by (vm_compute; reflexivity).
  assert (JSON_stringify (heap_of (env store_a_b)) (data store_a_b) ≠ None)
    as Hser by (vm_compute; discriminate).
  assert (jsonFilePath store_a_b ∉ dirs (env store_a_b)) as Hp
    by (vm_compute; discriminate).
  assert (is_primitive (VString "x") = true) as Hc by reflexivity.
  assert (is_primitive (get_prop [("a", VNumber (Int 1)); ("b", VNumber (Int 2))]
                          "a") = true) as Hv by reflexivity.
  repeat (split; [assumption|]).
  destruct (accumulate_and_delete_return_normally (JS := int_doubles) store_a_b
              0 _ "a" (VString "x") Hd Hl Hser Hp) as [Hacc Hdel].
  destruct (Hacc Hc Hv) as [Hadd Hsub]; [discriminate|].
  split; [exact Hadd|]. split; [exact Hsub | exact Hdel].
Defined.

Lemma sequence_operations_return_normally_example :
  data store_with_list = VRef 0
  ∧ heap_of (env store_with_list) !! 0 = Some (Obj [("list", VRef 1)])
  ∧ get_prop [("list", VRef 1)] "list" = VRef 1
  ∧ heap_of (env store_with_list) !! 1
    = Some (Arr [VNumber (Int 1); VNumber (Int 1); VNumber (Int 2)])
  ∧ JSON_stringify (heap_of (env store_with_list)) (data store_with_list) ≠ None
  ∧ jsonFilePath store_with_list ∉ dirs (env store_with_list)
  ∧ (MyJsonDatabase.pullOne "list" (VNumber (Int 1)) store_with_list).1 = Ok ()
  ∧ (MyJsonDatabase.pullMany "list" (VNumber (Int 1)) store_with_list).1 = Ok ().
Proof.
  assert (data store_with_list = VRef 0) as Hd by reflexivity.
  assert (heap_of (env store_with_list) !! 0 = Some (Obj [("list", VRef 1)])) as Hl
    by (vm_compute; reflexivity).
  assert (get_prop [("list", VRef 1)] "list" = VRef 1) as Hk by reflexivity.
  assert (heap_of (env store_with_list) !! 1
          = Some (Arr [VNumber (Int 1); VNumber (Int 1); VNumber (Int 2)])) as Ha
    by (vm_compute; reflexivity).
  assert (JSON_stringify (heap_of (env store_with_list)) (data store_with_list)
          ≠ None) as Hser by (vm_compute; discriminate).
  assert (jsonFilePath store_with_list ∉ dirs (env store_with_list)) as Hp
    by (vm_compute; discriminate).
  repeat (split; [assumption|]).
  destruct (sequence_operations_return_normally (JS := int_doubles)
              store_with_list 0 _ "list" 1 _
              (VNumber (NT := int_double_type) (Int 1)) Hd Hl Hk Ha Hser Hp)
    as (H1 & H2 & _).
  split; [exact H1 | exact H2].
Defined.

Lemma set_primitive_returns_normally_example :
  mappings_along (heap_of (env store_with_mapping)) (data store_with_mapping)
    (split "." "a.b") = Some [0; 1]
  ∧ JSON_stringify (heap_of (env store_with_mapping)) (data store_with_mapping)
    ≠ None
  ∧ jsonFilePath store_with_mapping ∉ dirs (env store_with_mapping)
  ∧ is_primitive (VString "x") = true
  ∧ last (split "." "a.b") ≠ Some "__proto__"
  ∧ ∃ s', MyJsonDatabase.set "a.b" (VString "x") store_with_mapping = (Ok (), s')
          ∧ MyJsonDatabase.get "a.b" s' = (Ok (VString "x"), s').
Proof.
  assert (mappings_along (heap_of (env store_with_mapping))
            (data store_with_mapping) (split "." "a.b") = Some [0; 1]) as Hpath
    by (vm_compute; reflexivity).
  assert (JSON_stringify (heap_of (env store_with_mapping))
            (data store_with_mapping) ≠ None) as Hser
    by (vm_compute; discriminate).
  assert (jsonFilePath store_with_mapping ∉ dirs (env store_with_mapping)) as Hp
    by (vm_compute; discriminate).
  assert (is_primitive (VString "x") = true) as Hv by reflexivity.
  assert (last (split "." "a.b") ≠ Some "__proto__") as Hlast
    by (vm_compute; discriminate).
  repeat (split; [assumption|]).
  exact (set_primitive_returns_normally (JS := int_doubles) store_with_mapping
           "a.b" (VString "x") [0; 1] Hpath Hser Hp Hv Hlast).
Defined.

Lemma constructor_loads_canonical_file_example :
  "db.json" ≠ EmptyString
  ∧ files world_with_object !! "db.json"
    = Some (JSONText (JObject [("a", JNumber (Int 1))]))
  ∧ canonical (JObject [("a", JNumber (Int 1))])
  ∧ ∃ s', MyJsonDatabase.constructor (Some "db.json") None world_with_object
          = (Ok (), s')
          ∧ is_mapping (heap_of (env s')) (data s')
          ∧ JSON_stringify (heap_of (env s')) (data s')
            = Some (Some (JObject [("a", JNumber (Int 1))]))
          ∧ files (env s') = files world_with_object.
Proof.
  assert ("db.json" ≠ EmptyString) as Hp by discriminate.
  assert (files world_with_object !! "db.json"
          = Some (JSONText (JObject [("a", JNumber (Int 1))]))) as Hf
    by (vm_compute; reflexivity).
  assert (canonical (JObject [("a", JNumber (Int 1))])) as Hc.
  { constructor.
    - vm_compute; reflexivity.
    - apply (bool_decide_unpack _). vm_compute; reflexivity.
    - repeat constructor. }
  repeat (split; [assumption|]).
  exact (constructor_loads_canonical_file (JS := int_doubles) world_with_object
           "db.json" _ Hp Hf Hc).
Defined.

Lemma saved_file_reloads_example :
  distinct_keys (heap_of (env store_a_b))
  ∧ typeof (data store_a_b) = "object"
  ∧ jsonFilePath store_a_b ≠ EmptyString
  ∧ MyJsonDatabase.save store_a_b = (Ok (), after MyJsonDatabase.save store_a_b)
  ∧ files world_after_a_b = files (env (after MyJsonDatabase.save store_a_b))
  ∧ ∃ s', MyJsonDatabase.constructor (Some (jsonFilePath store_a_b)) None
            world_after_a_b = (Ok (), s')
          ∧ JSON_stringify (heap_of (env s')) (data s')
            = JSON_stringify (heap_of (env store_a_b)) (data store_a_b)
          ∧ files (env s') = files world_after_a_b.
Proof.
  assert (distinct_keys (heap_of (env store_a_b))) as Hh.
  { assert (heap_of (env store_a_b)
            = [Obj [("a", VNumber (Int 1)); ("b", VNumber (Int 2))]]) as ->
      by (vm_compute; reflexivity).
    intros [|l] props; simpl; intros [= <-].
    apply (bool_decide_unpack _). vm_compute; reflexivity. }
  assert (typeof (data store_a_b) = "object") as Hty by reflexivity.
  assert (jsonFilePath store_a_b ≠ EmptyString) as Hp by discriminate.
  assert (MyJsonDatabase.save store_a_b
          = (Ok (), after MyJsonDatabase.save store_a_b)) as Hsave
    by (vm_compute; reflexivity).
  assert (files world_after_a_b
          = files (env (after MyJsonDatabase.save store_a_b))) as Hf
    by reflexivity.
  repeat (split; [assumption|]).
  exact (saved_file_reloads (JS := int_doubles) store_a_b _ world_after_a_b
           Hh Hty Hp Hsave Hf).
Defined.
